(** * Keycloak provisioning scripts of spooliq: a shallow embedding

    The scripts under [scripts/] talk to the admin REST API of a Keycloak
    server through the [requests] library.  They are embedded here as
    programs of a small free monad whose effects are the ones the scripts
    have: an HTTP exchange, a call of [uuid4()], and a line written by
    [print].  The Python values that travel (decoded JSON bodies, ids,
    payloads) are values of [json], and each Python operator the scripts
    apply to them (truth value, subscription, iteration, [dict.get], item
    assignment, [in]) is a function that returns the value or the exception
    Python raises.

    Embedded files:
    - [scripts/setup_keycloak_multitenant.py]  (module [KeycloakSetup])
    - [scripts/setup_keycloak_groups.py]       (module [SetupGroups])
    - [scripts/fix_keycloak_roles.py]          (module [FixRoles])

    The Keycloak server is not part of the repository.  Properties of the
    requests a script sends are proved for every server (any state type and
    any reply function); properties of the remote state are proved against
    the reference model of module [Keycloak]. *)

From Stdlib Require Import ZArith List String Ascii Bool Lia.
Import ListNotations.
Local Open Scope string_scope.
Local Open Scope Z_scope.
Set Warnings "-register-all,-notation-for-abbreviation,-implicit-create-rewrite-hint-db".

(* ================================================================== *)
(** ** Python values *)
(* ================================================================== *)

(** What [response.json()] returns, and what [json=...] sends.  A dict is
    an association list in insertion order, as Python keeps it; numbers are
    integers (no script computes with a number of a body). *)
Inductive json : Type :=
| JNull
| JBool (b : bool)
| JNum (n : Z)
| JStr (s : string)
| JArr (items : list json)
| JObj (fields : list (string * json)).

(** The exceptions the scripts can meet.  The first three are
    [requests.exceptions.RequestException]s ([response.json()] raises
    [requests.exceptions.JSONDecodeError], a [RequestException] since
    requests 2.27); [SystemExit] is what [sys.exit] raises. *)
Record response : Type := mkResponse {
  status_code : Z;
  location : option string;       (* headers.get("Location") *)
  body : option json              (* None: empty or not JSON *)
}.

Inductive exn : Type :=
| ConnectionError
| HTTPError (r : response)
| JSONDecodeError
| KeyError
| IndexError
| TypeError
| AttributeError
| SystemExit (code : Z).

Definition is_RequestException (e : exn) : bool :=
  match e with
  | ConnectionError | HTTPError _ | JSONDecodeError => true
  | _ => false
  end.

(** [except Exception] catches everything but [SystemExit]. *)
Definition is_Exception (e : exn) : bool :=
  match e with
  | SystemExit _ => false
  | _ => true
  end.

(** [bool(x)]. *)
Definition truthy (x : json) : bool :=
  match x with
  | JNull => false
  | JBool b => b
  | JNum n => negb (n =? 0)
  | JStr s => negb (s =? "")%string
  | JArr l => match l with [] => false | _ => true end
  | JObj f => match f with [] => false | _ => true end
  end.

Fixpoint dict_get (f : list (string * json)) (k : string) : option json :=
  match f with
  | [] => None
  | (k', v) :: rest => if (k' =? k)%string then Some v else dict_get rest k
  end.

(** [d[k] = v]: an existing key keeps its place, a new one goes last. *)
Fixpoint dict_set (f : list (string * json)) (k : string) (v : json)
  : list (string * json) :=
  match f with
  | [] => [(k, v)]
  | (k', v') :: rest =>
      if (k' =? k)%string then (k', v) :: rest
      else (k', v') :: dict_set rest k v
  end.

(** [x == "s"] for a decoded value [x]. *)
Definition eq_str (x : json) (s : string) : bool :=
  match x with
  | JStr t => (t =? s)%string
  | _ => false
  end.

(** A Python operator either returns or raises. *)
Inductive outcome (A : Type) : Type :=
| Done (a : A)
| Raised (e : exn).
Arguments Done {A} a.
Arguments Raised {A} e.

(** [x[0]]. *)
Definition index0 (x : json) : outcome json :=
  match x with
  | JArr (a :: _) => Done a
  | JArr [] => Raised IndexError
  | JObj _ => Raised KeyError
  | JStr (String c _) => Done (JStr (String c EmptyString))
  | JStr EmptyString => Raised IndexError
  | _ => Raised TypeError
  end.

(** [x["k"]]. *)
Definition item (x : json) (k : string) : outcome json :=
  match x with
  | JObj f => match dict_get f k with Some v => Done v | None => Raised KeyError end
  | _ => Raised TypeError
  end.

(** [x.get("k", default)]: only a dict has the method. *)
Definition get_default (x : json) (k : string) (default : json) : outcome json :=
  match x with
  | JObj f => Done (match dict_get f k with Some v => v | None => default end)
  | _ => Raised AttributeError
  end.

(** [x.get("k")]. *)
Definition get (x : json) (k : string) : outcome json := get_default x k JNull.

Fixpoint chars (s : string) : list json :=
  match s with
  | EmptyString => []
  | String c rest => JStr (String c EmptyString) :: chars rest
  end.

(** The values [for v in x] goes through. *)
Definition iter (x : json) : outcome (list json) :=
  match x with
  | JArr l => Done l
  | JObj f => Done (map (fun kv => JStr (fst kv)) f)
  | JStr s => Done (chars s)
  | _ => Raised TypeError
  end.

(** [sub in s] for two strings. *)
Fixpoint contains (sub s : string) : bool :=
  if prefix sub s then true
  else match s with
       | EmptyString => false
       | String _ rest => contains sub rest
       end.

(** ["k" in x]. *)
Definition has_key (x : json) (k : string) : outcome bool :=
  match x with
  | JObj f => Done (match dict_get f k with Some _ => true | None => false end)
  | JArr l => Done (existsb (fun v => eq_str v k) l)
  | JStr s => Done (contains k s)
  | _ => Raised TypeError
  end.

(** [x["k"] = v]. *)
Definition setitem (x : json) (k : string) (v : json) : outcome json :=
  match x with
  | JObj f => Done (JObj (dict_set f k v))
  | _ => Raised TypeError
  end.

Definition lower_ascii (c : ascii) : ascii :=
  let n := nat_of_ascii c in
  if (Nat.leb 65 n && Nat.leb n 90)%bool then ascii_of_nat (n + 32) else c.

Fixpoint lower_string (s : string) : string :=
  match s with
  | EmptyString => EmptyString
  | String c rest => String (lower_ascii c) (lower_string rest)
  end.

(** [x.lower()]: a method of [str] only (letters of ASCII are folded). *)
Definition lower (x : json) : outcome string :=
  match x with
  | JStr s => Done (lower_string s)
  | _ => Raised AttributeError
  end.

(** [s.split("/")[-1]]: what follows the last slash. *)
Fixpoint last_segment_from (acc s : string) : string :=
  match s with
  | EmptyString => acc
  | String c rest =>
      if Ascii.eqb c "/"%char then last_segment_from rest rest
      else last_segment_from acc rest
  end.

Definition last_segment (s : string) : string := last_segment_from s s.

(* ================================================================== *)
(** ** HTTP exchanges *)
(* ================================================================== *)

Inductive method : Type := GET | POST | PUT | DELETE.

(** The endpoints the scripts address, by the path each f-string builds
    below the realm's admin root (the token endpoint apart).  An id spliced
    into a path is kept as the value that was spliced. *)
Inductive path : Type :=
| TokenEndpoint          (* /realms/master/protocol/openid-connect/token *)
| Clients                (* /admin/realms/{realm}/clients *)
| Roles                  (* .../roles *)
| Role (name : string)   (* .../roles/{name} *)
| ClientScopes           (* .../client-scopes *)
| ProtocolMappers (scope_id : json)
                         (* .../client-scopes/{id}/protocol-mappers/models *)
| DefaultClientScope (client_uuid scope_id : json)
                         (* .../clients/{id}/default-client-scopes/{scope} *)
| Users                  (* .../users *)
| User (user_id : json)  (* .../users/{id} *)
| RoleMappings (user_id : json)
                         (* .../users/{id}/role-mappings/realm *)
| Groups                 (* .../groups *)
| UserGroup (user_id group_id : json).
                         (* .../users/{id}/groups/{group} *)

Record url : Type := mkUrl {
  base : string;         (* KEYCLOAK_URL *)
  realm : string;        (* the realm of the path *)
  route : path
}.

Inductive payload : Type :=
| NoBody
| Form (data : list (string * string))   (* data=... *)
| Json (j : json).                       (* json=... *)

Record request : Type := mkRequest {
  verb : method;
  target : url;
  params : list (string * string);
  sent : payload;
  bearer : option json   (* the token of the Authorization header *)
}.

(** What a call of [requests] comes back with: a response, or a
    [RequestException] of the transport. *)
Inductive reply : Type :=
| NetworkError
| Answer (r : response).

(** [bool(response)] is [response.ok]: no status of 400..599. *)
Definition is_error_status (st : Z) : bool := (400 <=? st) && (st <? 600).
Definition ok (r : response) : bool := negb (is_error_status (status_code r)).

(** [e.response] of a caught exception, as a truth value. *)
Definition exn_response (e : exn) : option response :=
  match e with
  | HTTPError r => Some r
  | _ => None
  end.

(* ================================================================== *)
(** ** Programs *)
(* ================================================================== *)

(** A piece of an f-string handed to [print]. *)
Inductive frag : Type :=
| Lit (s : string)
| Val (j : json)             (* {value} *)
| Num (n : Z)                (* {response.status_code}, {len(...)} *)
| Exc (e : exn)              (* {e} *)
| Text (b : option json).    (* response.text *)

Definition line : Type := list frag.

Inductive prog (A : Type) : Type :=
| Ret (a : A)
| Raise (e : exn)
| Call (rq : request) (k : reply -> prog A)
| Uuid4 (k : string -> prog A)
| Echo (l : line) (k : prog A).
Arguments Ret {A} a.
Arguments Raise {A} e.
Arguments Call {A} rq k.
Arguments Uuid4 {A} k.
Arguments Echo {A} l k.

Fixpoint bind {A B : Type} (p : prog A) (f : A -> prog B) : prog B :=
  match p with
  | Ret a => f a
  | Raise e => Raise e
  | Call rq k => Call rq (fun rp => bind (k rp) f)
  | Uuid4 k => Uuid4 (fun u => bind (k u) f)
  | Echo l k => Echo l (bind k f)
  end.

(** [try: p  except <the e with h e = Some _>: h e]. *)
Fixpoint try_except {A : Type} (p : prog A) (h : exn -> option (prog A))
  : prog A :=
  match p with
  | Ret a => Ret a
  | Raise e => match h e with Some q => q | None => Raise e end
  | Call rq k => Call rq (fun rp => try_except (k rp) h)
  | Uuid4 k => Uuid4 (fun u => try_except (k u) h)
  | Echo l k => Echo l (try_except k h)
  end.

Declare Scope prog_scope.
Delimit Scope prog_scope with prog.
Bind Scope prog_scope with prog.
Notation "x <- p ;; q" := (bind p (fun x => q))
  (at level 61, p at next level, right associativity) : prog_scope.
Notation "p ;; q" := (bind p (fun _ => q))
  (at level 61, right associativity) : prog_scope.
Notation "' pat <- p ;; q" :=
  (bind p (fun x => match x with pat => q end))
  (at level 61, pat pattern, p at next level, right associativity)
  : prog_scope.
Local Open Scope prog_scope.

Definition print (l : line) : prog unit := Echo l (Ret tt).
Definition uuid4 : prog string := Uuid4 (fun u => Ret u).

(** The value of a Python operator, inside a program. *)
Definition lift {A : Type} (o : outcome A) : prog A :=
  match o with
  | Done a => Ret a
  | Raised e => Raise e
  end.

Definition send (rq : request) : prog response :=
  Call rq (fun rp =>
    match rp with
    | NetworkError => Raise ConnectionError
    | Answer r => Ret r
    end).

(** [response.raise_for_status()]. *)
Definition raise_for_status (r : response) : prog unit :=
  if is_error_status (status_code r) then Raise (HTTPError r) else Ret tt.

(** [response.json()]. *)
Definition response_json (r : response) : prog json :=
  match body r with
  | Some j => Ret j
  | None => Raise JSONDecodeError
  end.

(** [for x in l: s = body x s]. *)
Fixpoint for_each {A S : Type} (l : list A) (s : S) (body : A -> S -> prog S)
  : prog S :=
  match l with
  | [] => Ret s
  | x :: rest => s' <- body x s ;; for_each rest s' body
  end.

(** [except RequestException], [except Exception] and a bare [except]. *)
Definition except_RequestException {A : Type} (h : exn -> prog A)
  : exn -> option (prog A) :=
  fun e => if is_RequestException e then Some (h e) else None.

Definition except_Exception {A : Type} (h : exn -> prog A)
  : exn -> option (prog A) :=
  fun e => if is_Exception e then Some (h e) else None.

Definition except_all {A : Type} (h : prog A) : exn -> option (prog A) :=
  fun _ => Some h.

(* ================================================================== *)
(** ** Running a program against a remote *)
(* ================================================================== *)

Inductive entry : Type :=
| Sent (rq : request) (rp : reply)
| Minted (u : string)
| Printed (l : line).

Section Exec.
Variable W : Type.
Variable http : W -> request -> W * reply.
Variable entropy : W -> W * string.

Record execution (A : Type) : Type := mkRun {
  final : W;
  trace : list entry;
  result : outcome A
}.
Arguments mkRun {A} _ _ _.
Arguments final {A} _.
Arguments trace {A} _.
Arguments result {A} _.

Definition log {A : Type} (e : entry) (r : execution A) : execution A :=
  mkRun (final r) (e :: trace r) (result r).

Fixpoint exec {A : Type} (p : prog A) (w : W) : execution A :=
  match p with
  | Ret a => mkRun w [] (Done a)
  | Raise e => mkRun w [] (Raised e)
  | Call rq k =>
      let (w', rp) := http w rq in log (Sent rq rp) (exec (k rp) w')
  | Uuid4 k =>
      let (w', u) := entropy w in log (Minted u) (exec (k u) w')
  | Echo l k => log (Printed l) (exec k w)
  end.
End Exec.
Arguments mkRun {W A} _ _ _.
Arguments final {W A} _.
Arguments trace {W A} _.
Arguments result {W A} _.
Arguments log {W A} e r.
Arguments exec {W} http entropy {A} p w.

(** The status the interpreter exits with: 0 at the end of the script,
    the code of [sys.exit], 1 after a traceback. *)
Definition exit_status {A : Type} (o : outcome A) : Z :=
  match o with
  | Done _ => 0
  | Raised (SystemExit c) => c
  | Raised _ => 1
  end.

Definition requests (t : list entry) : list request :=
  flat_map (fun e => match e with Sent rq _ => [rq] | _ => [] end) t.

(* ================================================================== *)
(** ** scripts/setup_keycloak_multitenant.py *)
(* ================================================================== *)

(** The module-level configuration, read from the environment.  An unset
    variable ([None]) is the empty string here: both are false for the
    check of line 27, which exits before either is used. *)
Record config : Type := mkConfig {
  KEYCLOAK_URL : string;
  REALM_NAME : string;
  ADMIN_EMAIL : string;
  ADMIN_PASSWORD : string
}.

(** The line feed of ["\n"]. *)
Definition nl : string := String (ascii_of_nat 10) EmptyString.

(** [e.response] as the condition of an [if]: there is a response and it
    is true, that is [ok]. *)
Definition has_response (e : exn) : bool :=
  match exn_response e with
  | Some r => ok r
  | None => false
  end.

Definition response_text (e : exn) : option json :=
  match exn_response e with
  | Some r => body r
  | None => None
  end.

Definition response_status (e : exn) : Z :=
  match exn_response e with
  | Some r => status_code r
  | None => 0
  end.

Module KeycloakSetup.
Section Methods.
Variable cfg : config.

Definition CLIENT_ID : string := "spooliq".

(** The fields of [self].  [token] is also what the session's
    [Authorization] header carries once [get_admin_token] has run. *)
Record self_t : Type := mkSelf {
  base_url : string;
  realm_name : string;
  token : option json;
  organization_uuid : string
}.

(** [__init__]: the one place that calls [uuid4()]. *)
Definition init : prog self_t :=
  u <- uuid4 ;;
  Ret (mkSelf (KEYCLOAK_URL cfg) (REALM_NAME cfg) None u).

Definition admin (self : self_t) (p : path) : url :=
  mkUrl (base_url self) (realm_name self) p.

(** [self.session.<verb>(url, params=..., json=...)]. *)
Definition session (self : self_t) (m : method) (u : url)
    (ps : list (string * string)) (b : payload) : prog response :=
  send (mkRequest m u ps b (token self)).

(** [if hasattr(e, 'response') and e.response: print(... e.response.text)]. *)
Definition print_response_of (e : exn) : prog unit :=
  if has_response e then print [Lit "   Response: "; Text (response_text e)]
  else Ret tt.

Definition token_request (self : self_t) : request :=
  mkRequest POST (mkUrl (base_url self) "master" TokenEndpoint) []
    (Form [("client_id", "admin-cli"); ("username", ADMIN_EMAIL cfg);
           ("password", ADMIN_PASSWORD cfg); ("grant_type", "password")])
    (token self).

(** Returns the flag, and [self] with the token stored. *)
Definition get_admin_token (self : self_t) : prog (bool * self_t) :=
  print [Lit "🔐 Authenticating with Keycloak master realm..."] ;;
  try_except
    (response <- send (token_request self) ;;
     raise_for_status response ;;
     j <- response_json response ;;
     tok <- lift (item j "access_token") ;;
     print [Lit "✅ Authentication successful"] ;;
     Ret (true, mkSelf (base_url self) (realm_name self) (Some tok)
                       (organization_uuid self)))
    (except_RequestException (fun e =>
       print [Lit "❌ Authentication failed: "; Exc e] ;;
       print_response_of e ;;
       Ret (false, self))).

Definition client_config : json :=
  JObj [("clientId", JStr CLIENT_ID);
        ("name", JStr "Spooliq Application");
        ("protocol", JStr "openid-connect");
        ("publicClient", JBool true);
        ("standardFlowEnabled", JBool true);
        ("directAccessGrantsEnabled", JBool true);
        ("redirectUris", JArr [JStr "http://localhost:8000/*"]);
        ("webOrigins", JArr [JStr "http://localhost:8000"]);
        ("enabled", JBool true)].

Definition client_lookup (self : self_t) : request :=
  mkRequest GET (admin self Clients) [("clientId", CLIENT_ID)] NoBody
    (token self).

Definition client_creation (self : self_t) : request :=
  mkRequest POST (admin self Clients) [] (Json client_config) (token self).

(** Returns the client's id, or [None] ([JNull]). *)
Definition create_client (self : self_t) : prog json :=
  print [Lit nl; Lit "📱 Setting up client '"; Lit CLIENT_ID; Lit "'..."] ;;
  found <- try_except
    (response <- send (client_lookup self) ;;
     raise_for_status response ;;
     clients <- response_json response ;;
     if truthy clients then
       c <- lift (index0 clients) ;;
       client_uuid <- lift (item c "id") ;;
       print [Lit "✅ Client '"; Lit CLIENT_ID;
              Lit "' already exists (ID: "; Val client_uuid; Lit ")"] ;;
       Ret (Some client_uuid)
     else Ret None)
    (except_RequestException (fun e =>
       print [Lit "⚠️  Error checking client: "; Exc e] ;;
       Ret None)) ;;
  match found with
  | Some client_uuid => Ret client_uuid
  | None =>
      try_except
        (response <- send (client_creation self) ;;
         raise_for_status response ;;
         response <- send (client_lookup self) ;;
         raise_for_status response ;;
         j <- response_json response ;;
         c <- lift (index0 j) ;;
         client_uuid <- lift (item c "id") ;;
         print [Lit "✅ Client '"; Lit CLIENT_ID;
                Lit "' created successfully (ID: "; Val client_uuid; Lit ")"] ;;
         Ret client_uuid)
        (except_RequestException (fun e =>
           print [Lit "❌ Failed to create client: "; Exc e] ;;
           print_response_of e ;;
           Ret JNull))
  end.

Definition roles : list string := ["PlatformAdmin"; "OrgAdmin"; "User"].

Definition role_config (role_name : string) : json :=
  JObj [("name", JStr role_name);
        ("description",
         JStr (role_name ++ " role for Spooliq multi-tenant system"))].

Definition role_lookup (self : self_t) (role_name : string) : request :=
  mkRequest GET (admin self (Role role_name)) [] NoBody (token self).

Definition role_creation (self : self_t) (role_name : string) : request :=
  mkRequest POST (admin self Roles) [] (Json (role_config role_name))
    (token self).

(** One turn of the loop of [create_roles]; [success] is the flag the
    loop carries, and a role found leaves it as it is ([continue]). *)
Definition create_role (self : self_t) (role_name : string) (success : bool)
  : prog bool :=
  found <- try_except
    (check_response <- send (role_lookup self role_name) ;;
     if status_code check_response =? 200 then
       print [Lit "   ✅ Role '"; Lit role_name; Lit "' already exists"] ;;
       Ret true
     else Ret false)
    (except_all (Ret false)) ;;
  if (found : bool) then Ret success
  else
    try_except
      (response <- send (role_creation self role_name) ;;
       raise_for_status response ;;
       print [Lit "   ✅ Role '"; Lit role_name; Lit "' created"] ;;
       Ret success)
      (except_RequestException (fun e =>
         print [Lit "   ❌ Failed to create role '"; Lit role_name;
                Lit "': "; Exc e] ;;
         Ret false)).

Definition create_roles (self : self_t) : prog bool :=
  print [Lit nl; Lit "👥 Creating realm roles..."] ;;
  for_each roles true (create_role self).

Definition scope_config : json :=
  JObj [("name", JStr "organization");
        ("description", JStr "Organization multi-tenancy scope");
        ("protocol", JStr "openid-connect");
        ("attributes",
         JObj [("include.in.token.scope", JStr "true");
               ("display.on.consent.screen", JStr "false")])].

Definition scope_listing (self : self_t) : request :=
  mkRequest GET (admin self ClientScopes) [] NoBody (token self).

Definition scope_creation (self : self_t) : request :=
  mkRequest POST (admin self ClientScopes) [] (Json scope_config)
    (token self).

(** [for scope in ...: if scope["name"] == "organization": ... return
    scope_id]; [Some] is the [return] inside the loop. *)
Fixpoint scan_scopes (verb_done : string) (l : list json)
  : prog (option json) :=
  match l with
  | [] => Ret None
  | scope :: rest =>
      name <- lift (item scope "name") ;;
      if eq_str name "organization" then
        scope_id <- lift (item scope "id") ;;
        print [Lit "✅ Scope 'organization' "; Lit verb_done; Lit " (ID: ";
               Val scope_id; Lit ")"] ;;
        Ret (Some scope_id)
      else scan_scopes verb_done rest
  end.

(** Returns the scope's id, or [None]: also when the scope is missing
    from the listing that follows its creation (the function ends
    without a [return]). *)
Definition create_client_scope (self : self_t) : prog json :=
  print [Lit nl; Lit "🔧 Creating 'organization' client scope..."] ;;
  found <- try_except
    (response <- send (scope_listing self) ;;
     raise_for_status response ;;
     j <- response_json response ;;
     l <- lift (iter j) ;;
     scan_scopes "already exists" l)
    (except_all (Ret None)) ;;
  match found with
  | Some scope_id => Ret scope_id
  | None =>
      try_except
        (response <- send (scope_creation self) ;;
         raise_for_status response ;;
         response <- send (scope_listing self) ;;
         raise_for_status response ;;
         j <- response_json response ;;
         l <- lift (iter j) ;;
         found <- scan_scopes "created" l ;;
         match found with
         | Some scope_id => Ret scope_id
         | None => Ret JNull
         end)
        (except_RequestException (fun e =>
           print [Lit "❌ Failed to create scope: "; Exc e] ;;
           Ret JNull))
  end.

Definition mapper_config : json :=
  JObj [("name", JStr "organization-id-mapper");
        ("protocol", JStr "openid-connect");
        ("protocolMapper", JStr "oidc-usermodel-attribute-mapper");
        ("config",
         JObj [("user.attribute", JStr "organization_id");
               ("claim.name", JStr "organization_id");
               ("jsonType.label", JStr "String");
               ("id.token.claim", JStr "true");
               ("access.token.claim", JStr "true");
               ("userinfo.token.claim", JStr "true")])].

Definition mapper_listing (self : self_t) (scope_id : json) : request :=
  mkRequest GET (admin self (ProtocolMappers scope_id)) [] NoBody
    (token self).

Definition mapper_creation (self : self_t) (scope_id : json) : request :=
  mkRequest POST (admin self (ProtocolMappers scope_id)) []
    (Json mapper_config) (token self).

(** [for mapper in mappers: if mapper.get("name") == ...: return True]. *)
Fixpoint scan_mappers (l : list json) : prog bool :=
  match l with
  | [] => Ret false
  | mapper :: rest =>
      name <- lift (get mapper "name") ;;
      if eq_str name "organization-id-mapper" then
        print [Lit "✅ Protocol mapper already exists"] ;;
        Ret true
      else scan_mappers rest
  end.

Definition create_protocol_mapper (self : self_t) (scope_id : json)
  : prog bool :=
  print [Lit nl; Lit "🗺️  Creating organization_id protocol mapper..."] ;;
  found <- try_except
    (response <- send (mapper_listing self scope_id) ;;
     raise_for_status response ;;
     mappers <- response_json response ;;
     l <- lift (iter mappers) ;;
     scan_mappers l)
    (except_all (Ret false)) ;;
  if (found : bool) then Ret true
  else
    try_except
      (response <- send (mapper_creation self scope_id) ;;
       raise_for_status response ;;
       print [Lit "✅ Protocol mapper created"] ;;
       Ret true)
      (except_RequestException (fun e =>
         if has_response e && (response_status e =? 409) then
           print [Lit "✅ Protocol mapper already exists"] ;;
           Ret true
         else
           print [Lit "❌ Failed to create mapper: "; Exc e] ;;
           Ret false)).

Definition scope_assignment (self : self_t) (client_uuid scope_id : json)
  : request :=
  mkRequest PUT (admin self (DefaultClientScope client_uuid scope_id)) []
    NoBody (token self).

Definition assign_scope_to_client (self : self_t)
    (client_uuid scope_id : json) : prog bool :=
  print [Lit nl; Lit "🔗 Assigning 'organization' scope to client..."] ;;
  try_except
    (response <- send (scope_assignment self client_uuid scope_id) ;;
     raise_for_status response ;;
     print [Lit "✅ Scope assigned to client as default"] ;;
     Ret true)
    (except_RequestException (fun e =>
       print [Lit "❌ Failed to assign scope: "; Exc e] ;;
       Ret false)).

Definition user_lookup (self : self_t) (email : string) : request :=
  mkRequest GET (admin self Users) [("email", email); ("exact", "true")]
    NoBody (token self).

(** Returns the user's id, or [None]. *)
Definition find_user_by_email (self : self_t) (email : string) : prog json :=
  print [Lit nl; Lit "🔍 Finding user '"; Lit email; Lit "'..."] ;;
  try_except
    (response <- send (user_lookup self email) ;;
     raise_for_status response ;;
     users <- response_json response ;;
     if truthy users then
       u <- lift (index0 users) ;;
       user_id <- lift (item u "id") ;;
       print [Lit "✅ User found (ID: "; Val user_id; Lit ")"] ;;
       Ret user_id
     else
       print [Lit "❌ User '"; Lit email; Lit "' not found"] ;;
       Ret JNull)
    (except_RequestException (fun e =>
       print [Lit "❌ Error finding user: "; Exc e] ;;
       Ret JNull)).

Definition user_read (self : self_t) (user_id : json) : request :=
  mkRequest GET (admin self (User user_id)) [] NoBody (token self).

Definition user_update (self : self_t) (user_id user_data : json) : request :=
  mkRequest PUT (admin self (User user_id)) [] (Json user_data) (token self).

(** Lines 294-297: [user_data["attributes"]["organization_id"] = [uuid]]
    assigns into the dict that [user_data["attributes"]] holds, so the
    change shows in [user_data]; the last [setitem] writes that dict back
    under the key it already has. *)
Definition with_organization_id (user_data : json) (uuid : string)
  : outcome json :=
  match has_key user_data "attributes" with
  | Raised e => Raised e
  | Done has =>
      match (if has then Done user_data
             else setitem user_data "attributes" (JObj [])) with
      | Raised e => Raised e
      | Done user_data =>
          match item user_data "attributes" with
          | Raised e => Raised e
          | Done attributes =>
              match setitem attributes "organization_id" (JArr [JStr uuid]) with
              | Raised e => Raised e
              | Done attributes => setitem user_data "attributes" attributes
              end
          end
      end
  end.

Definition set_user_attribute (self : self_t) (user_id : json) : prog bool :=
  print [Lit nl; Lit "🏢 Setting organization_id attribute to: ";
         Lit (organization_uuid self)] ;;
  try_except
    (response <- send (user_read self user_id) ;;
     raise_for_status response ;;
     user_data <- response_json response ;;
     user_data <- lift (with_organization_id user_data (organization_uuid self)) ;;
     response <- send (user_update self user_id user_data) ;;
     raise_for_status response ;;
     print [Lit "✅ organization_id attribute set"] ;;
     Ret true)
    (except_RequestException (fun e =>
       print [Lit "❌ Failed to set attribute: "; Exc e] ;;
       print_response_of e ;;
       Ret false)).

Definition roles_to_assign : list string := ["PlatformAdmin"; "OrgAdmin"; "User"].

Definition role_listing (self : self_t) : request :=
  mkRequest GET (admin self Roles) [] NoBody (token self).

Definition role_assignment (self : self_t) (user_id : json)
    (role_objects : list json) : request :=
  mkRequest POST (admin self (RoleMappings user_id)) []
    (Json (JArr role_objects)) (token self).

(** The inner loop: the first role of the listing with that name, as
    [{"id": ..., "name": ...}]; [None] when the loop ends without [break]. *)
Fixpoint find_role (l : list json) (role_name : string)
  : outcome (option json) :=
  match l with
  | [] => Done None
  | role :: rest =>
      match item role "name" with
      | Raised e => Raised e
      | Done name =>
          if eq_str name role_name then
            match item role "id" with
            | Raised e => Raised e
            | Done id => Done (Some (JObj [("id", id); ("name", name)]))
            end
          else find_role rest role_name
      end
  end.

(** The outer loop: [role_objects] after the names of [names]. *)
Fixpoint collect_roles (all_roles : json) (names : list string)
    (role_objects : list json) : outcome (list json) :=
  match names with
  | [] => Done role_objects
  | role_name :: rest =>
      match iter all_roles with
      | Raised e => Raised e
      | Done l =>
          match find_role l role_name with
          | Raised e => Raised e
          | Done (Some o) => collect_roles all_roles rest (role_objects ++ [o])
          | Done None => collect_roles all_roles rest role_objects
          end
      end
  end.

Definition assign_roles_to_user (self : self_t) (user_id : json) : prog bool :=
  print [Lit nl; Lit "🎭 Assigning roles to user..."] ;;
  try_except
    (response <- send (role_listing self) ;;
     raise_for_status response ;;
     all_roles <- response_json response ;;
     role_objects <- lift (collect_roles all_roles roles_to_assign []) ;;
     if negb (Nat.eqb (List.length role_objects) (List.length roles_to_assign)) then
       print [Lit "❌ Not all roles found. Found ";
              Num (Z.of_nat (List.length role_objects)); Lit " of ";
              Num (Z.of_nat (List.length roles_to_assign))] ;;
       Ret false
     else
       response <- send (role_assignment self user_id role_objects) ;;
       raise_for_status response ;;
       print [Lit "✅ Roles assigned: PlatformAdmin, OrgAdmin, User"] ;;
       Ret true)
    (except_RequestException (fun e =>
       print [Lit "❌ Failed to assign roles: "; Exc e] ;;
       print_response_of e ;;
       Ret false)).

(** ["=" * 60]. *)
Definition rule : string :=
  "============================================================".

(** The double quote of the [curl] example. *)
Definition dq : string := String (ascii_of_nat 34) EmptyString.

(** Lines 396-420. *)
Definition print_summary (self : self_t) : prog unit :=
  print [Lit nl; Lit rule] ;;
  print [Lit "✅ Setup completed successfully!"] ;;
  print [Lit rule] ;;
  print [Lit nl; Lit "📋 Configuration Summary:"] ;;
  print [Lit "   Realm: "; Lit (realm_name self)] ;;
  print [Lit "   Client: "; Lit CLIENT_ID] ;;
  print [Lit "   User: "; Lit (ADMIN_EMAIL cfg)] ;;
  print [Lit "   Organization UUID: "; Lit (organization_uuid self)] ;;
  print [Lit nl; Lit "📝 Next steps:"] ;;
  print [Lit "   1. Create company record in database:"] ;;
  print [Lit "      INSERT INTO companies (id, organization_id, name, email)"] ;;
  print [Lit "      VALUES ("] ;;
  print [Lit "        uuid_generate_v4(),"] ;;
  print [Lit "        '"; Lit (organization_uuid self); Lit "',"] ;;
  print [Lit "        'Spooliq Platform',"] ;;
  print [Lit "        'contato@spooliq.com'"] ;;
  print [Lit "      );"] ;;
  print [Lit nl; Lit "   2. Test login via API:"] ;;
  print [Lit "      curl -X POST http://localhost:8000/v1/login \"] ;;
  print [Lit "        -H 'Content-Type: application/json' \"] ;;
  print [Lit "        -d '{"; Lit dq; Lit "email"; Lit dq; Lit ":"; Lit dq;
         Lit (ADMIN_EMAIL cfg); Lit dq; Lit ","; Lit dq; Lit "password";
         Lit dq; Lit ":"; Lit dq; Lit "YOUR_PASSWORD"; Lit dq; Lit "}'"] ;;
  print [Lit nl; Lit "   3. Verify JWT contains organization_id claim"] ;;
  print [Lit nl; Lit "   4. Test creating a company via POST /v1/company/"] ;;
  print [Lit nl; Lit rule].

(** [run]: nine steps, each behind an [if not ...: return False]. *)
Definition run (self : self_t) : prog bool :=
  print [Lit rule] ;;
  print [Lit "🚀 Keycloak Multi-tenant Setup"] ;;
  print [Lit rule] ;;
  (* Step 1: Authenticate *)
  '(authenticated, self) <- get_admin_token self ;;
  if negb authenticated then Ret false else
  (* Step 2: Create client *)
  client_uuid <- create_client self ;;
  if negb (truthy client_uuid) then Ret false else
  (* Step 3: Create roles *)
  created <- create_roles self ;;
  if negb created then Ret false else
  (* Step 4: Create client scope *)
  scope_id <- create_client_scope self ;;
  if negb (truthy scope_id) then Ret false else
  (* Step 5: Create protocol mapper *)
  mapped <- create_protocol_mapper self scope_id ;;
  if negb mapped then Ret false else
  (* Step 6: Assign scope to client *)
  assigned <- assign_scope_to_client self client_uuid scope_id ;;
  if negb assigned then Ret false else
  (* Step 7: Find user *)
  user_id <- find_user_by_email self (ADMIN_EMAIL cfg) ;;
  if negb (truthy user_id) then Ret false else
  (* Step 8: Set user attribute *)
  attributed <- set_user_attribute self user_id ;;
  if negb attributed then Ret false else
  (* Step 9: Assign roles *)
  granted <- assign_roles_to_user self user_id ;;
  if negb granted then Ret false else
  print_summary self ;;
  Ret true.

(** [main]: [sys.exit] raises [SystemExit], which [except Exception]
    lets through.  ([KeyboardInterrupt] comes from outside the program
    and is not modelled; [traceback.print_exc()] writes to stderr.) *)
Definition main : prog unit :=
  setup <- init ;;
  try_except
    (success <- run setup ;;
     Raise (SystemExit (if (success : bool) then 0 else 1)))
    (except_Exception (fun e =>
       print [Lit nl; Lit nl; Lit "❌ Unexpected error: "; Exc e] ;;
       Raise (SystemExit 1))).

(** The module body: the check of lines 27-33, then [main()]. *)
Definition script : prog unit :=
  if ((ADMIN_EMAIL cfg =? "") || (ADMIN_PASSWORD cfg =? ""))%string then
    print [Lit "❌ Error: KEYCLOAK_ADMIN_EMAIL and KEYCLOAK_ADMIN_PASSWORD environment variables are required"] ;;
    print [Lit nl; Lit "Usage:"] ;;
    print [Lit "  export KEYCLOAK_ADMIN_EMAIL=your_admin@email.com"] ;;
    print [Lit "  export KEYCLOAK_ADMIN_PASSWORD=your_password"] ;;
    print [Lit "  python3 scripts/setup_keycloak_multitenant.py"] ;;
    Raise (SystemExit 1)
  else main.
End Methods.
End KeycloakSetup.

(* ================================================================== *)
(** ** scripts/setup_keycloak_groups.py *)
(* ================================================================== *)

(** [[x for x in l if keep x]] where the test can raise. *)
Fixpoint comprehension (keep : json -> outcome bool) (l : list json)
  : outcome (list json) :=
  match l with
  | [] => Done []
  | x :: rest =>
      match keep x with
      | Raised e => Raised e
      | Done b =>
          match comprehension keep rest with
          | Raised e => Raised e
          | Done r => Done (if b then x :: r else r)
          end
      end
  end.

(** [[f x for x in l]]. *)
Fixpoint collect (f : json -> outcome json) (l : list json)
  : outcome (list json) :=
  match l with
  | [] => Done []
  | x :: rest =>
      match f x with
      | Raised e => Raised e
      | Done y =>
          match collect f rest with
          | Raised e => Raised e
          | Done r => Done (y :: r)
          end
      end
  end.

(** [s["name"] == "organization"]. *)
Definition named_organization (s : json) : outcome bool :=
  match item s "name" with
  | Raised e => Raised e
  | Done n => Done (eq_str n "organization")
  end.

(** ["organization" in m.get("name", "").lower()]. *)
Definition mentions_organization (m : json) : outcome bool :=
  match get_default m "name" (JStr "") with
  | Raised e => Raised e
  | Done n =>
      match lower n with
      | Raised e => Raised e
      | Done s => Done (contains "organization" s)
      end
  end.

Module SetupGroups.
Section Script.
(** The constants of lines 15-17.  The password literal of line 18 is
    taken as a variable: only the token request carries it. *)
Variable ADMIN_PASSWORD : string.

Definition KEYCLOAK_URL : string := "https://auth.rodolfodebonis.com.br".
Definition REALM : string := "spooliq".
Definition ADMIN_EMAIL : string := "dev@rodolfodebonis.com.br".

Definition rule : string :=
  "============================================================".
Definition dq : string := String (ascii_of_nat 34) EmptyString.

Definition admin (p : path) : url := mkUrl KEYCLOAK_URL REALM p.

(** [requests.<verb>(url, headers=headers, params=..., json=...)]. *)
Definition call (admin_token : json) (m : method) (p : path)
    (ps : list (string * string)) (b : payload) : request :=
  mkRequest m (admin p) ps b (Some admin_token).

(** Lines 20-30. *)
Definition mint : prog string :=
  SPOOLIQ_ORG_UUID <- uuid4 ;;
  print [Lit rule] ;;
  print [Lit "🏢 Keycloak Multi-tenant Setup using Groups"] ;;
  print [Lit rule] ;;
  print [Lit "Keycloak URL: "; Lit KEYCLOAK_URL] ;;
  print [Lit "Realm: "; Lit REALM] ;;
  print [Lit "User: "; Lit ADMIN_EMAIL] ;;
  print [Lit "Generated Organization UUID: "; Lit SPOOLIQ_ORG_UUID] ;;
  print [Lit rule] ;;
  Ret SPOOLIQ_ORG_UUID.

Definition token_request : request :=
  mkRequest POST (mkUrl KEYCLOAK_URL "master" TokenEndpoint) []
    (Form [("client_id", "admin-cli"); ("username", ADMIN_EMAIL);
           ("password", ADMIN_PASSWORD); ("grant_type", "password")])
    None.

(** STEP 1: returns [admin_token]. *)
Definition step1_authenticate : prog json :=
  print [Lit nl; Lit "🔐 Authenticating with Keycloak master realm..."] ;;
  try_except
    (response <- send token_request ;;
     raise_for_status response ;;
     j <- response_json response ;;
     admin_token <- lift (item j "access_token") ;;
     print [Lit "✅ Authentication successful"] ;;
     Ret admin_token)
    (except_Exception (fun e =>
       print [Lit "❌ Authentication failed: "; Exc e] ;;
       Raise (SystemExit 1))).

Definition client_data : json :=
  JObj [("clientId", JStr "spooliq");
        ("name", JStr "Spooliq Application");
        ("description", JStr "Main Spooliq application client");
        ("enabled", JBool true);
        ("protocol", JStr "openid-connect");
        ("publicClient", JBool true);
        ("standardFlowEnabled", JBool true);
        ("directAccessGrantsEnabled", JBool true);
        ("serviceAccountsEnabled", JBool false);
        ("redirectUris", JArr [JStr "http://localhost:8000/*";
                               JStr "https://*.rodolfodebonis.com.br/*"]);
        ("webOrigins", JArr [JStr "http://localhost:8000";
                             JStr "https://*.rodolfodebonis.com.br"]);
        ("attributes", JObj [("access.token.lifespan", JStr "3600")])].

Definition client_lookup (t : json) : request :=
  call t GET Clients [("clientId", "spooliq")] NoBody.
Definition client_creation (t : json) : request :=
  call t POST Clients [] (Json client_data).

(** STEP 2: returns [client_id]. *)
Definition step2_client (t : json) : prog json :=
  print [Lit nl; Lit "📱 Setting up client 'spooliq'..."] ;;
  response <- send (client_lookup t) ;;
  existing_clients <- response_json response ;;
  if truthy existing_clients then
    c <- lift (index0 existing_clients) ;;
    client_id <- lift (item c "id") ;;
    print [Lit "✅ Client 'spooliq' already exists (ID: "; Val client_id; Lit ")"] ;;
    Ret client_id
  else
    response <- send (client_creation t) ;;
    if status_code response =? 201 then
      response <- send (client_lookup t) ;;
      j <- response_json response ;;
      c <- lift (index0 j) ;;
      client_id <- lift (item c "id") ;;
      print [Lit "✅ Client 'spooliq' created (ID: "; Val client_id; Lit ")"] ;;
      Ret client_id
    else
      print [Lit "❌ Failed to create client: "; Num (status_code response)] ;;
      print [Text (body response)] ;;
      Raise (SystemExit 1).

Definition roles : list string := ["PlatformAdmin"; "OrgAdmin"; "Owner"; "User"].

Definition role_data (role : string) : json :=
  JObj [("name", JStr role);
        ("description", JStr (role ++ " role for Spooliq SaaS platform"))].

Definition role_lookup (t : json) (role : string) : request :=
  call t GET (Role role) [] NoBody.
Definition role_creation (t : json) (role : string) : request :=
  call t POST Roles [] (Json (role_data role)).

(** One turn of the loop of STEP 3. *)
Definition create_role (t : json) (role : string) (_ : unit) : prog unit :=
  response <- send (role_lookup t role) ;;
  if status_code response =? 200 then
    print [Lit "   ✅ Role '"; Lit role; Lit "' already exists"]
  else
    response <- send (role_creation t role) ;;
    if status_code response =? 201 then
      print [Lit "   ✅ Role '"; Lit role; Lit "' created"]
    else
      print [Lit "   ⚠️  Failed to create role '"; Lit role; Lit "': ";
             Num (status_code response)].

(** STEP 3. *)
Definition step3_roles (t : json) : prog unit :=
  print [Lit nl; Lit "👥 Creating realm roles..."] ;;
  for_each roles tt (create_role t).

Definition scope_data : json :=
  JObj [("name", JStr "organization");
        ("description", JStr "Organization/Company membership via Groups");
        ("protocol", JStr "openid-connect");
        ("attributes",
         JObj [("include.in.token.scope", JStr "true");
               ("display.on.consent.screen", JStr "false")])].

Definition scope_listing (t : json) : request :=
  call t GET ClientScopes [] NoBody.
Definition scope_creation (t : json) : request :=
  call t POST ClientScopes [] (Json scope_data).

(** [[s["id"] for s in ... if s["name"] == "organization"]]. *)
Fixpoint organization_ids (l : list json) : outcome (list json) :=
  match l with
  | [] => Done []
  | s :: rest =>
      match named_organization s with
      | Raised e => Raised e
      | Done true =>
          match item s "id" with
          | Raised e => Raised e
          | Done i =>
              match organization_ids rest with
              | Raised e => Raised e
              | Done r => Done (i :: r)
              end
          end
      | Done false => organization_ids rest
      end
  end.

(** STEP 4: returns [scope_id]. *)
Definition step4_scope (t : json) : prog json :=
  print [Lit nl; Lit "🔧 Creating 'organization' client scope with group mapper..."] ;;
  response <- send (scope_listing t) ;;
  j <- response_json response ;;
  l <- lift (iter j) ;;
  existing_scopes <- lift (comprehension named_organization l) ;;
  if truthy (JArr existing_scopes) then
    s <- lift (index0 (JArr existing_scopes)) ;;
    scope_id <- lift (item s "id") ;;
    print [Lit "✅ Scope 'organization' already exists (ID: "; Val scope_id; Lit ")"] ;;
    Ret scope_id
  else
    response <- send (scope_creation t) ;;
    if status_code response =? 201 then
      response <- send (scope_listing t) ;;
      j <- response_json response ;;
      l <- lift (iter j) ;;
      ids <- lift (organization_ids l) ;;
      scope_id <- lift (index0 (JArr ids)) ;;
      print [Lit "✅ Scope 'organization' created (ID: "; Val scope_id; Lit ")"] ;;
      Ret scope_id
    else
      print [Lit "❌ Failed to create scope: "; Num (status_code response)] ;;
      print [Text (body response)] ;;
      Raise (SystemExit 1).

Definition mapper_data : json :=
  JObj [("name", JStr "organization-group-mapper");
        ("protocol", JStr "openid-connect");
        ("protocolMapper", JStr "oidc-group-membership-mapper");
        ("config",
         JObj [("claim.name", JStr "groups");
               ("full.path", JStr "false");
               ("id.token.claim", JStr "true");
               ("access.token.claim", JStr "true");
               ("userinfo.token.claim", JStr "true")])].

Definition mapper_data_custom : json :=
  JObj [("name", JStr "organization-id-from-group");
        ("protocol", JStr "openid-connect");
        ("protocolMapper", JStr "oidc-usermodel-attribute-mapper");
        ("config",
         JObj [("user.attribute", JStr "organization_id");
               ("claim.name", JStr "organization_id");
               ("jsonType.label", JStr "String");
               ("id.token.claim", JStr "true");
               ("access.token.claim", JStr "true");
               ("userinfo.token.claim", JStr "true");
               ("multivalued", JStr "false");
               ("aggregate.attrs", JStr "false")])].

Definition mapper_listing (t scope_id : json) : request :=
  call t GET (ProtocolMappers scope_id) [] NoBody.
Definition mapper_creation (t scope_id : json) : request :=
  call t POST (ProtocolMappers scope_id) [] (Json mapper_data).
Definition custom_mapper_creation (t scope_id : json) : request :=
  call t POST (ProtocolMappers scope_id) [] (Json mapper_data_custom).

(** STEP 5, lines 161-192: the group mapper, behind its lookup. *)
Definition step5_group_mapper (t scope_id : json) : prog unit :=
  print [Lit nl; Lit "🗺️  Creating organization_id group mapper..."] ;;
  response <- send (mapper_listing t scope_id) ;;
  j <- response_json response ;;
  l <- lift (iter j) ;;
  existing_mappers <- lift (comprehension mentions_organization l) ;;
  if truthy (JArr existing_mappers) then
    print [Lit "✅ Group mapper already exists"]
  else
    response <- send (mapper_creation t scope_id) ;;
    if status_code response =? 201 then
      print [Lit "✅ Group mapper created"]
    else if status_code response =? 409 then
      print [Lit "✅ Group mapper already exists"]
    else
      print [Lit "⚠️  Mapper creation returned: "; Num (status_code response)] ;;
      print [Text (body response)].

(** STEP 5, lines 194-215: the custom mapper, posted without a lookup. *)
Definition step5_custom_mapper (t scope_id : json) : prog unit :=
  response <- send (custom_mapper_creation t scope_id) ;;
  if status_code response =? 201 then
    print [Lit "✅ Custom organization_id mapper created"]
  else if status_code response =? 409 then
    print [Lit "✅ Custom organization_id mapper already exists"]
  else Ret tt.

Definition step5_mappers (t scope_id : json) : prog unit :=
  step5_group_mapper t scope_id ;;
  step5_custom_mapper t scope_id.

Definition scope_assignment (t client_id scope_id : json) : request :=
  call t PUT (DefaultClientScope client_id scope_id) [] NoBody.

Definition scope_assigned : line := [Lit "✅ Scope assigned to client as default"].

(** STEP 6. *)
Definition step6_assign_scope (t client_id scope_id : json) : prog unit :=
  print [Lit nl; Lit "🔗 Assigning 'organization' scope to client..."] ;;
  response <- send (scope_assignment t client_id scope_id) ;;
  if (status_code response =? 204) || (status_code response =? 404) then
    print scope_assigned
  else
    print [Lit "⚠️  Scope assignment returned: "; Num (status_code response)].

Definition group_data (SPOOLIQ_ORG_UUID : string) : json :=
  JObj [("name", JStr "spooliq-platform");
        ("attributes",
         JObj [("organization_id", JArr [JStr SPOOLIQ_ORG_UUID]);
               ("company_name", JArr [JStr "Spooliq Platform"])])].

Definition group_lookup (t : json) : request :=
  call t GET Groups [("search", "spooliq-platform")] NoBody.
Definition group_creation (t : json) (SPOOLIQ_ORG_UUID : string) : request :=
  call t POST Groups [] (Json (group_data SPOOLIQ_ORG_UUID)).

(** STEP 7: returns [group_id]. *)
Definition step7_group (t : json) (SPOOLIQ_ORG_UUID : string) : prog json :=
  print [Lit nl; Lit "🏢 Creating group for Spooliq Platform organization..."] ;;
  response <- send (group_lookup t) ;;
  existing_groups <- response_json response ;;
  if truthy existing_groups then
    g <- lift (index0 existing_groups) ;;
    group_id <- lift (item g "id") ;;
    print [Lit "✅ Group 'spooliq-platform' already exists (ID: "; Val group_id; Lit ")"] ;;
    Ret group_id
  else
    response <- send (group_creation t SPOOLIQ_ORG_UUID) ;;
    if status_code response =? 201 then
      match location response with
      | None => Raise AttributeError      (* None.split *)
      | Some loc =>
          let group_id := JStr (last_segment loc) in
          print [Lit "✅ Group 'spooliq-platform' created (ID: "; Val group_id; Lit ")"] ;;
          print [Lit "   Organization UUID: "; Lit SPOOLIQ_ORG_UUID] ;;
          Ret group_id
      end
    else
      print [Lit "❌ Failed to create group: "; Num (status_code response)] ;;
      print [Text (body response)] ;;
      Raise (SystemExit 1).

Definition user_lookup (t : json) : request :=
  call t GET Users [("email", ADMIN_EMAIL); ("exact", "true")] NoBody.

(** STEP 8: returns [user_id]. *)
Definition step8_find_user (t : json) : prog json :=
  print [Lit nl; Lit "🔍 Finding user '"; Lit ADMIN_EMAIL; Lit "'..."] ;;
  response <- send (user_lookup t) ;;
  users <- response_json response ;;
  if negb (truthy users) then
    print [Lit "❌ User not found: "; Lit ADMIN_EMAIL] ;;
    Raise (SystemExit 1)
  else
    u <- lift (index0 users) ;;
    user_id <- lift (item u "id") ;;
    print [Lit "✅ User found (ID: "; Val user_id; Lit ")"] ;;
    Ret user_id.

Definition group_membership (t user_id group_id : json) : request :=
  call t PUT (UserGroup user_id group_id) [] NoBody.
Definition user_read (t user_id : json) : request :=
  call t GET (User user_id) [] NoBody.
Definition user_update (t user_id user_data : json) : request :=
  call t PUT (User user_id) [] (Json user_data).

(** Lines 296-297:
    [user_data["attributes"] = user_data.get("attributes", {})], then the
    assignment into that dict, seen through [user_data]. *)
Definition with_organization_id (user_data : json) (uuid : string)
  : outcome json :=
  match get_default user_data "attributes" (JObj []) with
  | Raised e => Raised e
  | Done attributes =>
      match setitem user_data "attributes" attributes with
      | Raised e => Raised e
      | Done user_data =>
          match setitem attributes "organization_id" (JArr [JStr uuid]) with
          | Raised e => Raised e
          | Done attributes => setitem user_data "attributes" attributes
          end
      end
  end.

(** STEP 9, lines 282-289: group membership. *)
Definition step9_join_group (t user_id group_id : json) : prog unit :=
  print [Lit nl; Lit "👤 Adding user to 'spooliq-platform' group..."] ;;
  response <- send (group_membership t user_id group_id) ;;
  if status_code response =? 204 then
    print [Lit "✅ User added to group"]
  else
    print [Lit "⚠️  Add to group returned: "; Num (status_code response)].

(** STEP 9, lines 291-301: the user attribute. *)
Definition step9_set_attribute (t user_id : json) (SPOOLIQ_ORG_UUID : string)
  : prog unit :=
  print [Lit nl; Lit "📝 Setting organization_id user attribute (backward compat)..."] ;;
  response <- send (user_read t user_id) ;;
  user_data <- response_json response ;;
  user_data <- lift (with_organization_id user_data SPOOLIQ_ORG_UUID) ;;
  response <- send (user_update t user_id user_data) ;;
  if status_code response =? 204 then
    print [Lit "✅ organization_id attribute set"]
  else Ret tt.

Definition role_assignment (t user_id : json) (available_roles : list json)
  : request :=
  call t POST (RoleMappings user_id) [] (Json (JArr available_roles)).

(** One turn of the loop of lines 311-314. *)
Definition available_role (t : json) (role : string)
    (available_roles : list json) : prog (list json) :=
  response <- send (role_lookup t role) ;;
  if status_code response =? 200 then
    j <- response_json response ;;
    Ret (available_roles ++ [j])%list
  else Ret available_roles.

(** [', '.join(roles)]. *)
Fixpoint joined (l : list string) : string :=
  match l with
  | [] => ""
  | [x] => x
  | x :: rest => x ++ ", " ++ joined rest
  end.

(** STEP 10. *)
Definition step10_assign_roles (t user_id : json) : prog unit :=
  print [Lit nl; Lit "🎭 Assigning roles to user..."] ;;
  available_roles <- for_each roles [] (available_role t) ;;
  response <- send (role_assignment t user_id available_roles) ;;
  if (status_code response =? 204) || (status_code response =? 409) then
    print [Lit "✅ Roles assigned: "; Lit (joined roles)]
  else
    print [Lit "⚠️  Role assignment returned: "; Num (status_code response)].

(** Lines 333-383: the text of the summary. *)
Definition summary (SPOOLIQ_ORG_UUID : string) : line :=
  [Lit "
📋 Configuration Summary:
   Realm: "; Lit REALM; Lit "
   Client: spooliq
   Group: spooliq-platform
   User: "; Lit ADMIN_EMAIL; Lit "
   Organization UUID: "; Lit SPOOLIQ_ORG_UUID; Lit "

📝 Next steps:

1. Create/Update company record in database:
   
   UPDATE companies 
   SET organization_id = '"; Lit SPOOLIQ_ORG_UUID; Lit "'
   WHERE name = 'Spooliq Platform';
   
   -- Or if it doesn't exist:
   INSERT INTO companies (id, organization_id, name, email, phone, created_at, updated_at)
   VALUES (
     gen_random_uuid(),
     '"; Lit SPOOLIQ_ORG_UUID; Lit "',
     'Spooliq Platform',
     'contato@spooliq.com',
     '+55 11 99999-9999',
     NOW(),
     NOW()
   );

2. Test login via API:
   
   curl -X POST http://localhost:8000/v1/login \
     -H 'Content-Type: application/json' \
     -d '{"; Lit dq; Lit "email"; Lit dq; Lit ":"; Lit dq; Lit ADMIN_EMAIL;
         Lit dq; Lit ","; Lit dq; Lit "password"; Lit dq; Lit ":"; Lit dq;
         Lit "YOUR_PASSWORD"; Lit dq; Lit "}'

3. Verify JWT contains organization_id claim:
   
   # Decode the access token and check for:
   # - "; Lit dq; Lit "organization_id"; Lit dq; Lit ": "; Lit dq;
         Lit SPOOLIQ_ORG_UUID; Lit dq; Lit "
   # - "; Lit dq; Lit "groups"; Lit dq; Lit ": ["; Lit dq;
         Lit "spooliq-platform"; Lit dq; Lit "]
   # - "; Lit dq; Lit "realm_access.roles"; Lit dq; Lit ": [..., "; Lit dq;
         Lit "PlatformAdmin"; Lit dq; Lit ", ...]

4. Test company endpoint:
   
   curl -X GET http://localhost:8000/v1/company/ \
     -H "; Lit dq; Lit "Authorization: Bearer YOUR_TOKEN"; Lit dq; Lit "

5. To add a new client company:
   
   a) Create group in Keycloak with organization_id attribute
   b) Add client user to that group
   c) Assign appropriate roles (User, OrgAdmin)
   d) Insert company record in database

="; Lit rule].

(** Lines 326-383. *)
Definition print_summary (SPOOLIQ_ORG_UUID : string) : prog unit :=
  print [Lit nl; Lit rule] ;;
  print [Lit "✅ Setup completed successfully!"] ;;
  print [Lit rule] ;;
  print (summary SPOOLIQ_ORG_UUID).

(** The script, top to bottom. *)
Definition script : prog unit :=
  SPOOLIQ_ORG_UUID <- mint ;;
  admin_token <- step1_authenticate ;;
  client_id <- step2_client admin_token ;;
  step3_roles admin_token ;;
  scope_id <- step4_scope admin_token ;;
  step5_mappers admin_token scope_id ;;
  step6_assign_scope admin_token client_id scope_id ;;
  group_id <- step7_group admin_token SPOOLIQ_ORG_UUID ;;
  user_id <- step8_find_user admin_token ;;
  step9_join_group admin_token user_id group_id ;;
  step9_set_attribute admin_token user_id SPOOLIQ_ORG_UUID ;;
  step10_assign_roles admin_token user_id ;;
  print_summary SPOOLIQ_ORG_UUID.
End Script.
End SetupGroups.

(* ================================================================== *)
(** ** scripts/fix_keycloak_roles.py *)
(* ================================================================== *)

Module FixRoles.
Section Script.
Variable cfg : config.

Definition rule : string :=
  "============================================================".
Definition dq : string := String (ascii_of_nat 34) EmptyString.

Definition admin (p : path) : url :=
  mkUrl (KEYCLOAK_URL cfg) (REALM_NAME cfg) p.

Definition call (admin_token : json) (m : method) (p : path)
    (ps : list (string * string)) (b : payload) : request :=
  mkRequest m (admin p) ps b (Some admin_token).

Definition token_request : request :=
  mkRequest POST (mkUrl (KEYCLOAK_URL cfg) "master" TokenEndpoint) []
    (Form [("client_id", "admin-cli"); ("username", ADMIN_EMAIL cfg);
           ("password", ADMIN_PASSWORD cfg); ("grant_type", "password")])
    None.

(** STEP 1: returns [admin_token]. *)
Definition step1_authenticate : prog json :=
  print [Lit nl; Lit "🔐 Authenticating with Keycloak master realm..."] ;;
  try_except
    (response <- send token_request ;;
     raise_for_status response ;;
     j <- response_json response ;;
     admin_token <- lift (item j "access_token") ;;
     print [Lit "✅ Authentication successful"] ;;
     Ret admin_token)
    (except_Exception (fun e =>
       print [Lit "❌ Authentication failed: "; Exc e] ;;
       Raise (SystemExit 1))).

Definition old_roles : list string := ["user"; "adm"; "User"].

Definition role_deletion (t : json) (role : string) : request :=
  call t DELETE (Role role) [] NoBody.

Definition delete_role (t : json) (role : string) (_ : unit) : prog unit :=
  response <- send (role_deletion t role) ;;
  if status_code response =? 204 then
    print [Lit "   ✅ Deleted role '"; Lit role; Lit "'"]
  else if status_code response =? 404 then
    print [Lit "   ℹ️  Role '"; Lit role; Lit "' does not exist"]
  else
    print [Lit "   ⚠️  Failed to delete role '"; Lit role; Lit "': ";
           Num (status_code response)].

(** STEP 2. *)
Definition step2_delete_old_roles (t : json) : prog unit :=
  print [Lit nl; Lit "🗑️  Removing old roles..."] ;;
  for_each old_roles tt (delete_role t).

Definition correct_roles : list string :=
  ["PlatformAdmin"; "OrgAdmin"; "Owner"; "User"].

Definition role_data (role : string) : json :=
  JObj [("name", JStr role);
        ("description", JStr (role ++ " role for Spooliq SaaS platform"))].

Definition role_lookup (t : json) (role : string) : request :=
  call t GET (Role role) [] NoBody.
Definition role_creation (t : json) (role : string) : request :=
  call t POST Roles [] (Json (role_data role)).

Definition create_role (t : json) (role : string) (_ : unit) : prog unit :=
  response <- send (role_lookup t role) ;;
  if status_code response =? 200 then
    print [Lit "   ✅ Role '"; Lit role; Lit "' already exists"]
  else
    response <- send (role_creation t role) ;;
    if status_code response =? 201 then
      print [Lit "   ✅ Role '"; Lit role; Lit "' created"]
    else
      print [Lit "   ⚠️  Failed to create role '"; Lit role; Lit "': ";
             Num (status_code response)] ;;
      print [Lit "       Response: "; Text (body response)].

(** STEP 3. *)
Definition step3_create_roles (t : json) : prog unit :=
  print [Lit nl; Lit "👥 Creating correct realm roles..."] ;;
  for_each correct_roles tt (create_role t).

Definition user_lookup (t : json) : request :=
  call t GET Users [("email", ADMIN_EMAIL cfg); ("exact", "true")] NoBody.

(** STEP 4, lines 105-117: returns [user_id]. *)
Definition step4_find_user (t : json) : prog json :=
  print [Lit nl; Lit "🎭 Updating user roles for "; Lit (ADMIN_EMAIL cfg);
         Lit "..."] ;;
  response <- send (user_lookup t) ;;
  users <- response_json response ;;
  if negb (truthy users) then
    print [Lit "❌ User not found: "; Lit (ADMIN_EMAIL cfg)] ;;
    Raise (SystemExit 1)
  else
    u <- lift (index0 users) ;;
    user_id <- lift (item u "id") ;;
    print [Lit "✅ User found (ID: "; Val user_id; Lit ")"] ;;
    Ret user_id.

Definition mapping_listing (t user_id : json) : request :=
  call t GET (RoleMappings user_id) [] NoBody.
Definition mapping_deletion (t user_id current_roles : json) : request :=
  call t DELETE (RoleMappings user_id) [] (Json current_roles).
Definition mapping_creation (t user_id : json) (available_roles : list json)
  : request :=
  call t POST (RoleMappings user_id) [] (Json (JArr available_roles)).

(** STEP 4, lines 119-130. *)
Definition step4_remove_old_roles (t user_id : json) : prog unit :=
  response <- send (mapping_listing t user_id) ;;
  current_roles <- response_json response ;;
  if truthy current_roles then
    print [Lit "   Removing old roles..."] ;;
    response <- send (mapping_deletion t user_id current_roles) ;;
    if status_code response =? 204 then
      print [Lit "   ✅ Old roles removed"]
    else Ret tt
  else Ret tt.

Definition new_roles_to_assign : list string :=
  ["PlatformAdmin"; "OrgAdmin"; "Owner"; "User"].

Definition available_role (t : json) (role : string)
    (available_roles : list json) : prog (list json) :=
  response <- send (role_lookup t role) ;;
  if status_code response =? 200 then
    j <- response_json response ;;
    Ret (available_roles ++ [j])%list
  else Ret available_roles.

Fixpoint joined (l : list string) : string :=
  match l with
  | [] => ""
  | [x] => x
  | x :: rest => x ++ ", " ++ joined rest
  end.

(** STEP 4, lines 132-148. *)
Definition step4_assign_new_roles (t user_id : json) : prog unit :=
  print [Lit "   Assigning new roles..."] ;;
  available_roles <- for_each new_roles_to_assign [] (available_role t) ;;
  if truthy (JArr available_roles) then
    response <- send (mapping_creation t user_id available_roles) ;;
    if (status_code response =? 204) || (status_code response =? 409) then
      print [Lit "   ✅ Roles assigned: "; Lit (joined new_roles_to_assign)]
    else
      print [Lit "   ⚠️  Role assignment returned: "; Num (status_code response)] ;;
      print [Lit "       Response: "; Text (body response)]
  else Ret tt.

(** Lines 150-190 (the advice after the first three lines is constant
    text but for the e-mail address). *)
Definition print_summary : prog unit :=
  print [Lit nl; Lit rule] ;;
  print [Lit "✅ Keycloak roles fixed successfully!"] ;;
  print [Lit rule] ;;
  print [Lit "
📋 Updated Configuration:
   Realm: "; Lit (REALM_NAME cfg); Lit "
   User: "; Lit (ADMIN_EMAIL cfg); Lit "
   Roles: PlatformAdmin, OrgAdmin, Owner, User
"].

Definition body_of_script : prog unit :=
  print [Lit rule] ;;
  print [Lit "🔧 Fixing Keycloak Roles"] ;;
  print [Lit rule] ;;
  print [Lit "Keycloak URL: "; Lit (KEYCLOAK_URL cfg)] ;;
  print [Lit "Realm: "; Lit (REALM_NAME cfg)] ;;
  print [Lit "User: "; Lit (ADMIN_EMAIL cfg)] ;;
  print [Lit rule] ;;
  admin_token <- step1_authenticate ;;
  step2_delete_old_roles admin_token ;;
  step3_create_roles admin_token ;;
  user_id <- step4_find_user admin_token ;;
  step4_remove_old_roles admin_token user_id ;;
  step4_assign_new_roles admin_token user_id ;;
  print_summary.

(** The module body: the check of lines 21-27, then the steps. *)
Definition script : prog unit :=
  if ((ADMIN_EMAIL cfg =? "") || (ADMIN_PASSWORD cfg =? ""))%string then
    print [Lit "❌ Error: KEYCLOAK_ADMIN_EMAIL and KEYCLOAK_ADMIN_PASSWORD environment variables are required"] ;;
    print [Lit nl; Lit "Usage:"] ;;
    print [Lit "  export KEYCLOAK_ADMIN_EMAIL=your_admin@email.com"] ;;
    print [Lit "  export KEYCLOAK_ADMIN_PASSWORD=your_password"] ;;
    print [Lit "  python3 scripts/fix_keycloak_roles.py"] ;;
    Raise (SystemExit 1)
  else body_of_script.
End Script.
End FixRoles.

(* ================================================================== *)
(** ** A remote that replays recorded replies *)
(* ================================================================== *)

(** The simplest remote: it answers the n-th request with the n-th reply
    of a list (a network error once the list is used up), whatever the
    request is, and [uuid4()] draws from a list too. *)
Module Canned.
Record world : Type := mkWorld {
  replies : list reply;
  uuids : list string
}.

Definition http (w : world) (rq : request) : world * reply :=
  match replies w with
  | [] => (w, NetworkError)
  | r :: rest => (mkWorld rest (uuids w), r)
  end.

Definition entropy (w : world) : world * string :=
  match uuids w with
  | [] => (w, "")
  | u :: rest => (mkWorld (replies w) rest, u)
  end.

Definition play {A : Type} (p : prog A) (rs : list reply) (us : list string)
  : execution world A :=
  exec http entropy p (mkWorld rs us).

Definition answer (st : Z) (b : json) : reply :=
  Answer (mkResponse st None (Some b)).

Definition empty (st : Z) : reply := Answer (mkResponse st None None).
End Canned.

(* ================================================================== *)
(** ** A remote that keeps a realm *)
(* ================================================================== *)

(** The claims on the state of the remote need a remote with a state.
    This one keeps one realm behind the endpoints the scripts address and
    answers the requests the scripts send the way the admin REST API does:
    a listing leaves the realm as it is, a creation adds the resource
    under a new id unless one of that name is there (409), an update or
    an assignment of something missing is a 404, a request without the
    token the realm issued is a 401.  Lookups take the first match. *)
Module Keycloak.

Record state : Type := mkState {
  username : string;                         (* the administrator *)
  password : string;
  issued : string;                           (* the access token *)
  counter : nat;                             (* ids handed out *)
  clients : list (string * string);          (* id, clientId *)
  roles : list (string * string);            (* id, name *)
  scopes : list (string * string);           (* id, name *)
  mappers : list (string * string);          (* scope id, mapper name *)
  defaults : list (string * string);         (* client id, scope id *)
  groups : list (string * (string * json));  (* id, name, attributes *)
  users : list (list (string * json));       (* representations *)
  granted : list (string * string);          (* user id, role name *)
  members : list (string * string)           (* user id, group id *)
}.

Definition with_counter (n : nat) (s : state) : state :=
  mkState (username s) (password s) (issued s) n (clients s) (roles s)
    (scopes s) (mappers s) (defaults s) (groups s) (users s) (granted s)
    (members s).
Definition with_clients (l : list (string * string)) (s : state) : state :=
  mkState (username s) (password s) (issued s) (counter s) l (roles s)
    (scopes s) (mappers s) (defaults s) (groups s) (users s) (granted s)
    (members s).
Definition with_roles (l : list (string * string)) (s : state) : state :=
  mkState (username s) (password s) (issued s) (counter s) (clients s) l
    (scopes s) (mappers s) (defaults s) (groups s) (users s) (granted s)
    (members s).
Definition with_scopes (l : list (string * string)) (s : state) : state :=
  mkState (username s) (password s) (issued s) (counter s) (clients s)
    (roles s) l (mappers s) (defaults s) (groups s) (users s) (granted s)
    (members s).
Definition with_mappers (l : list (string * string)) (s : state) : state :=
  mkState (username s) (password s) (issued s) (counter s) (clients s)
    (roles s) (scopes s) l (defaults s) (groups s) (users s) (granted s)
    (members s).
Definition with_defaults (l : list (string * string)) (s : state) : state :=
  mkState (username s) (password s) (issued s) (counter s) (clients s)
    (roles s) (scopes s) (mappers s) l (groups s) (users s) (granted s)
    (members s).
Definition with_groups (l : list (string * (string * json))) (s : state)
  : state :=
  mkState (username s) (password s) (issued s) (counter s) (clients s)
    (roles s) (scopes s) (mappers s) (defaults s) l (users s) (granted s)
    (members s).
Definition with_users (l : list (list (string * json))) (s : state) : state :=
  mkState (username s) (password s) (issued s) (counter s) (clients s)
    (roles s) (scopes s) (mappers s) (defaults s) (groups s) l (granted s)
    (members s).
Definition with_granted (l : list (string * string)) (s : state) : state :=
  mkState (username s) (password s) (issued s) (counter s) (clients s)
    (roles s) (scopes s) (mappers s) (defaults s) (groups s) (users s) l
    (members s).
Definition with_members (l : list (string * string)) (s : state) : state :=
  mkState (username s) (password s) (issued s) (counter s) (clients s)
    (roles s) (scopes s) (mappers s) (defaults s) (groups s) (users s)
    (granted s) l.

(** The n-th id: no slash in it. *)
Fixpoint fresh (n : nat) : string :=
  match n with
  | O => "0"
  | S k => String "i" (fresh k)
  end.

(** ** Reading a request *)

Fixpoint assoc (l : list (string * string)) (k : string) : option string :=
  match l with
  | [] => None
  | (k', v) :: rest => if (k' =? k)%string then Some v else assoc rest k
  end.

(** A field of a body that holds a string. *)
Definition field (j : json) (k : string) : option string :=
  match j with
  | JObj f => match dict_get f k with Some (JStr v) => Some v | _ => None end
  | _ => None
  end.

Definition keyed {A : Type} (k : string) (x : string * A) : bool :=
  (fst x =? k)%string.
Definition named (n : string) (x : string * string) : bool :=
  (snd x =? n)%string.
Definition paired (a b : string) (x : string * string) : bool :=
  (fst x =? a)%string && (snd x =? b)%string.

Definition has_id (id : string) (f : list (string * json)) : bool :=
  match dict_get f "id" with Some v => eq_str v id | None => false end.
Definition has_email (e : string) (f : list (string * json)) : bool :=
  match dict_get f "email" with Some v => eq_str v e | None => false end.

(** ** Representations *)

Definition client_repr (c : string * string) : json :=
  JObj [("id", JStr (fst c)); ("clientId", JStr (snd c))].
Definition role_repr (r : string * string) : json :=
  JObj [("id", JStr (fst r)); ("name", JStr (snd r))].
Definition scope_repr (x : string * string) : json :=
  JObj [("id", JStr (fst x)); ("name", JStr (snd x))].
Definition mapper_repr (m : string * string) : json :=
  JObj [("name", JStr (snd m))].
Definition group_repr (g : string * (string * json)) : json :=
  JObj [("id", JStr (fst g)); ("name", JStr (fst (snd g)));
        ("attributes", snd (snd g))].

(** The id of the realm role of that name. *)
Definition role_id (s : state) (n : string) : string :=
  match filter (named n) (roles s) with
  | r :: _ => fst r
  | [] => ""
  end.
Definition grant_repr (s : state) (g : string * string) : json :=
  role_repr (role_id s (snd g), snd g).

(** ** Answers *)

Definition status (st : Z) : response := mkResponse st None None.
Definition found (j : json) : response := mkResponse 200 None (Some j).
Definition listing (l : list json) : response := found (JArr l).
(** [201 Created], with the new resource's address in [Location]. *)
Definition created (id : string) : response :=
  mkResponse 201 (Some (String "/" id)) None.

(** ** The endpoints *)

Definition token_endpoint (s : state) (rq : request) : response :=
  match verb rq, sent rq with
  | POST, Form data =>
      match assoc data "grant_type", assoc data "client_id",
            assoc data "username", assoc data "password" with
      | Some g, Some c, Some u, Some p =>
          if ((g =? "password") && (c =? "admin-cli")
              && (u =? username s) && (p =? password s))%string
          then found (JObj [("access_token", JStr (issued s))])
          else status 401
      | _, _, _, _ => status 400
      end
  | _, _ => status 405
  end.

Definition authorized (s : state) (rq : request) : bool :=
  match bearer rq with
  | Some t => eq_str t (issued s)
  | None => false
  end.

Definition get_clients (s : state) (ps : list (string * string)) : response :=
  listing (map client_repr
             match assoc ps "clientId" with
             | Some c => filter (named c) (clients s)
             | None => clients s
             end).

Definition add_client (c : string) (s : state) : state :=
  with_counter (S (counter s))
    (with_clients (clients s ++ [(fresh (counter s), c)]) s).

Definition post_client (s : state) (j : json) : state * response :=
  match field j "clientId" with
  | None => (s, status 400)
  | Some c =>
      match filter (named c) (clients s) with
      | [] => (add_client c s, created (fresh (counter s)))
      | _ :: _ => (s, status 409)
      end
  end.

Definition get_role (s : state) (n : string) : response :=
  match filter (named n) (roles s) with
  | r :: _ => found (role_repr r)
  | [] => status 404
  end.

Definition add_role (n : string) (s : state) : state :=
  with_counter (S (counter s))
    (with_roles (roles s ++ [(fresh (counter s), n)]) s).

Definition post_role (s : state) (j : json) : state * response :=
  match field j "name" with
  | None => (s, status 400)
  | Some n =>
      match filter (named n) (roles s) with
      | [] => (add_role n s, created (fresh (counter s)))
      | _ :: _ => (s, status 409)
      end
  end.

(** A role goes with the grants of it. *)
Definition remove_role (n : string) (s : state) : state :=
  with_granted (filter (fun g => negb (named n g)) (granted s))
    (with_roles (filter (fun r => negb (named n r)) (roles s)) s).

Definition delete_role (s : state) (n : string) : state * response :=
  match filter (named n) (roles s) with
  | [] => (s, status 404)
  | _ :: _ => (remove_role n s, status 204)
  end.

Definition add_scope (n : string) (s : state) : state :=
  with_counter (S (counter s))
    (with_scopes (scopes s ++ [(fresh (counter s), n)]) s).

Definition post_scope (s : state) (j : json) : state * response :=
  match field j "name" with
  | None => (s, status 400)
  | Some n =>
      match filter (named n) (scopes s) with
      | [] => (add_scope n s, created (fresh (counter s)))
      | _ :: _ => (s, status 409)
      end
  end.

Definition get_mappers (s : state) (i : string) : response :=
  match filter (keyed i) (scopes s) with
  | [] => status 404
  | _ :: _ => listing (map mapper_repr (filter (keyed i) (mappers s)))
  end.

Definition add_mapper (i n : string) (s : state) : state :=
  with_mappers (mappers s ++ [(i, n)]) s.

Definition post_mapper (s : state) (i : string) (j : json) : state * response :=
  match filter (keyed i) (scopes s) with
  | [] => (s, status 404)
  | _ :: _ =>
      match field j "name" with
      | None => (s, status 400)
      | Some n =>
          match filter (paired i n) (mappers s) with
          | [] => (add_mapper i n s, status 201)
          | _ :: _ => (s, status 409)
          end
      end
  end.

Definition add_default (c i : string) (s : state) : state :=
  match filter (paired c i) (defaults s) with
  | [] => with_defaults (defaults s ++ [(c, i)]) s
  | _ :: _ => s
  end.

Definition put_default (s : state) (c i : string) : state * response :=
  match filter (keyed c) (clients s), filter (keyed i) (scopes s) with
  | _ :: _, _ :: _ => (add_default c i s, status 204)
  | _, _ => (s, status 404)
  end.

Definition get_users (s : state) (ps : list (string * string)) : response :=
  listing (map JObj
             match assoc ps "email" with
             | Some e => filter (has_email e) (users s)
             | None => users s
             end).

Definition get_user (s : state) (u : string) : response :=
  match filter (has_id u) (users s) with
  | f :: _ => found (JObj f)
  | [] => status 404
  end.

Fixpoint replace_user (u : string) (f' : list (string * json))
    (l : list (list (string * json))) : list (list (string * json)) :=
  match l with
  | [] => []
  | f :: rest =>
      if has_id u f then f' :: rest else f :: replace_user u f' rest
  end.

(** The update keeps the id of the user. *)
Definition update_user (u : string) (f' : list (string * json)) (s : state)
  : state :=
  with_users (replace_user u (dict_set f' "id" (JStr u)) (users s)) s.

Definition put_user (s : state) (u : string) (f' : list (string * json))
  : state * response :=
  match filter (has_id u) (users s) with
  | [] => (s, status 404)
  | _ :: _ => (update_user u f' s, status 204)
  end.

Definition get_granted (s : state) (u : string) : response :=
  match filter (has_id u) (users s) with
  | [] => status 404
  | _ :: _ => listing (map (grant_repr s) (filter (keyed u) (granted s)))
  end.

(** The names of the roles of a body. *)
Definition names (l : list json) : list string :=
  flat_map (fun e => match field e "name" with
                     | Some n => [n]
                     | None => []
                     end) l.

Definition known_role (s : state) (e : json) : bool :=
  match field e "id", field e "name" with
  | Some i, Some n => existsb (paired i n) (roles s)
  | _, _ => false
  end.

Definition grant (u : string) (l : list (string * string)) (n : string)
  : list (string * string) :=
  match filter (paired u n) l with
  | [] => l ++ [(u, n)]
  | _ :: _ => l
  end.

Definition add_granted (u : string) (ns : list string) (s : state) : state :=
  with_granted (fold_left (grant u) ns (granted s)) s.

Definition post_granted (s : state) (u : string) (l : list json)
  : state * response :=
  match filter (has_id u) (users s) with
  | [] => (s, status 404)
  | _ :: _ =>
      if forallb (known_role s) l then (add_granted u (names l) s, status 204)
      else (s, status 404)
  end.

Definition remove_granted (u : string) (ns : list string) (s : state) : state :=
  with_granted
    (filter (fun g => negb (keyed u g && existsb (String.eqb (snd g)) ns))
       (granted s)) s.

Definition delete_granted (s : state) (u : string) (l : list json)
  : state * response :=
  match filter (has_id u) (users s) with
  | [] => (s, status 404)
  | _ :: _ => (remove_granted u (names l) s, status 204)
  end.

Definition group_named (n : string) (g : string * (string * json)) : bool :=
  (fst (snd g) =? n)%string.
(** [?search=]: the groups whose name has the text in it. *)
Definition group_like (x : string) (g : string * (string * json)) : bool :=
  contains x (fst (snd g)).

Definition get_groups (s : state) (ps : list (string * string)) : response :=
  listing (map group_repr
             match assoc ps "search" with
             | Some x => filter (group_like x) (groups s)
             | None => groups s
             end).

Definition attributes_of_body (j : json) : json :=
  match j with
  | JObj f => match dict_get f "attributes" with Some a => a | None => JObj [] end
  | _ => JObj []
  end.

Definition add_group (n : string) (a : json) (s : state) : state :=
  with_counter (S (counter s))
    (with_groups (groups s ++ [(fresh (counter s), (n, a))]) s).

Definition post_group (s : state) (j : json) : state * response :=
  match field j "name" with
  | None => (s, status 400)
  | Some n =>
      match filter (group_named n) (groups s) with
      | [] => (add_group n (attributes_of_body j) s, created (fresh (counter s)))
      | _ :: _ => (s, status 409)
      end
  end.

Definition add_member (u g : string) (s : state) : state :=
  match filter (paired u g) (members s) with
  | [] => with_members (members s ++ [(u, g)]) s
  | _ :: _ => s
  end.

Definition put_member (s : state) (u g : string) : state * response :=
  match filter (has_id u) (users s), filter (keyed g) (groups s) with
  | _ :: _, _ :: _ => (add_member u g s, status 204)
  | _, _ => (s, status 404)
  end.

(** The admin API, for a request that carries the token. *)
Definition admin_api (s : state) (rq : request) : state * response :=
  match route (target rq), verb rq, sent rq with
  | Clients, GET, _ => (s, get_clients s (params rq))
  | Clients, POST, Json j => post_client s j
  | Roles, GET, _ => (s, listing (map role_repr (roles s)))
  | Roles, POST, Json j => post_role s j
  | Role n, GET, _ => (s, get_role s n)
  | Role n, DELETE, _ => delete_role s n
  | ClientScopes, GET, _ => (s, listing (map scope_repr (scopes s)))
  | ClientScopes, POST, Json j => post_scope s j
  | ProtocolMappers (JStr i), GET, _ => (s, get_mappers s i)
  | ProtocolMappers (JStr i), POST, Json j => post_mapper s i j
  | DefaultClientScope (JStr c) (JStr i), PUT, _ => put_default s c i
  | Users, GET, _ => (s, get_users s (params rq))
  | User (JStr u), GET, _ => (s, get_user s u)
  | User (JStr u), PUT, Json (JObj f) => put_user s u f
  | RoleMappings (JStr u), GET, _ => (s, get_granted s u)
  | RoleMappings (JStr u), POST, Json (JArr l) => post_granted s u l
  | RoleMappings (JStr u), DELETE, Json (JArr l) => delete_granted s u l
  | Groups, GET, _ => (s, get_groups s (params rq))
  | Groups, POST, Json j => post_group s j
  | UserGroup (JStr u) (JStr g), PUT, _ => put_member s u g
  | _, _, _ => (s, status 404)
  end.

Definition serve (s : state) (rq : request) : state * response :=
  match route (target rq) with
  | TokenEndpoint => (s, token_endpoint s rq)
  | _ => if authorized s rq then admin_api s rq else (s, status 401)
  end.

(** The remote, and the identifiers the host of the script will draw. *)
Record world : Type := mkWorld {
  remote : state;
  supply : list string
}.

Definition http (w : world) (rq : request) : world * reply :=
  let (s, r) := serve (remote w) rq in (mkWorld s (supply w), Answer r).

Definition entropy (w : world) : world * string :=
  match supply w with
  | [] => (w, "")
  | u :: rest => (mkWorld (remote w) rest, u)
  end.

(** The realm-role mapping of a user: the names, in the order granted. *)
Definition mapped (s : state) (u : string) : list string :=
  map snd (filter (keyed u) (granted s)).

(** A role of that name is in the realm. *)
Definition role_exists (s : state) (n : string) : bool :=
  match filter (named n) (roles s) with
  | [] => false
  | _ :: _ => true
  end.
End Keycloak.

(* ================================================================== *)
(** * Properties *)
(* ================================================================== *)

(** ** Running a sequence *)

Definition prepend {W A : Type} (t : list entry) (r : execution W A) : execution W A :=
  mkRun (final r) (t ++ trace r) (result r).

Section ExecFacts.
Variable W : Type.
Variable http : W -> request -> W * reply.
Variable entropy : W -> W * string.
Notation exec := (exec http entropy).

Lemma prepend_nil A (r : execution W A) : prepend [] r = r.
Proof. destruct r; reflexivity. Qed.

Lemma prepend_prepend A (t u : list entry) (r : execution W A) :
  prepend t (prepend u r) = prepend (t ++ u) r.
Proof. unfold prepend; simpl. now rewrite app_assoc. Qed.

Lemma log_prepend A (e : entry) (r : execution W A) : log e r = prepend [e] r.
Proof. reflexivity. Qed.

(** [p] then [f]: the trace of [p], then what [f] does from where [p]
    left the remote; an exception of [p] ends it. *)
Lemma exec_bind A B (p : prog A) (f : A -> prog B) (w : W) :
  exec (bind p f) w =
  match result (exec p w) with
  | Done a => prepend (trace (exec p w)) (exec (f a) (final (exec p w)))
  | Raised e => mkRun (final (exec p w)) (trace (exec p w)) (Raised e)
  end.
Proof.
  revert w; induction p as [a|e|rq k IH|k IH|l k IH]; intros w; simpl.
  - now rewrite prepend_nil.
  - reflexivity.
  - destruct (http w rq) as [w' rp]. rewrite IH. unfold log, prepend; simpl.
    destruct (result (exec (k rp) w')); reflexivity.
  - destruct (entropy w) as [w' u]. rewrite IH. unfold log, prepend; simpl.
    destruct (result (exec (k u) w')); reflexivity.
  - rewrite IH. unfold log, prepend; simpl.
    destruct (result (exec k w)); reflexivity.
Qed.

Lemma exec_try A (p : prog A) (h : exn -> option (prog A)) (w : W) :
  exec (try_except p h) w =
  match result (exec p w) with
  | Done _ => exec p w
  | Raised e =>
      match h e with
      | Some q => prepend (trace (exec p w)) (exec q (final (exec p w)))
      | None => exec p w
      end
  end.
Proof.
  revert w; induction p as [a|e|rq k IH|k IH|l k IH]; intros w; simpl.
  - reflexivity.
  - destruct (h e); [now rewrite prepend_nil | reflexivity].
  - destruct (http w rq) as [w' rp]. rewrite IH. unfold log, prepend.
    destruct (exec (k rp) w') as [wf t [a|e]]; simpl; [reflexivity|].
    destruct (h e); reflexivity.
  - destruct (entropy w) as [w' u]. rewrite IH. unfold log, prepend.
    destruct (exec (k u) w') as [wf t [a|e]]; simpl; [reflexivity|].
    destruct (h e); reflexivity.
  - rewrite IH. unfold log, prepend.
    destruct (exec k w) as [wf t [a|e]]; simpl; [reflexivity|].
    destruct (h e); reflexivity.
Qed.

Lemma exec_lift A (o : outcome A) (w : W) : exec (lift o) w = mkRun w [] o.
Proof. destruct o; reflexivity. Qed.

Lemma exec_print (l : line) (w : W) :
  exec (print l) w = mkRun w [Printed l] (Done tt).
Proof. reflexivity. Qed.
End ExecFacts.

(** ** The requests a program can send, and how it can end *)

(** An exception that ends the interpreter with status 1: any but a
    [SystemExit] with another code. *)
Definition exits_with_1 (e : exn) : Prop :=
  match e with
  | SystemExit c => c = 1
  | _ => True
  end.

(** What a Python operator raises is never [SystemExit]. *)
Definition builtin {A : Type} (o : outcome A) : Prop :=
  forall e, o = Raised e -> is_Exception e = true.

Create HintDb builtin.

Lemma builtin_Done A (a : A) : builtin (Done a).
Proof. intros e; discriminate. Qed.

Lemma builtin_index0 x : builtin (index0 x).
Proof.
  intros e; destruct x as [| | |[|c s]|[|a l]|f]; simpl;
    intros [= <-]; reflexivity.
Qed.

Lemma builtin_item x k : builtin (item x k).
Proof.
  intros e; destruct x; simpl; try (intros [= <-]; reflexivity).
  destruct (dict_get fields k); intros [= <-]; reflexivity.
Qed.

Lemma builtin_get_default x k d : builtin (get_default x k d).
Proof. intros e; destruct x; simpl; intros [= <-]; reflexivity. Qed.

Lemma builtin_get x k : builtin (get x k).
Proof. apply builtin_get_default. Qed.

Lemma builtin_iter x : builtin (iter x).
Proof. intros e; destruct x; simpl; intros [= <-]; reflexivity. Qed.

Lemma builtin_has_key x k : builtin (has_key x k).
Proof. intros e; destruct x; simpl; intros [= <-]; reflexivity. Qed.

Lemma builtin_setitem x k v : builtin (setitem x k v).
Proof. intros e; destruct x; simpl; intros [= <-]; reflexivity. Qed.

Lemma builtin_lower x : builtin (lower x).
Proof. intros e; destruct x; simpl; intros [= <-]; reflexivity. Qed.

#[local] Hint Resolve builtin_Done builtin_index0 builtin_item
  builtin_get_default builtin_get builtin_iter builtin_has_key
  builtin_setitem builtin_lower : builtin.

(** Operators in sequence: a [match] that passes the exception on. *)
Lemma builtin_then A B (o : outcome A) (f : A -> outcome B) :
  builtin o -> (forall a, builtin (f a)) ->
  builtin (match o with Raised e => Raised e | Done a => f a end).
Proof.
  intros Ho Hf e; destruct o as [a|e']; [apply Hf|].
  intros [= <-]; now apply Ho.
Qed.

Lemma builtin_if A (b : bool) (o1 o2 : outcome A) :
  builtin o1 -> builtin o2 -> builtin (if b then o1 else o2).
Proof. now destruct b. Qed.

#[local] Hint Resolve builtin_then builtin_if : builtin.

Lemma builtin_setup_with_organization_id user_data uuid :
  builtin (KeycloakSetup.with_organization_id user_data uuid).
Proof.
  unfold KeycloakSetup.with_organization_id.
  repeat (apply builtin_then; [auto with builtin | intros]).
  auto with builtin.
Qed.

Lemma builtin_groups_with_organization_id user_data uuid :
  builtin (SetupGroups.with_organization_id user_data uuid).
Proof.
  unfold SetupGroups.with_organization_id.
  repeat (apply builtin_then; [auto with builtin | intros]).
  auto with builtin.
Qed.

Lemma builtin_find_role l role_name :
  builtin (KeycloakSetup.find_role l role_name).
Proof.
  induction l as [|role l IH]; simpl; [apply builtin_Done|].
  apply builtin_then; [auto with builtin | intros name].
  destruct (eq_str name role_name); [|exact IH].
  apply builtin_then; [auto with builtin | intros; apply builtin_Done].
Qed.

Lemma builtin_collect_roles all_roles names role_objects :
  builtin (KeycloakSetup.collect_roles all_roles names role_objects).
Proof.
  revert role_objects; induction names as [|n names IH]; intros ros; simpl;
    [apply builtin_Done|].
  apply builtin_then; [auto with builtin | intros l].
  intros e He. pose proof (builtin_find_role l n) as Hf.
  destruct (KeycloakSetup.find_role l n) as [[o|]|e'].
  - eapply IH; eassumption.
  - eapply IH; eassumption.
  - injection He as <-. now apply Hf.
Qed.

Lemma builtin_named_organization s : builtin (named_organization s).
Proof.
  unfold named_organization.
  apply builtin_then; [auto with builtin | intros; apply builtin_Done].
Qed.

Lemma builtin_mentions_organization m : builtin (mentions_organization m).
Proof.
  unfold mentions_organization.
  repeat (apply builtin_then; [auto with builtin | intros]).
  apply builtin_Done.
Qed.

Lemma builtin_comprehension keep l :
  (forall x, builtin (keep x)) -> builtin (comprehension keep l).
Proof.
  intros Hk; induction l as [|x l IH]; simpl; [apply builtin_Done|].
  apply builtin_then; [apply Hk | intros b].
  apply builtin_then; [exact IH | intros; apply builtin_Done].
Qed.

Lemma builtin_organization_ids l : builtin (SetupGroups.organization_ids l).
Proof.
  induction l as [|s l IH]; simpl; [apply builtin_Done|].
  intros e He. pose proof (builtin_named_organization s) as Hn.
  destruct (named_organization s) as [[|]|e'].
  - revert e He. apply builtin_then; [auto with builtin | intros i].
    apply builtin_then; [exact IH | intros; apply builtin_Done].
  - now apply IH.
  - injection He as <-. now apply Hn.
Qed.

#[local] Hint Resolve builtin_setup_with_organization_id
  builtin_groups_with_organization_id builtin_find_role builtin_collect_roles
  builtin_named_organization builtin_mentions_organization
  builtin_comprehension builtin_organization_ids : builtin.

(** [sends P p]: whatever the remote answers, [p] sends requests of [P]
    only, and an exception that leaves it ends the interpreter with
    status 1. *)
Inductive sends {A : Type} (P : request -> Prop) : prog A -> Prop :=
| sends_Ret a : sends P (Ret a)
| sends_Raise e : exits_with_1 e -> sends P (Raise e)
| sends_Call rq k : P rq -> (forall rp, sends P (k rp)) -> sends P (Call rq k)
| sends_Uuid4 k : (forall u, sends P (k u)) -> sends P (Uuid4 k)
| sends_Echo l k : sends P k -> sends P (Echo l k).

Create HintDb sends.
#[local] Hint Constructors sends : sends.

Lemma sends_bind A B (P : request -> Prop) (p : prog A) (f : A -> prog B) :
  sends P p -> (forall a, sends P (f a)) -> sends P (bind p f).
Proof. induction 1; intros Hf; simpl; auto with sends. Qed.

Lemma sends_try A (P : request -> Prop) (p : prog A) h :
  sends P p -> (forall e q, h e = Some q -> sends P q) ->
  sends P (try_except p h).
Proof.
  induction 1; intros Hh; simpl; auto with sends.
  destruct (h e) eqn:E; [eapply Hh; eassumption | now constructor].
Qed.

Lemma sends_lift A (P : request -> Prop) (o : outcome A) :
  builtin o -> sends P (lift o).
Proof.
  intros Ho; destruct o as [a|e]; constructor.
  specialize (Ho e eq_refl). now destruct e.
Qed.

Lemma sends_print (P : request -> Prop) l : sends P (print l).
Proof. repeat constructor. Qed.

Lemma sends_send (P : request -> Prop) rq : P rq -> sends P (send rq).
Proof. intros H; constructor; [exact H | intros [|r]; now constructor]. Qed.

Lemma sends_raise_for_status (P : request -> Prop) r :
  sends P (raise_for_status r).
Proof.
  unfold raise_for_status; destruct (is_error_status _); now constructor.
Qed.

Lemma sends_response_json (P : request -> Prop) r : sends P (response_json r).
Proof. unfold response_json; destruct (body r); now constructor. Qed.

Lemma sends_for_each A S (P : request -> Prop) (l : list A) (s : S) body :
  (forall x s, sends P (body x s)) -> sends P (for_each l s body).
Proof.
  intros Hb; revert s; induction l as [|x l IH]; intros s; simpl.
  - constructor.
  - apply sends_bind; auto.
Qed.

Lemma sends_except_RequestException A (P : request -> Prop) (h : exn -> prog A) :
  (forall e, sends P (h e)) ->
  forall e q, except_RequestException h e = Some q -> sends P q.
Proof.
  unfold except_RequestException; intros H e q.
  destruct (is_RequestException e); [intros [= <-]; apply H | discriminate].
Qed.

Lemma sends_except_Exception A (P : request -> Prop) (h : exn -> prog A) :
  (forall e, sends P (h e)) ->
  forall e q, except_Exception h e = Some q -> sends P q.
Proof.
  unfold except_Exception; intros H e q.
  destruct (is_Exception e); [intros [= <-]; apply H | discriminate].
Qed.

Lemma sends_except_all A (P : request -> Prop) (h : prog A) :
  sends P h -> forall e q, except_all h e = Some q -> sends P q.
Proof. unfold except_all; intros H e q [= <-]; exact H. Qed.

Lemma sends_weaken A (P Q : request -> Prop) (p : prog A) :
  (forall rq, P rq -> Q rq) -> sends P p -> sends Q p.
Proof. intros HPQ; induction 1; constructor; auto. Qed.

(** One rule per shape a script is written in. *)
Ltac sends_step :=
  lazymatch goal with
  | |- sends _ (bind _ _) => apply sends_bind; [|intros]
  | |- sends _ (try_except _ _) => apply sends_try; [|]
  | |- forall e q, except_RequestException _ e = Some q -> _ =>
      apply sends_except_RequestException; intros
  | |- forall e q, except_Exception _ e = Some q -> _ =>
      apply sends_except_Exception; intros
  | |- forall e q, except_all _ e = Some q -> _ => apply sends_except_all
  | |- sends _ (lift _) => apply sends_lift; auto with builtin
  | |- sends _ (print _) => apply sends_print
  | |- sends _ (send _) => apply sends_send
  | |- sends _ (raise_for_status _) => apply sends_raise_for_status
  | |- sends _ (response_json _) => apply sends_response_json
  | |- sends _ (for_each _ _ _) => apply sends_for_each; intros
  | |- sends _ (Ret _) => constructor
  | |- sends _ (Raise _) => constructor; simpl; auto
  | |- sends _ (Echo _ _) => apply sends_Echo
  | |- sends _ (Call _ _) => apply sends_Call; [|intros]
  | |- sends _ (Uuid4 _) => apply sends_Uuid4; intros
  | |- sends _ (if ?c then _ else _) => destruct c
  | |- sends _ (match ?x with _ => _ end) => destruct x
  end.

Section SendsFacts.
Variable W : Type.
Variable http : W -> request -> W * reply.
Variable entropy : W -> W * string.
Notation exec := (exec http entropy).

Lemma sends_exec A (P : request -> Prop) (p : prog A) :
  sends P p -> forall w, Forall P (requests (trace (exec p w))).
Proof.
  induction 1 as [a|e He|rq k HP Hk IH|k Hk IH|l k Hk IH]; intros w; simpl.
  - constructor.
  - constructor.
  - destruct (http w rq) as [w' rp]; simpl. constructor; auto.
  - destruct (entropy w) as [w' u]; simpl. auto.
  - auto.
Qed.

Lemma sends_exit A (P : request -> Prop) (p : prog A) :
  sends P p -> forall w e,
  result (exec p w) = Raised e -> exits_with_1 e.
Proof.
  induction 1 as [a|e' He|rq k HP Hk IH|k Hk IH|l k Hk IH]; intros w e; simpl.
  - discriminate.
  - now intros [= <-].
  - destruct (http w rq) as [w' rp]; simpl. apply IH.
  - destruct (entropy w) as [w' u]; simpl. apply IH.
  - apply IH.
Qed.
End SendsFacts.

(** ** The requests of each step of [KeycloakSetup] *)

Definition route_of (rq : request) : path := route (target rq).

(** The routes below [/users]. *)
Definition about_user (rq : request) : bool :=
  match route_of rq with
  | Users | User _ | RoleMappings _ | UserGroup _ _ => true
  | _ => false
  end.

Definition is_get (rq : request) : bool :=
  match verb rq with GET => true | _ => false end.

Definition is_post (rq : request) : bool :=
  match verb rq with POST => true | _ => false end.

(** [GET .../users?email=...]. *)
Definition is_user_lookup (rq : request) : bool :=
  is_get rq && match route_of rq with Users => true | _ => false end.

(** A request that changes something below [/users], or creates a user:
    the attribute update, the role-mapping assignment, a group
    membership, [POST .../users]. *)
Definition writes_user (rq : request) : bool :=
  negb (is_get rq) && about_user rq.

Section StepRequests.
Variable cfg : config.
Import KeycloakSetup.

Lemma sends_print_response_of P e : sends P (print_response_of e).
Proof. unfold print_response_of; repeat sends_step. Qed.

Lemma sends_scan_scopes P v l : sends P (scan_scopes v l).
Proof. induction l as [|x l IH]; simpl; repeat sends_step; exact IH. Qed.

Lemma sends_scan_mappers P l : sends P (scan_mappers l).
Proof. induction l as [|x l IH]; simpl; repeat sends_step; exact IH. Qed.

Lemma get_admin_token_sends self :
  sends (fun rq => about_user rq = false) (get_admin_token cfg self).
Proof.
  unfold get_admin_token; repeat sends_step;
    first [reflexivity | apply sends_print_response_of].
Qed.

Lemma create_client_sends self :
  sends (fun rq => about_user rq = false) (create_client self).
Proof.
  unfold create_client; repeat sends_step;
    first [reflexivity | apply sends_print_response_of].
Qed.

Lemma create_roles_sends self :
  sends (fun rq => about_user rq = false) (create_roles self).
Proof.
  unfold create_roles, create_role; repeat sends_step; reflexivity.
Qed.

Lemma create_client_scope_sends self :
  sends (fun rq => about_user rq = false) (create_client_scope self).
Proof.
  unfold create_client_scope; repeat sends_step;
    first [reflexivity | apply sends_scan_scopes].
Qed.

Lemma create_protocol_mapper_sends self scope_id :
  sends (fun rq => about_user rq = false)
    (create_protocol_mapper self scope_id).
Proof.
  unfold create_protocol_mapper; repeat sends_step;
    first [reflexivity | apply sends_scan_mappers].
Qed.

Lemma assign_scope_to_client_sends self client_uuid scope_id :
  sends (fun rq => about_user rq = false)
    (assign_scope_to_client self client_uuid scope_id).
Proof. unfold assign_scope_to_client; repeat sends_step; reflexivity. Qed.

Lemma find_user_by_email_sends self email :
  sends (fun rq => writes_user rq = false) (find_user_by_email self email).
Proof. unfold find_user_by_email; repeat sends_step; reflexivity. Qed.

Lemma set_user_attribute_sends self user_id :
  sends (fun rq => is_user_lookup rq = false) (set_user_attribute self user_id).
Proof.
  unfold set_user_attribute; repeat sends_step;
    first [reflexivity | apply sends_print_response_of].
Qed.

Lemma assign_roles_to_user_sends self user_id :
  sends (fun rq => is_user_lookup rq = false)
    (assign_roles_to_user self user_id).
Proof.
  unfold assign_roles_to_user; repeat sends_step;
    first [reflexivity | apply sends_print_response_of].
Qed.

Lemma print_summary_sends P self : sends P (print_summary cfg self).
Proof. unfold print_summary; repeat sends_step. Qed.
End StepRequests.

(** ** C6: a missing user ends the run *)

(** The lookup came back with no user: a body that decodes to an empty
    list (or to any other false value). *)
Definition no_user (rp : reply) : Prop :=
  match rp with
  | Answer r => exists j, body r = Some j /\ truthy j = false
  | NetworkError => False
  end.

Lemma In_requests (t : list entry) rq rp :
  In (Sent rq rp) t -> In rq (requests t).
Proof.
  unfold requests; intros H; apply in_flat_map.
  exists (Sent rq rp); split; [exact H | now left].
Qed.

Lemma requests_app (t u : list entry) :
  requests (t ++ u) = (requests t ++ requests u)%list.
Proof. unfold requests; apply flat_map_app. Qed.

Lemma about_user_lookup rq : about_user rq = false -> is_user_lookup rq = false.
Proof.
  unfold about_user, is_user_lookup; destruct (route_of rq); intros H;
    try discriminate; now rewrite andb_false_r.
Qed.

Lemma about_user_writes rq : about_user rq = false -> writes_user rq = false.
Proof. unfold writes_user; intros ->; now rewrite andb_false_r. Qed.

Section MissingUser.
Variable W : Type.
Variable http : W -> request -> W * reply.
Variable entropy : W -> W * string.
Notation exec := (exec http entropy).

(** In a trace whose requests are no user lookups, no entry is one. *)
Lemma no_lookup_in (t : list entry) rq rp :
  Forall (fun rq => is_user_lookup rq = false) (requests t) ->
  In (Sent rq rp) t -> is_user_lookup rq = true -> False.
Proof.
  intros F Hin Hl. apply In_requests in Hin.
  rewrite Forall_forall in F. specialize (F _ Hin). congruence.
Qed.

Lemma no_lookup_in_early (t : list entry) rq rp :
  Forall (fun rq => about_user rq = false) (requests t) ->
  In (Sent rq rp) t -> is_user_lookup rq = true -> False.
Proof.
  intros F; apply no_lookup_in.
  eapply Forall_impl; [|exact F]. apply about_user_lookup.
Qed.

Lemma early_writes (t : list entry) :
  Forall (fun rq => about_user rq = false) (requests t) ->
  Forall (fun rq => writes_user rq = false) (requests t).
Proof. apply Forall_impl, about_user_writes. Qed.

(** [find_user_by_email] returns an id that is true only when the
    lookup brought a user. *)
Lemma find_user_by_email_found self email w w' t user_id :
  exec (KeycloakSetup.find_user_by_email self email) w
    = mkRun w' t (Done user_id) ->
  truthy user_id = true ->
  forall rq rp, In (Sent rq rp) t -> ~ no_user rp.
Proof.
  unfold KeycloakSetup.find_user_by_email; simpl.
  destruct (http w (KeycloakSetup.user_lookup self email)) as [w1 [|r]]; simpl.
  - intros [= <- <- <-]; discriminate.
  - unfold raise_for_status, response_json.
    destruct (is_error_status (status_code r)); simpl.
    + intros [= <- <- <-]; discriminate.
    + destruct (body r) as [j|] eqn:Eb; simpl.
      * destruct (truthy j) eqn:Et; simpl.
        -- destruct (index0 j) as [u|e]; simpl;
             [destruct (item u "id") as [i|e]; simpl|].
           ++ intros [= <- <- <-] _ rq rp [H|[H|[H|[]]]]; try discriminate.
              injection H as <- <-. intros (j' & Hj & Hf). congruence.
           ++ destruct e; simpl; intros [= <- <- <-]; discriminate.
           ++ destruct e; simpl; intros [= <- <- <-]; discriminate.
        -- intros [= <- <- <-]; discriminate.
      * intros [= <- <- <-]; discriminate.
Qed.
End MissingUser.

(** One step of a sequence: split the run at the step, and record what
    requests the step can have sent ([H] is its [sends] lemma). *)
Tactic Notation "run_step" constr(H) "as" ident(x) :=
  rewrite exec_bind;
  lazymatch goal with
  | |- context [result (exec ?http ?entropy ?p ?w)] =>
      let F := fresh "F" in
      let X := fresh "X" in
      let E := fresh "E" in
      pose proof (sends_exec _ http entropy _ _ p H w) as F;
      pose proof (sends_exit _ http entropy _ _ p H w) as X;
      destruct (exec http entropy p w) as [? ? [x|?]] eqn:E;
      cbn [final trace result] in F, X |- *;
      [clear X | specialize (X _ eq_refl)]
  end.

(** The same for the last statement of a sequence. *)
Tactic Notation "last_step" constr(H) :=
  lazymatch goal with
  | |- context [exec ?http ?entropy ?p ?w] =>
      let F := fresh "F" in
      let X := fresh "X" in
      let E := fresh "E" in
      pose proof (sends_exec _ http entropy _ _ p H w) as F;
      pose proof (sends_exit _ http entropy _ _ p H w) as X;
      destruct (exec http entropy p w) as [? ? [?|?]] eqn:E;
      cbn [final trace result] in F, X |- *;
      [clear X | specialize (X _ eq_refl)]
  end.

Lemma exits_with_1_status A (e : exn) :
  exits_with_1 e -> exit_status (@Raised A e) = 1.
Proof. destruct e; simpl; auto. Qed.

Section TraceFacts.
Variable W : Type.

Lemma trace_log A (e : entry) (r : execution W A) :
  trace (log e r) = e :: trace r.
Proof. reflexivity. Qed.

Lemma result_log A (e : entry) (r : execution W A) :
  result (log e r) = result r.
Proof. reflexivity. Qed.

Lemma trace_prepend A (t : list entry) (r : execution W A) :
  trace (prepend t r) = (t ++ trace r)%list.
Proof. reflexivity. Qed.

Lemma result_prepend A (t : list entry) (r : execution W A) :
  result (prepend t r) = result r.
Proof. reflexivity. Qed.

Lemma final_log A (e : entry) (r : execution W A) :
  final (log e r) = final r.
Proof. reflexivity. Qed.

Lemma final_prepend A (t : list entry) (r : execution W A) :
  final (prepend t r) = final r.
Proof. reflexivity. Qed.
End TraceFacts.

Lemma requests_Printed l t : requests (Printed l :: t) = requests t.
Proof. reflexivity. Qed.

Lemma requests_Minted u t : requests (Minted u :: t) = requests t.
Proof. reflexivity. Qed.

Lemma requests_Sent rq rp t : requests (Sent rq rp :: t) = rq :: requests t.
Proof. reflexivity. Qed.

Lemma requests_nil : requests [] = [].
Proof. reflexivity. Qed.

#[local] Hint Rewrite trace_log result_log trace_prepend result_prepend
  final_log final_prepend requests_Printed requests_Minted requests_Sent
  requests_nil requests_app : trace.

(** Where an entry of a run can be: unfold the run's trace, then go
    through its pieces. *)
Ltac split_in H :=
  repeat
    lazymatch type of H with
    | False => contradiction
    | In _ [] => contradiction
    | In _ (_ ++ _)%list => apply in_app_or in H; destruct H as [H|H]
    | In _ (_ :: _) => destruct H as [H|H]; [try discriminate H|]
    | _ \/ _ => destruct H as [H|H]; [try discriminate H|]
    end.

Section MissingUserRun.
Variable W : Type.
Variable http : W -> request -> W * reply.
Variable entropy : W -> W * string.
Variable cfg : config.
Notation exec := (exec http entropy).
Import KeycloakSetup.

(** A run in which a user lookup that found nobody is followed by no
    write below [/users], and that does not return [True]. *)
Definition guarded (r : execution W bool) : Prop :=
  forall rq rp,
    In (Sent rq rp) (trace r) -> is_user_lookup rq = true -> no_user rp ->
    Forall (fun rq => writes_user rq = false) (requests (trace r))
    /\ result r <> Done true.

Local Opaque get_admin_token create_client create_roles create_client_scope
  create_protocol_mapper assign_scope_to_client find_user_by_email
  set_user_attribute assign_roles_to_user print_summary.

(** The run stopped before the lookup, or at it. *)
Ltac stopped :=
  intros ? ? _ _ _; autorewrite with trace; cbn [exec trace result];
  split; [| discriminate];
  autorewrite with trace; rewrite ?Forall_app; repeat split;
  first [ apply Forall_nil | apply early_writes; assumption | assumption ].

(** The run went past the lookup: the lookup brought a user. *)
Ltac found :=
  intros ? ? Hin Hl Hn; exfalso;
  autorewrite with trace in Hin; cbn [exec trace] in Hin;
  split_in Hin;
  first [ eapply no_lookup_in_early; [|exact Hin|exact Hl]; assumption
        | eapply no_lookup_in; [|exact Hin|exact Hl]; assumption
        | eapply find_user_by_email_found; [| |exact Hin|exact Hn];
          eassumption ].

Lemma run_guarded self w : guarded (exec (run cfg self) w).
Proof.
  unfold run. cbn [bind print exec].
  run_step (get_admin_token_sends cfg self) as a; [|stopped].
  destruct a as [[|] self1]; cbn [negb]; [|stopped].
  run_step (create_client_sends self1) as client_uuid; [|stopped].
  destruct (truthy client_uuid); cbn [negb]; [|stopped].
  run_step (create_roles_sends self1) as created; [|stopped].
  destruct created; cbn [negb]; [|stopped].
  run_step (create_client_scope_sends self1) as scope_id; [|stopped].
  destruct (truthy scope_id); cbn [negb]; [|stopped].
  run_step (create_protocol_mapper_sends self1 scope_id) as mapped;
    [|stopped].
  destruct mapped; cbn [negb]; [|stopped].
  run_step (assign_scope_to_client_sends self1 client_uuid scope_id)
    as assigned; [|stopped].
  destruct assigned; cbn [negb]; [|stopped].
  run_step (find_user_by_email_sends self1 (ADMIN_EMAIL cfg)) as user_id;
    [|stopped].
  destruct (truthy user_id) eqn:Huser; cbn [negb]; [|stopped].
  run_step (set_user_attribute_sends self1 user_id) as attributed; [|found].
  destruct attributed; cbn [negb]; [|found].
  run_step (assign_roles_to_user_sends self1 user_id) as granted; [|found].
  destruct granted; cbn [negb]; [|found].
  run_step (print_summary_sends cfg (fun rq => is_user_lookup rq = false) self1)
    as u; found.
Qed.
End MissingUserRun.

Section MissingUserScript.
Variable W : Type.
Variable http : W -> request -> W * reply.
Variable entropy : W -> W * string.
Variable cfg : config.
Notation exec := (exec http entropy).
Import KeycloakSetup.

Lemma run_sends self : sends (fun _ => True) (run cfg self).
Proof.
  unfold run; repeat sends_step;
    (eapply sends_weaken; [intros ? _; exact I|]);
    first [ apply get_admin_token_sends | apply create_client_sends
          | apply create_roles_sends | apply create_client_scope_sends
          | apply create_protocol_mapper_sends
          | apply assign_scope_to_client_sends
          | apply find_user_by_email_sends | apply set_user_attribute_sends
          | apply assign_roles_to_user_sends
          | apply (print_summary_sends cfg (fun _ => True)) ].
Qed.

(** What [main] makes of [run]: the draw of the identifier, the trace
    of [run], at most one more line; status 0 exactly when [run]
    returned [True]. *)
Lemma exec_main w :
  let (w0, u) := entropy w in
  let self := mkSelf (KEYCLOAK_URL cfg) (REALM_NAME cfg) None u in
  let r := exec (run cfg self) w0 in
  (exists tail,
      trace (exec (main cfg) w) = (Minted u :: trace r ++ tail)%list
      /\ (tail = [] \/ exists l, tail = [Printed l]))
  /\ exit_status (result (exec (main cfg) w))
     = match result r with Done true => 0 | _ => 1 end.
Proof.
  unfold main, init, uuid4. cbn [bind exec].
  destruct (entropy w) as [w0 u]. cbv zeta.
  set (self := mkSelf (KEYCLOAK_URL cfg) (REALM_NAME cfg) None u).
  rewrite exec_try, exec_bind.
  pose proof (sends_exit _ http entropy _ _ _ (run_sends self) w0) as Hx.
  destruct (exec (run cfg self) w0) as [wf t [b|e]]; cbn.
  - split; [exists []; split; [reflexivity | now left] | now destruct b].
  - specialize (Hx e eq_refl).
    unfold except_Exception. destruct e; cbn;
      try (split; [eexists; split; [reflexivity | right; eexists; reflexivity]
                  | reflexivity]).
    split; [exists []; rewrite app_nil_r; split; [reflexivity | now left]
           | exact Hx].
Qed.
End MissingUserScript.

(** ** The requests of each step of [SetupGroups] *)

Section GroupsRequests.
Variable pw : string.
Import SetupGroups.

Lemma mint_sends P : sends P mint.
Proof. unfold mint, uuid4; cbn [bind]; repeat sends_step. Qed.

Lemma step1_sends :
  sends (fun rq => about_user rq = false) (step1_authenticate pw).
Proof. unfold step1_authenticate; repeat sends_step; reflexivity. Qed.

Lemma step2_sends t : sends (fun rq => about_user rq = false) (step2_client t).
Proof. unfold step2_client; repeat sends_step; reflexivity. Qed.

Lemma step3_sends t : sends (fun rq => about_user rq = false) (step3_roles t).
Proof. unfold step3_roles, create_role; repeat sends_step; reflexivity. Qed.

Lemma step4_sends t : sends (fun rq => about_user rq = false) (step4_scope t).
Proof. unfold step4_scope; repeat sends_step; reflexivity. Qed.

Lemma step5_sends t scope_id :
  sends (fun rq => about_user rq = false) (step5_mappers t scope_id).
Proof.
  unfold step5_mappers, step5_group_mapper, step5_custom_mapper;
    repeat sends_step; reflexivity.
Qed.

Lemma step6_sends t client_id scope_id :
  sends (fun rq => about_user rq = false)
    (step6_assign_scope t client_id scope_id).
Proof. unfold step6_assign_scope; repeat sends_step; reflexivity. Qed.

Lemma step7_sends t uuid :
  sends (fun rq => about_user rq = false) (step7_group t uuid).
Proof. unfold step7_group; repeat sends_step; reflexivity. Qed.

Lemma step8_sends t :
  sends (fun rq => writes_user rq = false) (step8_find_user t).
Proof. unfold step8_find_user; repeat sends_step; reflexivity. Qed.

Lemma step9_join_sends t user_id group_id :
  sends (fun rq => is_user_lookup rq = false)
    (step9_join_group t user_id group_id).
Proof. unfold step9_join_group; repeat sends_step; reflexivity. Qed.

Lemma step9_attribute_sends t user_id uuid :
  sends (fun rq => is_user_lookup rq = false)
    (step9_set_attribute t user_id uuid).
Proof. unfold step9_set_attribute; repeat sends_step; reflexivity. Qed.

Lemma step10_sends t user_id :
  sends (fun rq => is_user_lookup rq = false) (step10_assign_roles t user_id).
Proof.
  unfold step10_assign_roles, available_role; repeat sends_step; reflexivity.
Qed.

Lemma groups_summary_sends P uuid : sends P (print_summary uuid).
Proof. unfold print_summary; repeat sends_step. Qed.
End GroupsRequests.

Section MissingUserGroups.
Variable W : Type.
Variable http : W -> request -> W * reply.
Variable entropy : W -> W * string.
Variable pw : string.
Notation exec := (exec http entropy).
Import SetupGroups.

(** STEP 8 goes on only when the lookup brought a user. *)
Lemma step8_found t w w' tr user_id :
  exec (step8_find_user t) w = mkRun w' tr (Done user_id) ->
  forall rq rp, In (Sent rq rp) tr -> ~ no_user rp.
Proof.
  unfold step8_find_user; simpl.
  destruct (http w (user_lookup t)) as [w1 [|r]]; simpl; [discriminate|].
  unfold response_json.
  destruct (body r) as [j|] eqn:Eb; simpl; [|discriminate].
  destruct (truthy j) eqn:Et; simpl; [|discriminate].
  destruct (index0 j) as [u|e]; simpl; [|discriminate].
  destruct (item u "id") as [i|e]; simpl; [|discriminate].
  intros [= <- <- <-] rq rp [H|[H|[H|[]]]]; try discriminate.
  injection H as <- <-. intros (j' & Hj & Hf). congruence.
Qed.

Definition guarded_script (r : execution W unit) : Prop :=
  forall rq rp,
    In (Sent rq rp) (trace r) -> is_user_lookup rq = true -> no_user rp ->
    Forall (fun rq => writes_user rq = false) (requests (trace r))
    /\ exit_status (result r) = 1.

Local Opaque mint step1_authenticate step2_client step3_roles step4_scope
  step5_mappers step6_assign_scope step7_group step8_find_user
  step9_join_group step9_set_attribute step10_assign_roles print_summary.

Ltac stopped :=
  intros ? ? _ _ _; autorewrite with trace; cbn [exec trace result];
  split; [| now apply exits_with_1_status];
  autorewrite with trace; rewrite ?Forall_app; repeat split;
  first [ apply Forall_nil | apply early_writes; assumption | assumption ].

Ltac found :=
  intros ? ? Hin Hl Hn; exfalso;
  autorewrite with trace in Hin; cbn [exec trace] in Hin;
  split_in Hin;
  first [ eapply no_lookup_in_early; [|exact Hin|exact Hl]; assumption
        | eapply no_lookup_in; [|exact Hin|exact Hl]; assumption
        | eapply step8_found; [|exact Hin|exact Hn]; eassumption ].

Lemma script_guarded w : guarded_script (exec (script pw) w).
Proof.
  unfold script.
  run_step (mint_sends (fun rq => about_user rq = false)) as uuid; [|stopped].
  run_step (step1_sends pw) as t; [|stopped].
  run_step (step2_sends t) as client_id; [|stopped].
  run_step (step3_sends t) as u3; [|stopped].
  run_step (step4_sends t) as scope_id; [|stopped].
  run_step (step5_sends t scope_id) as u5; [|stopped].
  run_step (step6_sends t client_id scope_id) as u6; [|stopped].
  run_step (step7_sends t uuid) as group_id; [|stopped].
  run_step (step8_sends t) as user_id; [|stopped].
  run_step (step9_join_sends t user_id group_id) as u9; [|found].
  run_step (step9_attribute_sends t user_id uuid) as u9'; [|found].
  run_step (step10_sends t user_id) as u10; [|found].
  last_step (groups_summary_sends (fun rq => is_user_lookup rq = false) uuid);
    found.
Qed.
End MissingUserGroups.

(** C6.  In every run of either set-up script in which the lookup of the
    user by e-mail ([GET .../users?email=...&exact=true]) comes back with
    no user, no request that writes below [/users] is ever sent: no
    attribute update ([PUT .../users/{id}]), no role-mapping assignment
    ([POST .../users/{id}/role-mappings/realm]), no creation of a user
    ([POST .../users]), no group membership; and the process exits with
    status 1. *)
Theorem missing_user_guard :
  forall (W : Type) (http : W -> request -> W * reply)
         (entropy : W -> W * string) (cfg : config) (pw : string) (w : W)
         (rq : request) (rp : reply),
    is_user_lookup rq = true -> no_user rp ->
    (In (Sent rq rp) (trace (exec http entropy (KeycloakSetup.script cfg) w)) ->
     Forall (fun rq => writes_user rq = false)
       (requests (trace (exec http entropy (KeycloakSetup.script cfg) w)))
     /\ exit_status (result (exec http entropy (KeycloakSetup.script cfg) w)) = 1)
    /\
    (In (Sent rq rp) (trace (exec http entropy (SetupGroups.script pw) w)) ->
     Forall (fun rq => writes_user rq = false)
       (requests (trace (exec http entropy (SetupGroups.script pw) w)))
     /\ exit_status (result (exec http entropy (SetupGroups.script pw) w)) = 1).
Proof.
  intros W http entropy cfg pw w rq rp Hl Hn; split.
  - unfold KeycloakSetup.script.
    destruct ((ADMIN_EMAIL cfg =? "") || (ADMIN_PASSWORD cfg =? ""))%string.
    + simpl. intros H.
      repeat (destruct H as [H|H]; [discriminate H|]). contradiction.
    + pose proof (exec_main W http entropy cfg w) as Hm.
      destruct (entropy w) as [w0 u]. cbv zeta in Hm.
      destruct Hm as [(tail & Ht & Htail) Hx].
      rewrite Ht, Hx. intros Hin.
      assert (Hr : In (Sent rq rp)
                     (trace (exec http entropy
                        (KeycloakSetup.run cfg
                           (KeycloakSetup.mkSelf (KEYCLOAK_URL cfg)
                              (REALM_NAME cfg) None u)) w0))).
      { destruct Hin as [Hin|Hin]; [discriminate|].
        apply in_app_or in Hin. destruct Hin as [Hin|Hin]; [exact Hin|].
        destruct Htail as [->|[l ->]]; split_in Hin. }
      destruct (run_guarded W http entropy cfg _ w0 rq rp Hr Hl Hn) as [Hf Hres].
      split.
      * autorewrite with trace. rewrite Forall_app. split; [exact Hf|].
        destruct Htail as [->|[l ->]]; constructor.
      * match goal with
        | |- context [result ?r] => destruct (result r) as [[|]|e]
        end; congruence.
  - intros Hin. now apply (script_guarded W http entropy pw w rq rp).
Qed.

Definition demo_config : config :=
  mkConfig "https://keycloak.example" "spooliq" "admin@example.com" "secret".

(** A realm with everything in place but the user. *)
Definition replies_without_user : list reply :=
  [ Canned.answer 200 (JObj [("access_token", JStr "tok")]);
    Canned.answer 200 (JArr [JObj [("id", JStr "c-1")]]);
    Canned.answer 200 (JObj [("name", JStr "PlatformAdmin")]);
    Canned.answer 200 (JObj [("name", JStr "OrgAdmin")]);
    Canned.answer 200 (JObj [("name", JStr "User")]);
    Canned.answer 200
      (JArr [JObj [("id", JStr "s-1"); ("name", JStr "organization")]]);
    Canned.answer 200 (JArr [JObj [("name", JStr "organization-id-mapper")]]);
    Canned.empty 204;
    Canned.answer 200 (JArr []) ].

Lemma missing_user_guard_witness :
  Forall (fun rq => writes_user rq = false)
    (requests (trace (Canned.play (KeycloakSetup.script demo_config)
                        replies_without_user ["uuid-1"])))
  /\ exit_status (result (Canned.play (KeycloakSetup.script demo_config)
                            replies_without_user ["uuid-1"])) = 1.
Proof.
  refine (proj1 (missing_user_guard Canned.world Canned.http Canned.entropy
                   demo_config "secret"
                   (Canned.mkWorld replies_without_user ["uuid-1"])
                   (mkRequest GET
                      (mkUrl "https://keycloak.example" "spooliq" Users)
                      [("email", "admin@example.com"); ("exact", "true")]
                      NoBody (Some (JStr "tok")))
                   (Canned.answer 200 (JArr [])) eq_refl _) _).
  - exists (JArr []); split; reflexivity.
  - vm_compute. repeat (first [left; reflexivity | right]).
Defined.

(** ** C5: a failed authentication ends the run *)

(** The requests of a trace with their replies. *)
Definition exchanges (t : list entry) : list (request * reply) :=
  flat_map (fun e => match e with Sent rq rp => [(rq, rp)] | _ => [] end) t.

Lemma exchanges_app (t u : list entry) :
  exchanges (t ++ u) = (exchanges t ++ exchanges u)%list.
Proof. unfold exchanges; apply flat_map_app. Qed.

Lemma exchanges_Printed l t : exchanges (Printed l :: t) = exchanges t.
Proof. reflexivity. Qed.

Lemma exchanges_Minted u t : exchanges (Minted u :: t) = exchanges t.
Proof. reflexivity. Qed.

Lemma exchanges_Sent rq rp t :
  exchanges (Sent rq rp :: t) = (rq, rp) :: exchanges t.
Proof. reflexivity. Qed.

Lemma exchanges_nil : exchanges [] = [].
Proof. reflexivity. Qed.

#[local] Hint Rewrite exchanges_app exchanges_Printed exchanges_Minted
  exchanges_Sent exchanges_nil : trace.

(** The token request failed, as the specification has it: a network
    error, or a status that is not 2xx. *)
Definition not_2xx (rp : reply) : Prop :=
  match rp with
  | NetworkError => True
  | Answer r => ~ (200 <= status_code r < 300)
  end.

(** The token request failed, as [get_admin_token] has it: a network
    error, a status of 400..599, or a body that holds no
    ["access_token"]. *)
Definition rejected (rp : reply) : Prop :=
  match rp with
  | NetworkError => True
  | Answer r =>
      is_error_status (status_code r) = true
      \/ match body r with
         | None => True
         | Some j => forall tok, item j "access_token" <> Done tok
         end
  end.

(** The claim as the specification states it. *)
Definition C5_as_stated : Prop :=
  forall (W : Type) (http : W -> request -> W * reply)
         (entropy : W -> W * string) (cfg : config) (w : W) rq rp rest,
    exchanges (trace (exec http entropy (KeycloakSetup.script cfg) w))
      = (rq, rp) :: rest ->
    not_2xx rp ->
    rest = []
    /\ exit_status (result (exec http entropy (KeycloakSetup.script cfg) w)) <> 0.

Lemma item_raises x k e :
  item x k = Raised e -> e = KeyError \/ e = TypeError.
Proof.
  destruct x; simpl; try (intros [= <-]; now right).
  destruct (dict_get fields k); [discriminate | intros [= <-]; now left].
Qed.

Section FailedAuthentication.
Variable W : Type.
Variable http : W -> request -> W * reply.
Variable entropy : W -> W * string.
Notation exec := (exec http entropy).

(** [get_admin_token]: one exchange; after a reply that is [rejected]
    the flag is not [True]. *)
Lemma get_admin_token_exchange cfg self w :
  let rp := snd (http w (KeycloakSetup.token_request cfg self)) in
  let r := exec (KeycloakSetup.get_admin_token cfg self) w in
  exchanges (trace r) = [(KeycloakSetup.token_request cfg self, rp)]
  /\ (rejected rp -> forall self', result r <> Done (true, self')).
Proof.
  unfold KeycloakSetup.get_admin_token; simpl.
  destruct (http w (KeycloakSetup.token_request cfg self)) as [w1 [|r]]; simpl.
  - split; [reflexivity | discriminate].
  - unfold raise_for_status, response_json, KeycloakSetup.print_response_of.
    destruct (is_error_status (status_code r)) eqn:Es; simpl.
    + destruct (has_response (HTTPError r)); simpl;
        (split; [reflexivity | discriminate]).
    + destruct (body r) as [j|]; simpl.
      * destruct (item j "access_token") as [tok|e] eqn:Ei; simpl.
        -- split; [reflexivity|]. intros [H|H]; [discriminate|].
           now destruct (H tok).
        -- destruct (item_raises _ _ _ Ei) as [-> | ->]; simpl;
             (split; [reflexivity | discriminate]).
      * split; [reflexivity | discriminate].
Qed.

Lemma run_first_exchange cfg self w :
  let rp := snd (http w (KeycloakSetup.token_request cfg self)) in
  let r := exec (KeycloakSetup.run cfg self) w in
  exists rest,
    exchanges (trace r) = (KeycloakSetup.token_request cfg self, rp) :: rest
    /\ (rejected rp -> rest = [] /\ result r <> Done true).
Proof.
  cbv zeta. unfold KeycloakSetup.run. cbn [bind print exec].
  rewrite exec_bind.
  destruct (get_admin_token_exchange cfg self w) as [Hx Hr].
  destruct (exec (KeycloakSetup.get_admin_token cfg self) w)
    as [w1 t1 [[[|] self1]|e]]; cbn [final trace result] in *.
  - eexists. autorewrite with trace. rewrite Hx. split; [reflexivity|].
    intros H. now destruct (Hr H self1).
  - exists []. autorewrite with trace. cbn [negb exec trace result].
    autorewrite with trace. rewrite app_nil_r.
    split; [exact Hx|]. split; [reflexivity|discriminate].
  - exists []. autorewrite with trace.
    split; [exact Hx|]. split; [reflexivity|discriminate].
Qed.

Lemma step1_exchange pw w :
  let rp := snd (http w (SetupGroups.token_request pw)) in
  let r := exec (SetupGroups.step1_authenticate pw) w in
  exchanges (trace r) = [(SetupGroups.token_request pw, rp)]
  /\ (rejected rp -> result r = Raised (SystemExit 1)).
Proof.
  unfold SetupGroups.step1_authenticate; simpl.
  destruct (http w (SetupGroups.token_request pw)) as [w1 [|r]]; simpl.
  - split; reflexivity.
  - unfold raise_for_status, response_json.
    destruct (is_error_status (status_code r)) eqn:Es; simpl.
    + split; reflexivity.
    + destruct (body r) as [j|]; simpl.
      * destruct (item j "access_token") as [tok|e] eqn:Ei; simpl.
        -- split; [reflexivity|]. intros [H|H]; [discriminate|].
           now destruct (H tok).
        -- destruct (item_raises _ _ _ Ei) as [-> | ->]; simpl;
             split; reflexivity.
      * split; reflexivity.
Qed.
End FailedAuthentication.

Section FailedAuthenticationScripts.
Variable W : Type.
Variable http : W -> request -> W * reply.
Variable entropy : W -> W * string.
Notation exec := (exec http entropy).

Lemma exchanges_tail (tail : list entry) :
  tail = [] \/ (exists l, tail = [Printed l]) -> exchanges tail = [].
Proof. intros [->|[l ->]]; reflexivity. Qed.

Lemma script_rejected cfg w rq rp rest :
  exchanges (trace (exec (KeycloakSetup.script cfg) w)) = (rq, rp) :: rest ->
  rejected rp ->
  rest = [] /\ exit_status (result (exec (KeycloakSetup.script cfg) w)) = 1.
Proof.
  unfold KeycloakSetup.script.
  destruct ((ADMIN_EMAIL cfg =? "") || (ADMIN_PASSWORD cfg =? ""))%string.
  - simpl. discriminate.
  - pose proof (exec_main W http entropy cfg w) as Hm.
    destruct (entropy w) as [w0 u]. cbv zeta in Hm.
    destruct Hm as [(tail & Ht & Htail) Hx].
    rewrite Ht, Hx. autorewrite with trace.
    rewrite (exchanges_tail tail Htail), app_nil_r.
    destruct (run_first_exchange W http entropy cfg
                (KeycloakSetup.mkSelf (KEYCLOAK_URL cfg) (REALM_NAME cfg)
                   None u) w0) as (rest0 & He & Hr).
    rewrite He. intros [= <- <- <-] Hrej.
    destruct (Hr Hrej) as [-> Hres]. split; [reflexivity|].
    match goal with
    | |- context [result ?r] => destruct (result r) as [[|]|e]
    end; congruence.
Qed.

Lemma exec_mint w :
  exists t, exec SetupGroups.mint w
            = mkRun (fst (entropy w)) t (Done (snd (entropy w)))
            /\ exchanges t = [].
Proof.
  unfold SetupGroups.mint, uuid4; cbn [bind print exec].
  destruct (entropy w) as [w0 u]. eexists; split; reflexivity.
Qed.

Lemma groups_script_rejected pw w rq rp rest :
  exchanges (trace (exec (SetupGroups.script pw) w)) = (rq, rp) :: rest ->
  rejected rp ->
  rest = [] /\ exit_status (result (exec (SetupGroups.script pw) w)) = 1.
Proof.
  unfold SetupGroups.script. rewrite exec_bind.
  destruct (exec_mint w) as (t0 & -> & Ht0). cbn [final trace result].
  rewrite exec_bind.
  destruct (step1_exchange W http entropy pw (fst (entropy w))) as [Hx Hr].
  destruct (exec (SetupGroups.step1_authenticate pw) (fst (entropy w)))
    as [w1 t1 [tok|e]]; cbn [final trace result] in *;
    autorewrite with trace; cbn [final trace result];
    rewrite Ht0, Hx; cbn [app].
  - intros [= <- <- <-] Hrej. now specialize (Hr Hrej).
  - intros [= <- <- <-] Hrej. specialize (Hr Hrej). injection Hr as ->.
    split; reflexivity.
Qed.
End FailedAuthenticationScripts.

(** C5, amended.  In every run of either set-up script in which the
    token request is answered by a network error, by a status of 400..599,
    or by a body that is not JSON or holds no [access_token], the token
    request is the only request of the run (no call of the admin API, no
    second token request) and the process exits with status 1. *)
Theorem failed_authentication_stops_the_run :
  forall (W : Type) (http : W -> request -> W * reply)
         (entropy : W -> W * string) (cfg : config) (pw : string) (w : W)
         (rq : request) (rp : reply) (rest : list (request * reply)),
    rejected rp ->
    (exchanges (trace (exec http entropy (KeycloakSetup.script cfg) w))
       = (rq, rp) :: rest ->
     rest = []
     /\ exit_status (result (exec http entropy (KeycloakSetup.script cfg) w)) = 1)
    /\
    (exchanges (trace (exec http entropy (SetupGroups.script pw) w))
       = (rq, rp) :: rest ->
     rest = []
     /\ exit_status (result (exec http entropy (SetupGroups.script pw) w)) = 1).
Proof.
  intros W http entropy cfg pw w rq rp rest Hrej; split; intros Hx.
  - now apply (script_rejected W http entropy cfg w rq rp rest).
  - now apply (groups_script_rejected W http entropy pw w rq rp rest).
Qed.

Lemma failed_authentication_witness :
  exit_status (result (Canned.play (KeycloakSetup.script demo_config)
                         [Canned.answer 401 (JObj [("error", JStr "invalid_grant")])]
                         ["uuid-1"])) = 1.
Proof.
  refine (proj2 (proj1 (failed_authentication_stops_the_run
                   Canned.world Canned.http Canned.entropy demo_config "secret"
                   (Canned.mkWorld
                      [Canned.answer 401 (JObj [("error", JStr "invalid_grant")])]
                      ["uuid-1"])
                   (KeycloakSetup.token_request demo_config
                      (KeycloakSetup.mkSelf "https://keycloak.example" "spooliq"
                         None "uuid-1"))
                   (Canned.answer 401 (JObj [("error", JStr "invalid_grant")]))
                   [] _) _)).
  - left; reflexivity.
  - reflexivity.
Defined.

(** A token endpoint that answers 302 with a token in the body: not a
    2xx answer, and [raise_for_status] lets it pass. *)
Definition replies_redirected : list reply :=
  [Canned.answer 302 (JObj [("access_token", JStr "tok")])].

(** C5 as stated fails: after the 302 the script goes on to the admin
    API (the lookup of the client, then its creation). *)
Lemma failed_authentication_counterexample : ~ C5_as_stated.
Proof.
  intros H.
  destruct (H Canned.world Canned.http Canned.entropy demo_config
              (Canned.mkWorld replies_redirected ["uuid-1"])
              _ _ _ eq_refl) as [Hrest _].
  - simpl. lia.
  - discriminate Hrest.
Qed.

(** ** C7: the assignment of the scope to the client *)

(** The claim as the specification states it, for the method of
    [KeycloakSetup]: the result is [True] on 204 and on 404, [False] on
    any other status. *)
Definition C7_as_stated : Prop :=
  forall (W : Type) (http : W -> request -> W * reply)
         (entropy : W -> W * string) self client_uuid scope_id (w : W) r,
    snd (http w (KeycloakSetup.scope_assignment self client_uuid scope_id))
      = Answer r ->
    result (exec http entropy
              (KeycloakSetup.assign_scope_to_client self client_uuid scope_id) w)
    = Done ((status_code r =? 204) || (status_code r =? 404)).

(** What the groups script prints after a status that is neither 204 nor
    404. *)
Definition scope_warning (st : Z) : line :=
  [Lit "⚠️  Scope assignment returned: "; Num st].

(** C7, amended.  In the groups script the assignment of the scope
    reports success on 204 and on 404 and a warning on any other status,
    and the script goes on in each case (a network error apart).  In
    [KeycloakSetup] the assignment returns [True] on every status outside
    400..599, 204 among them, and [False] on a status of 400..599, 404
    among them, and on a network error. *)
Theorem scope_assignment_outcomes :
  forall (W : Type) (http : W -> request -> W * reply)
         (entropy : W -> W * string) self t client_uuid scope_id (w : W),
    result (exec http entropy
              (KeycloakSetup.assign_scope_to_client self client_uuid scope_id) w)
    = Done match snd (http w (KeycloakSetup.scope_assignment self client_uuid
                                scope_id)) with
           | Answer r => negb (is_error_status (status_code r))
           | NetworkError => false
           end
    /\
    match snd (http w (SetupGroups.scope_assignment t client_uuid scope_id)) with
    | Answer r =>
        result (exec http entropy
                  (SetupGroups.step6_assign_scope t client_uuid scope_id) w)
        = Done tt
        /\ In (Printed (if (status_code r =? 204) || (status_code r =? 404)
                        then SetupGroups.scope_assigned
                        else scope_warning (status_code r)))
              (trace (exec http entropy
                        (SetupGroups.step6_assign_scope t client_uuid scope_id) w))
    | NetworkError =>
        result (exec http entropy
                  (SetupGroups.step6_assign_scope t client_uuid scope_id) w)
        = Raised ConnectionError
    end.
Proof.
  intros W http entropy self t client_uuid scope_id w; split.
  - unfold KeycloakSetup.assign_scope_to_client; simpl.
    destruct (http w _) as [w1 [|r]]; simpl; [reflexivity|].
    unfold raise_for_status.
    destruct (is_error_status (status_code r)); reflexivity.
  - unfold SetupGroups.step6_assign_scope; simpl.
    destruct (http w _) as [w1 [|r]]; simpl; [reflexivity|].
    destruct ((status_code r =? 204) || (status_code r =? 404)); simpl;
      split; auto.
Qed.

(** C7 as stated fails on 404: [raise_for_status] raises, and the method
    returns [False]. *)
Lemma scope_assignment_counterexample : ~ C7_as_stated.
Proof.
  intros H.
  specialize (H Canned.world Canned.http Canned.entropy
                (KeycloakSetup.mkSelf "https://keycloak.example" "spooliq"
                   (Some (JStr "tok")) "uuid-1")
                (JStr "c-1") (JStr "s-1")
                (Canned.mkWorld [Canned.empty 404] [])
                (mkResponse 404 None None) eq_refl).
  discriminate H.
Qed.

(** ** C4: the first failed step ends the run *)

(** The driver as the specification describes it: a list of steps run in
    order, each taking the identifiers of its predecessors, the first
    failed result ending the sequence.  [context] holds what the steps of
    [KeycloakSetup.run] hand on; a step returns the new context, or [None]
    when it failed. *)
Record context : Type := mkContext {
  the_self : KeycloakSetup.self_t;
  the_client : json;
  the_scope : json;
  the_user : json
}.

Definition stage : Type := context -> prog (option context).

Fixpoint advance (l : list stage) (c : context) : prog (option context) :=
  match l with
  | [] => Ret (Some c)
  | s :: rest =>
      r <- s c ;;
      match r with
      | None => Ret None
      | Some c' => advance rest c'
      end
  end.

Definition passed (b : bool) (c : context) : option context :=
  if b then Some c else None.

(** The nine steps of [run], and the summary as a step that cannot fail. *)
Definition stages (cfg : config) : list stage :=
  [ fun c => '(b, s) <- KeycloakSetup.get_admin_token cfg (the_self c) ;;
             Ret (passed b (mkContext s (the_client c) (the_scope c) (the_user c)));
    fun c => i <- KeycloakSetup.create_client (the_self c) ;;
             Ret (passed (truthy i)
                    (mkContext (the_self c) i (the_scope c) (the_user c)));
    fun c => b <- KeycloakSetup.create_roles (the_self c) ;;
             Ret (passed b c);
    fun c => i <- KeycloakSetup.create_client_scope (the_self c) ;;
             Ret (passed (truthy i)
                    (mkContext (the_self c) (the_client c) i (the_user c)));
    fun c => b <- KeycloakSetup.create_protocol_mapper (the_self c) (the_scope c) ;;
             Ret (passed b c);
    fun c => b <- KeycloakSetup.assign_scope_to_client (the_self c)
                    (the_client c) (the_scope c) ;;
             Ret (passed b c);
    fun c => i <- KeycloakSetup.find_user_by_email (the_self c) (ADMIN_EMAIL cfg) ;;
             Ret (passed (truthy i)
                    (mkContext (the_self c) (the_client c) (the_scope c) i));
    fun c => b <- KeycloakSetup.set_user_attribute (the_self c) (the_user c) ;;
             Ret (passed b c);
    fun c => b <- KeycloakSetup.assign_roles_to_user (the_self c) (the_user c) ;;
             Ret (passed b c);
    fun c => KeycloakSetup.print_summary cfg (the_self c) ;; Ret (Some c) ].

Definition start (self : KeycloakSetup.self_t) : context :=
  mkContext self JNull JNull JNull.

Definition banner : list entry :=
  [ Printed [Lit KeycloakSetup.rule];
    Printed [Lit "🚀 Keycloak Multi-tenant Setup"];
    Printed [Lit KeycloakSetup.rule] ].

Definition is_some {A : Type} (o : option A) : bool :=
  match o with Some _ => true | None => false end.

Section FailFast.
Variable W : Type.
Variable http : W -> request -> W * reply.
Variable entropy : W -> W * string.
Notation exec := (exec http entropy).

Local Opaque KeycloakSetup.get_admin_token KeycloakSetup.create_client
  KeycloakSetup.create_roles KeycloakSetup.create_client_scope
  KeycloakSetup.create_protocol_mapper KeycloakSetup.assign_scope_to_client
  KeycloakSetup.find_user_by_email KeycloakSetup.set_user_attribute
  KeycloakSetup.assign_roles_to_user KeycloakSetup.print_summary.

Lemma exec_bind_assoc A B C (p : prog A) (f : A -> prog B)
    (g : B -> prog C) w :
  exec (bind (bind p f) g) w = exec (bind p (fun a => bind (f a) g)) w.
Proof.
  revert w; induction p as [a|e|rq k IH|k IH|l k IH]; intros w; simpl;
    try reflexivity.
  - destruct (http w rq) as [w' rp]. now rewrite IH.
  - destruct (entropy w) as [w' u]. now rewrite IH.
  - now rewrite IH.
Qed.

Lemma exec_bind_ext A B (p : prog A) (f g : A -> prog B) w :
  (forall a w', exec (f a) w' = exec (g a) w') ->
  exec (bind p f) w = exec (bind p g) w.
Proof.
  intros H. rewrite !exec_bind.
  destruct (result (exec p w)); [now rewrite H | reflexivity].
Qed.

Ltac tidy :=
  cbn [bind advance the_self the_client the_scope the_user passed negb
       is_some].

(** Bring the driver's next step to the front, and compare what
    follows it on both sides. *)
Ltac in_step :=
  tidy; rewrite !exec_bind_assoc; apply exec_bind_ext; intros ? ?; tidy;
  repeat match goal with
    | x : (bool * _)%type |- _ => destruct x; tidy
    | |- context [passed ?b _] =>
        lazymatch b with true => fail | false => fail | _ => idtac end;
        destruct b; tidy
    end;
  try reflexivity.

(** [run] is that driver over [stages]. *)
Lemma run_is_advance cfg self w :
  exec (KeycloakSetup.run cfg self) w
  = prepend banner
      (exec (r <- advance (stages cfg) (start self) ;; Ret (is_some r)) w).
Proof.
  unfold KeycloakSetup.run, stages, start, banner.
  cbn [bind print exec].
  match goal with
  | |- log _ (log _ (log _ ?r)) = prepend _ ?r' =>
      enough (H : r = r') by (rewrite H; reflexivity)
  end.
  do 10 in_step.
Qed.
End FailFast.

Section FailFastFacts.
Variable W : Type.
Variable http : W -> request -> W * reply.
Variable entropy : W -> W * string.
Notation exec := (exec http entropy).

Lemma advance_app l1 l2 c w :
  exec (advance (l1 ++ l2) c) w
  = exec (r <- advance l1 c ;;
          match r with
          | None => Ret None
          | Some c' => advance l2 c'
          end) w.
Proof.
  revert c w; induction l1 as [|s l1 IH]; intros c w; [reflexivity|].
  cbn [app advance]. rewrite exec_bind_assoc. apply exec_bind_ext.
  intros [c'|] w'; [apply IH | reflexivity].
Qed.

(** Once a step of [l1] has failed, the steps of [l2] add nothing. *)
Lemma advance_stops l1 l2 c w :
  result (exec (advance l1 c) w) = Done None ->
  exec (advance (l1 ++ l2) c) w = exec (advance l1 c) w.
Proof.
  intros H. rewrite advance_app, exec_bind, H. cbn [exec].
  destruct (exec (advance l1 c) w) as [wf t r]; cbn in *; subst r.
  unfold prepend; cbn. f_equal. apply app_nil_r.
Qed.

Lemma run_stops cfg self w k :
  result (exec (advance (firstn k (stages cfg)) (start self)) w) = Done None ->
  exec (KeycloakSetup.run cfg self) w
  = prepend banner
      (mkRun (final (exec (advance (firstn k (stages cfg)) (start self)) w))
             (trace (exec (advance (firstn k (stages cfg)) (start self)) w))
             (Done false)).
Proof.
  intros H. rewrite run_is_advance. f_equal.
  assert (E : exec (advance (stages cfg) (start self)) w
              = exec (advance (firstn k (stages cfg)) (start self)) w).
  { transitivity
      (exec (advance (firstn k (stages cfg) ++ skipn k (stages cfg))
               (start self)) w);
      [now rewrite firstn_skipn | now apply advance_stops]. }
  rewrite exec_bind, E, H. cbn [exec is_some].
  unfold prepend; cbn [final trace result]. f_equal. apply app_nil_r.
Qed.

(** A reply of the remote, not an error of the transport. *)
Definition answered (x : request * reply) : Prop := snd x <> NetworkError.

Lemma groups_create_role_goes_on t role w :
  Forall answered
    (exchanges (trace (exec (SetupGroups.create_role t role tt) w))) ->
  result (exec (SetupGroups.create_role t role tt) w) = Done tt.
Proof.
  unfold SetupGroups.create_role; simpl.
  destruct (http w (SetupGroups.role_lookup t role)) as [w1 [|r1]]; simpl.
  - intros H; inversion H as [|? ? Hx]; now destruct Hx.
  - destruct (status_code r1 =? 200); simpl; [reflexivity|].
    destruct (http w1 (SetupGroups.role_creation t role)) as [w2 [|r2]]; simpl.
    + intros H; inversion H as [|? ? _ H']; inversion H' as [|? ? Hx];
        now destruct Hx.
    + destruct (status_code r2 =? 201); reflexivity.
Qed.

Lemma groups_roles_go_on t l w :
  Forall answered
    (exchanges (trace (exec (for_each l tt (SetupGroups.create_role t)) w))) ->
  result (exec (for_each l tt (SetupGroups.create_role t)) w) = Done tt.
Proof.
  revert w; induction l as [|role l IH]; intros w; [reflexivity|].
  cbn [for_each]. rewrite exec_bind.
  pose proof (groups_create_role_goes_on t role w) as Hr.
  destruct (exec (SetupGroups.create_role t role tt) w) as [w1 t1 [[]|e]];
    cbn [final trace result] in *; autorewrite with trace.
  - rewrite Forall_app; intros [H1 H2]. now apply IH.
  - intros H1. now specialize (Hr H1).
Qed.
End FailFastFacts.

(** A creation request answered with an error other than 409. *)
Definition failed_creation (x : request * reply) : Prop :=
  is_post (fst x) = true
  /\ match snd x with
     | Answer r => is_error_status (status_code r) = true /\ status_code r <> 409
     | NetworkError => False
     end.

(** The claim as the specification states it, for the groups script: a
    failed creation ends the run with a status that is not 0, and the
    steps on the user (which come after every creation) do not happen. *)
Definition C4_as_stated : Prop :=
  forall (W : Type) (http : W -> request -> W * reply)
         (entropy : W -> W * string) (pw : string) (w : W) x,
    In x (exchanges (trace (exec http entropy (SetupGroups.script pw) w))) ->
    failed_creation x ->
    exit_status (result (exec http entropy (SetupGroups.script pw) w)) <> 0
    /\ Forall (fun rq => writes_user rq = false)
         (requests (trace (exec http entropy (SetupGroups.script pw) w))).

Section FailFastGroups.
Variable W : Type.
Variable http : W -> request -> W * reply.
Variable entropy : W -> W * string.
Notation exec := (exec http entropy).

Lemma groups_assign_scope_goes_on t client_id scope_id w :
  Forall answered
    (exchanges (trace (exec (SetupGroups.step6_assign_scope t client_id
                               scope_id) w))) ->
  result (exec (SetupGroups.step6_assign_scope t client_id scope_id) w)
  = Done tt.
Proof.
  unfold SetupGroups.step6_assign_scope; simpl.
  destruct (http w _) as [w1 [|r]]; simpl.
  - intros H; inversion H as [|? ? Hx]; now destruct Hx.
  - destruct ((status_code r =? 204) || (status_code r =? 404)); reflexivity.
Qed.

Lemma script_exit_of_run cfg w :
  result (exec (KeycloakSetup.run cfg
                  (KeycloakSetup.mkSelf (KEYCLOAK_URL cfg) (REALM_NAME cfg)
                     None (snd (entropy w)))) (fst (entropy w)))
  = Done false ->
  exit_status (result (exec (KeycloakSetup.script cfg) w)) = 1.
Proof.
  unfold KeycloakSetup.script.
  destruct ((ADMIN_EMAIL cfg =? "") || (ADMIN_PASSWORD cfg =? ""))%string;
    [reflexivity|].
  pose proof (exec_main W http entropy cfg w) as Hm.
  destruct (entropy w) as [w0 u]. cbv zeta in Hm. cbn [fst snd].
  destruct Hm as [_ Hx]. rewrite Hx. now intros ->.
Qed.
End FailFastGroups.


(** Four roles, none there, none creatable. *)
Definition replies_roles_refused : list reply :=
  [ Canned.empty 404; Canned.empty 500; Canned.empty 404; Canned.empty 500;
    Canned.empty 404; Canned.empty 500; Canned.empty 404; Canned.empty 500 ].


(** A realm in which everything is in place but the role [User], whose
    creation the remote refuses with 500. *)
Definition replies_user_role_refused : list reply :=
  [ Canned.answer 200 (JObj [("access_token", JStr "tok")]);
    Canned.answer 200 (JArr [JObj [("id", JStr "c-1")]]);
    Canned.answer 200 (JObj [("name", JStr "PlatformAdmin")]);
    Canned.answer 200 (JObj [("name", JStr "OrgAdmin")]);
    Canned.answer 200 (JObj [("name", JStr "Owner")]);
    Canned.empty 404;
    Canned.empty 500;
    Canned.answer 200
      (JArr [JObj [("id", JStr "s-1"); ("name", JStr "organization")]]);
    Canned.answer 200 (JArr [JObj [("name", JStr "organization-group-mapper")]]);
    Canned.empty 409;
    Canned.empty 204;
    Canned.answer 200 (JArr [JObj [("id", JStr "g-1")]]);
    Canned.answer 200 (JArr [JObj [("id", JStr "u-1")]]);
    Canned.empty 204;
    Canned.answer 200 (JObj [("id", JStr "u-1")]);
    Canned.empty 204;
    Canned.answer 200 (JObj [("name", JStr "PlatformAdmin")]);
    Canned.answer 200 (JObj [("name", JStr "OrgAdmin")]);
    Canned.answer 200 (JObj [("name", JStr "Owner")]);
    Canned.empty 404;
    Canned.empty 204 ].


(** ** C3: a creation answered 409 *)

(** The claim as the specification states it, for the realm roles of
    [KeycloakSetup]: a creation answered 409 leaves the step as a role
    found does, with the flag it had. *)
Definition C3_as_stated : Prop :=
  forall (W : Type) (http : W -> request -> W * reply)
         (entropy : W -> W * string) self role_name success (w : W) r,
    In (Sent (KeycloakSetup.role_creation self role_name) (Answer r))
       (trace (exec http entropy
                 (KeycloakSetup.create_role self role_name success) w)) ->
    status_code r = 409 ->
    result (exec http entropy
              (KeycloakSetup.create_role self role_name success) w)
    = Done success.

Definition mapper_exists : line := [Lit "✅ Group mapper already exists"].
Definition custom_mapper_exists : line :=
  [Lit "✅ Custom organization_id mapper already exists"].
Definition role_refused (role : string) (st : Z) : line :=
  [Lit "   ⚠️  Failed to create role '"; Lit role; Lit "': "; Num st].

Lemma conflict_is_error r : status_code r = 409 -> is_error_status (status_code r) = true.
Proof. now intros ->. Qed.

(** An answer found in a trace of which every piece is known. *)
Ltac located H :=
  split_in H; try discriminate H; try (inversion H; subst; clear H).

Section Conflict.
Variable W : Type.
Variable http : W -> request -> W * reply.
Variable entropy : W -> W * string.
Notation exec := (exec http entropy).

Lemma setup_role_conflict self role_name success w r :
  In (Sent (KeycloakSetup.role_creation self role_name) (Answer r))
     (trace (exec (KeycloakSetup.create_role self role_name success) w)) ->
  status_code r = 409 ->
  result (exec (KeycloakSetup.create_role self role_name success) w)
  = Done false.
Proof.
  unfold KeycloakSetup.create_role; simpl.
  destruct (http w (KeycloakSetup.role_lookup self role_name)) as [w1 [|r0]];
    simpl; [|destruct (status_code r0 =? 200); simpl];
    try (destruct (http w1 (KeycloakSetup.role_creation self role_name))
           as [w2 [|r2]]; simpl;
         [|unfold raise_for_status;
           destruct (is_error_status (status_code r2)) eqn:Es; simpl]);
    intros H H9; try reflexivity; located H;
    apply conflict_is_error in H9; congruence.
Qed.

Lemma groups_role_conflict t role w r :
  In (Sent (SetupGroups.role_creation t role) (Answer r))
     (trace (exec (SetupGroups.create_role t role tt) w)) ->
  status_code r = 409 ->
  result (exec (SetupGroups.create_role t role tt) w) = Done tt
  /\ In (Printed (role_refused role 409))
        (trace (exec (SetupGroups.create_role t role tt) w)).
Proof.
  unfold SetupGroups.create_role; simpl.
  destruct (http w (SetupGroups.role_lookup t role)) as [w1 [|r0]];
    simpl; [|destruct (status_code r0 =? 200); simpl];
    try (destruct (http w1 (SetupGroups.role_creation t role))
           as [w2 [|r2]]; simpl;
         [|destruct (status_code r2 =? 201) eqn:Es; simpl]);
    intros H H9; located H.
  - rewrite H9 in Es; discriminate.
  - rewrite H9. split; [reflexivity|]. unfold role_refused. auto.
Qed.

Lemma groups_mapper_conflict t scope_id w r :
  In (Sent (SetupGroups.mapper_creation t scope_id) (Answer r))
     (trace (exec (SetupGroups.step5_group_mapper t scope_id) w)) ->
  status_code r = 409 ->
  result (exec (SetupGroups.step5_group_mapper t scope_id) w) = Done tt
  /\ In (Printed mapper_exists)
        (trace (exec (SetupGroups.step5_group_mapper t scope_id) w)).
Proof.
  unfold SetupGroups.step5_group_mapper; simpl.
  destruct (http w (SetupGroups.mapper_listing t scope_id)) as [w1 [|r0]];
    simpl; [intros H; located H|].
  unfold response_json. destruct (body r0) as [j|]; simpl;
    [|intros H; located H].
  destruct (iter j) as [l|e]; simpl; [|intros H; located H].
  destruct (comprehension mentions_organization l) as [[|m ms]|e]; simpl;
    [| intros H; located H | intros H; located H].
  destruct (http w1 (SetupGroups.mapper_creation t scope_id)) as [w2 [|r2]];
    simpl; [intros H; located H|].
  destruct (status_code r2 =? 201) eqn:E1; simpl;
    [intros H H9; located H; rewrite H9 in E1; discriminate|].
  destruct (status_code r2 =? 409) eqn:E9; simpl;
    intros H H9; located H.
  - split; [reflexivity|]. unfold mapper_exists. auto.
  - rewrite H9 in E9; discriminate.
Qed.

Lemma groups_custom_mapper_conflict t scope_id w r :
  In (Sent (SetupGroups.custom_mapper_creation t scope_id) (Answer r))
     (trace (exec (SetupGroups.step5_custom_mapper t scope_id) w)) ->
  status_code r = 409 ->
  result (exec (SetupGroups.step5_custom_mapper t scope_id) w) = Done tt
  /\ In (Printed custom_mapper_exists)
        (trace (exec (SetupGroups.step5_custom_mapper t scope_id) w)).
Proof.
  unfold SetupGroups.step5_custom_mapper; simpl.
  destruct (http w (SetupGroups.custom_mapper_creation t scope_id))
    as [w1 [|r0]]; simpl; [intros H; located H|].
  destruct (status_code r0 =? 201) eqn:E1; simpl;
    [intros H H9; located H; rewrite H9 in E1; discriminate|].
  destruct (status_code r0 =? 409) eqn:E9; simpl;
    intros H H9; located H.
  - split; [reflexivity|]. unfold custom_mapper_exists. auto.
  - rewrite H9 in E9; discriminate.
Qed.

Lemma not_in_gets (t : list entry) rq rp :
  Forall (fun rq => is_get rq = true) (requests t) ->
  In (Sent rq rp) t -> is_get rq = false -> False.
Proof.
  intros F Hin Hg. apply In_requests in Hin.
  rewrite Forall_forall in F. specialize (F _ Hin). congruence.
Qed.

(** The lookup of a step, split from what follows it: it sends [GET]
    requests only. *)
Ltac lookup_phase F :=
  rewrite exec_bind;
  lazymatch goal with
  | |- context [result (exec ?p ?w)] =>
      assert (F : Forall (fun rq => is_get rq = true)
                    (requests (trace (exec p w))))
        by (apply sends_exec; repeat sends_step; reflexivity);
      destruct (exec p w) as [? ? [?|?]];
      cbn [final trace result] in F |- *
  end.

Lemma setup_client_conflict self w r :
  In (Sent (KeycloakSetup.client_creation self) (Answer r))
     (trace (exec (KeycloakSetup.create_client self) w)) ->
  status_code r = 409 ->
  result (exec (KeycloakSetup.create_client self) w) = Done JNull.
Proof.
  unfold KeycloakSetup.create_client. cbn [bind print exec].
  autorewrite with trace. intros [H|H]; [discriminate|]. revert H.
  lookup_phase F.
  - destruct a as [client_uuid|]; autorewrite with trace.
    + cbn [exec trace]. rewrite app_nil_r. intros H.
      now destruct (not_in_gets _ _ _ F H eq_refl).
    + intros H H9. apply in_app_or in H.
      destruct H as [H|H]; [now destruct (not_in_gets _ _ _ F H eq_refl)|].
      revert H. simpl.
      destruct (http final0 (KeycloakSetup.client_creation self))
        as [w2 [|r2]]; simpl; [reflexivity|].
      unfold raise_for_status.
      destruct (is_error_status (status_code r2)) eqn:Es; simpl.
      * unfold KeycloakSetup.print_response_of.
        destruct (has_response (HTTPError r2)); reflexivity.
      * intros H. exfalso. apply conflict_is_error in H9.
        destruct H as [H|H]; [inversion H; subst; congruence|].
        assert (G : Forall (fun rq => is_get rq = true) (requests
          (trace (exec
             (try_except
                (response <- send (KeycloakSetup.client_lookup self);;
                 raise_for_status response;;
                 j <- response_json response;;
                 c <- lift (index0 j);;
                 client_uuid <- lift (item c "id");;
                 print [Lit "✅ Client '"; Lit KeycloakSetup.CLIENT_ID;
                        Lit "' created successfully (ID: "; Val client_uuid;
                        Lit ")"];;
                 Ret client_uuid)
                (except_RequestException
                   (fun e : exn =>
                    print [Lit "❌ Failed to create client: "; Exc e];;
                    KeycloakSetup.print_response_of e;; Ret JNull))) w2))))
          by (apply sends_exec; repeat sends_step;
              first [reflexivity | apply sends_print_response_of]).
        exact (not_in_gets _ _ _ G H eq_refl).
  - intros H. now destruct (not_in_gets _ _ _ F H eq_refl).
Qed.

(** Every branch of a step that has no loop over a body. *)
Ltac branches :=
  repeat (simpl;
          match goal with
          | |- context [http ?w ?rq] =>
              destruct (http w rq) as [? [|?]]
          | |- context [raise_for_status ?r] =>
              unfold raise_for_status;
              destruct (is_error_status (status_code r)) eqn:?
          | |- context [response_json ?r] =>
              unfold response_json; destruct (body r)
          | |- context [match body ?r with _ => _ end] => destruct (body r)
          | |- context [lift ?o] => destruct o
          | |- context [if ?c then _ else _] => destruct c eqn:?
          end).

Lemma groups_client_conflict t w r :
  In (Sent (SetupGroups.client_creation t) (Answer r))
     (trace (exec (SetupGroups.step2_client t) w)) ->
  status_code r = 409 ->
  result (exec (SetupGroups.step2_client t) w) = Raised (SystemExit 1).
Proof.
  unfold SetupGroups.step2_client. branches; simpl;
    intros H H9; try reflexivity; located H;
    match goal with
    | E : (status_code _ =? 201) = true |- _ => rewrite H9 in E; discriminate
    end.
Qed.

(** A group mapper that the lookup found is reported with the same line. *)
Lemma groups_mapper_found t scope_id w :
  (forall rp, ~ In (Sent (SetupGroups.mapper_creation t scope_id) rp)
                   (trace (exec (SetupGroups.step5_group_mapper t scope_id) w))) ->
  result (exec (SetupGroups.step5_group_mapper t scope_id) w) = Done tt ->
  In (Printed mapper_exists)
     (trace (exec (SetupGroups.step5_group_mapper t scope_id) w)).
Proof.
  unfold SetupGroups.step5_group_mapper; simpl.
  destruct (http w (SetupGroups.mapper_listing t scope_id)) as [w1 [|r0]];
    simpl; [discriminate|].
  unfold response_json. destruct (body r0) as [j|]; simpl; [|discriminate].
  destruct (iter j) as [l|e]; simpl; [|discriminate].
  destruct (comprehension mentions_organization l) as [[|m ms]|e]; simpl;
    [| unfold mapper_exists; auto | discriminate].
  destruct (http w1 (SetupGroups.mapper_creation t scope_id)) as [w2 rp];
    simpl.
  intros H. exfalso. apply (H rp). auto.
Qed.

(** The branch for 409 of [create_protocol_mapper] is never taken:
    [e.response] is false for a response of [raise_for_status], so a
    creation answered 409 gives [False] like any other error. *)
Lemma setup_mapper_conflict self scope_id w r :
  In (Sent (KeycloakSetup.mapper_creation self scope_id) (Answer r))
     (trace (exec (KeycloakSetup.create_protocol_mapper self scope_id) w)) ->
  status_code r = 409 ->
  result (exec (KeycloakSetup.create_protocol_mapper self scope_id) w)
  = Done false.
Proof.
  unfold KeycloakSetup.create_protocol_mapper. cbn [bind print exec].
  autorewrite with trace. intros [H|H]; [discriminate|]. revert H.
  rewrite exec_bind.
  lazymatch goal with
  | |- context [result (exec ?p ?w)] =>
      assert (F : Forall (fun rq => is_get rq = true)
                    (requests (trace (exec p w))))
        by (apply sends_exec; repeat sends_step;
            first [reflexivity | apply sends_scan_mappers]);
      destruct (exec p w) as [w1 t1 [[|]|e]];
      cbn [final trace result] in F |- *
  end.
  - autorewrite with trace. cbn [exec trace]. rewrite app_nil_r. intros H.
    now destruct (not_in_gets _ _ _ F H eq_refl).
  - autorewrite with trace. intros H H9. apply in_app_or in H.
    destruct H as [H|H]; [now destruct (not_in_gets _ _ _ F H eq_refl)|].
    revert H. simpl.
    destruct (http w1 (KeycloakSetup.mapper_creation self scope_id))
      as [w2 [|r2]]; simpl; [reflexivity|].
    unfold raise_for_status.
    destruct (is_error_status (status_code r2)) eqn:Es; simpl.
    + unfold has_response, ok; simpl. rewrite Es. reflexivity.
    + intros H. located H. apply conflict_is_error in H9. congruence.
  - intros H. now destruct (not_in_gets _ _ _ F H eq_refl).
Qed.
End Conflict.


(** Nothing found, and the creation answered 409. *)
Definition replies_conflict : list reply :=
  [Canned.answer 404 (JArr []); Canned.empty 409].

Definition demo_self : KeycloakSetup.self_t :=
  KeycloakSetup.mkSelf "https://keycloak.example" "spooliq" (Some (JStr "tok"))
    "uuid-1".



(** ** C2: a resource that the lookup found is not created *)

(** What the loop of [create_client_scope] stops at: the id of the first
    scope named [organization], [None] at the end of the listing, or the
    exception of a scope met before with no ["name"] (or no ["id"]). *)
Fixpoint first_organization (l : list json) : outcome (option json) :=
  match l with
  | [] => Done None
  | scope :: rest =>
      match item scope "name" with
      | Raised e => Raised e
      | Done name =>
          if eq_str name "organization" then
            match item scope "id" with
            | Raised e => Raised e
            | Done scope_id => Done (Some scope_id)
            end
          else first_organization rest
      end
  end.

(** What the loop of [create_protocol_mapper] finds. *)
Fixpoint has_mapper (l : list json) : outcome bool :=
  match l with
  | [] => Done false
  | mapper :: rest =>
      match get mapper "name" with
      | Raised e => Raised e
      | Done name =>
          if eq_str name "organization-id-mapper" then Done true
          else has_mapper rest
      end
  end.

(** The lookups that find, by what the remote replied.  A listing of
    [KeycloakSetup] must pass [raise_for_status]; the groups script reads
    the body whatever the status. *)
Definition finds_first (checked : bool) (rp : reply) (id : json) : Prop :=
  exists r j c,
    rp = Answer r
    /\ (checked = true -> is_error_status (status_code r) = false)
    /\ body r = Some j /\ truthy j = true
    /\ index0 j = Done c /\ item c "id" = Done id.

Definition finds_role (rp : reply) : Prop :=
  exists r, rp = Answer r /\ status_code r = 200.

Definition finds_scope (rp : reply) (id : json) : Prop :=
  exists r j l,
    rp = Answer r /\ is_error_status (status_code r) = false
    /\ body r = Some j /\ iter j = Done l
    /\ first_organization l = Done (Some id).

Definition finds_mapper (rp : reply) : Prop :=
  exists r j l,
    rp = Answer r /\ is_error_status (status_code r) = false
    /\ body r = Some j /\ iter j = Done l /\ has_mapper l = Done true.

Definition finds_group_scope (rp : reply) (id : json) : Prop :=
  exists r j l s rest,
    rp = Answer r /\ body r = Some j /\ iter j = Done l
    /\ comprehension named_organization l = Done (s :: rest)
    /\ item s "id" = Done id.

Definition finds_group_mapper (rp : reply) : Prop :=
  exists r j l m rest,
    rp = Answer r /\ body r = Some j /\ iter j = Done l
    /\ comprehension mentions_organization l = Done (m :: rest).

(** The claim as the specification states it, for the protocol mappers
    of the groups script (STEP 5): a lookup that finds is followed by no
    creation request. *)
Definition C2_as_stated : Prop :=
  forall (W : Type) (http : W -> request -> W * reply)
         (entropy : W -> W * string) t scope_id (w : W),
    finds_group_mapper (snd (http w (SetupGroups.mapper_listing t scope_id))) ->
    Forall (fun rq => is_post rq = false)
      (requests (trace (exec http entropy
                          (SetupGroups.step5_mappers t scope_id) w))).

Section Found.
Variable W : Type.
Variable http : W -> request -> W * reply.
Variable entropy : W -> W * string.
Notation exec := (exec http entropy).

Lemma exec_scan_scopes v l w :
  result (exec (KeycloakSetup.scan_scopes v l) w) = first_organization l
  /\ exchanges (trace (exec (KeycloakSetup.scan_scopes v l) w)) = [].
Proof.
  induction l as [|scope l IH]; simpl; [auto|].
  destruct (item scope "name") as [name|e]; simpl; [|auto].
  destruct (eq_str name "organization"); simpl; [|exact IH].
  destruct (item scope "id") as [i|e]; simpl; auto.
Qed.

Lemma exec_scan_mappers l w :
  result (exec (KeycloakSetup.scan_mappers l) w) = has_mapper l
  /\ exchanges (trace (exec (KeycloakSetup.scan_mappers l) w)) = [].
Proof.
  induction l as [|mapper l IH]; simpl; [auto|].
  destruct (get mapper "name") as [name|e]; simpl; [|auto].
  destruct (eq_str name "organization-id-mapper"); simpl; auto.
Qed.

Lemma setup_client_found self w id :
  finds_first true (snd (http w (KeycloakSetup.client_lookup self))) id ->
  result (exec (KeycloakSetup.create_client self) w) = Done id
  /\ exchanges (trace (exec (KeycloakSetup.create_client self) w))
     = [(KeycloakSetup.client_lookup self,
         snd (http w (KeycloakSetup.client_lookup self)))].
Proof.
  intros (r & j & c & Hrp & Hs & Hb & Ht & Hc & Hi).
  specialize (Hs eq_refl).
  unfold KeycloakSetup.create_client; simpl.
  destruct (http w (KeycloakSetup.client_lookup self)) as [w1 rp].
  simpl in Hrp; subst rp; simpl.
  unfold raise_for_status, response_json. rewrite Hs, Hb; simpl.
  rewrite Ht; simpl. rewrite Hc; simpl. rewrite Hi; simpl. auto.
Qed.

Lemma setup_role_found self role_name success w :
  finds_role (snd (http w (KeycloakSetup.role_lookup self role_name))) ->
  result (exec (KeycloakSetup.create_role self role_name success) w)
  = Done success
  /\ exchanges (trace (exec (KeycloakSetup.create_role self role_name success) w))
     = [(KeycloakSetup.role_lookup self role_name,
         snd (http w (KeycloakSetup.role_lookup self role_name)))].
Proof.
  intros (r & Hrp & Hs).
  unfold KeycloakSetup.create_role; simpl.
  destruct (http w (KeycloakSetup.role_lookup self role_name)) as [w1 rp].
  simpl in Hrp; subst rp; simpl. rewrite Hs; simpl. auto.
Qed.

Lemma setup_scope_found self w id :
  finds_scope (snd (http w (KeycloakSetup.scope_listing self))) id ->
  result (exec (KeycloakSetup.create_client_scope self) w) = Done id
  /\ exchanges (trace (exec (KeycloakSetup.create_client_scope self) w))
     = [(KeycloakSetup.scope_listing self,
         snd (http w (KeycloakSetup.scope_listing self)))].
Proof.
  intros (r & j & l & Hrp & Hs & Hb & Hl & Hf).
  unfold KeycloakSetup.create_client_scope; simpl.
  destruct (http w (KeycloakSetup.scope_listing self)) as [w1 rp].
  simpl in Hrp; subst rp; simpl.
  unfold raise_for_status, response_json. rewrite Hs, Hb; simpl.
  rewrite Hl; simpl. rewrite exec_bind, exec_try.
  destruct (exec_scan_scopes "already exists" l w1) as [Hres Hex].
  rewrite Hf in Hres.
  destruct (exec (KeycloakSetup.scan_scopes "already exists" l) w1)
    as [w2 t2 res]; cbn [final trace result] in *. subst res.
  cbn [final trace result exec]. autorewrite with trace. rewrite Hex. auto.
Qed.

Lemma setup_mapper_found self scope_id w :
  finds_mapper (snd (http w (KeycloakSetup.mapper_listing self scope_id))) ->
  result (exec (KeycloakSetup.create_protocol_mapper self scope_id) w)
  = Done true
  /\ exchanges (trace (exec (KeycloakSetup.create_protocol_mapper self scope_id) w))
     = [(KeycloakSetup.mapper_listing self scope_id,
         snd (http w (KeycloakSetup.mapper_listing self scope_id)))].
Proof.
  intros (r & j & l & Hrp & Hs & Hb & Hl & Hf).
  unfold KeycloakSetup.create_protocol_mapper; simpl.
  destruct (http w (KeycloakSetup.mapper_listing self scope_id)) as [w1 rp].
  simpl in Hrp; subst rp; simpl.
  unfold raise_for_status, response_json. rewrite Hs, Hb; simpl.
  rewrite Hl; simpl. rewrite exec_bind, exec_try.
  destruct (exec_scan_mappers l w1) as [Hres Hex].
  rewrite Hf in Hres.
  destruct (exec (KeycloakSetup.scan_mappers l) w1)
    as [w2 t2 res]; cbn [final trace result] in *. subst res.
  cbn [final trace result exec]. autorewrite with trace. rewrite Hex. auto.
Qed.

Lemma groups_client_found t w id :
  finds_first false (snd (http w (SetupGroups.client_lookup t))) id ->
  result (exec (SetupGroups.step2_client t) w) = Done id
  /\ exchanges (trace (exec (SetupGroups.step2_client t) w))
     = [(SetupGroups.client_lookup t, snd (http w (SetupGroups.client_lookup t)))].
Proof.
  intros (r & j & c & Hrp & _ & Hb & Ht & Hc & Hi).
  unfold SetupGroups.step2_client; simpl.
  destruct (http w (SetupGroups.client_lookup t)) as [w1 rp].
  simpl in Hrp; subst rp; simpl.
  unfold response_json. rewrite Hb; simpl.
  rewrite Ht; simpl. rewrite Hc; simpl. rewrite Hi; simpl. auto.
Qed.

Lemma groups_role_found t role w :
  finds_role (snd (http w (SetupGroups.role_lookup t role))) ->
  result (exec (SetupGroups.create_role t role tt) w) = Done tt
  /\ exchanges (trace (exec (SetupGroups.create_role t role tt) w))
     = [(SetupGroups.role_lookup t role,
         snd (http w (SetupGroups.role_lookup t role)))].
Proof.
  intros (r & Hrp & Hs).
  unfold SetupGroups.create_role; simpl.
  destruct (http w (SetupGroups.role_lookup t role)) as [w1 rp].
  simpl in Hrp; subst rp; simpl. rewrite Hs; simpl. auto.
Qed.

Lemma groups_scope_found t w id :
  finds_group_scope (snd (http w (SetupGroups.scope_listing t))) id ->
  result (exec (SetupGroups.step4_scope t) w) = Done id
  /\ exchanges (trace (exec (SetupGroups.step4_scope t) w))
     = [(SetupGroups.scope_listing t, snd (http w (SetupGroups.scope_listing t)))].
Proof.
  intros (r & j & l & s & rest & Hrp & Hb & Hl & Hc & Hi).
  unfold SetupGroups.step4_scope; simpl.
  destruct (http w (SetupGroups.scope_listing t)) as [w1 rp].
  simpl in Hrp; subst rp; simpl.
  unfold response_json. rewrite Hb; simpl. rewrite Hl; simpl.
  rewrite Hc; simpl. rewrite Hi; simpl. auto.
Qed.

Lemma groups_group_mapper_found t scope_id w :
  finds_group_mapper (snd (http w (SetupGroups.mapper_listing t scope_id))) ->
  result (exec (SetupGroups.step5_group_mapper t scope_id) w) = Done tt
  /\ exchanges (trace (exec (SetupGroups.step5_group_mapper t scope_id) w))
     = [(SetupGroups.mapper_listing t scope_id,
         snd (http w (SetupGroups.mapper_listing t scope_id)))].
Proof.
  intros (r & j & l & m & rest & Hrp & Hb & Hl & Hc).
  unfold SetupGroups.step5_group_mapper; simpl.
  destruct (http w (SetupGroups.mapper_listing t scope_id)) as [w1 rp].
  simpl in Hrp; subst rp; simpl.
  unfold response_json. rewrite Hb; simpl. rewrite Hl; simpl.
  rewrite Hc; simpl. auto.
Qed.

Lemma groups_group_found t uuid w id :
  finds_first false (snd (http w (SetupGroups.group_lookup t))) id ->
  result (exec (SetupGroups.step7_group t uuid) w) = Done id
  /\ exchanges (trace (exec (SetupGroups.step7_group t uuid) w))
     = [(SetupGroups.group_lookup t, snd (http w (SetupGroups.group_lookup t)))].
Proof.
  intros (r & j & c & Hrp & _ & Hb & Ht & Hc & Hi).
  unfold SetupGroups.step7_group; simpl.
  destruct (http w (SetupGroups.group_lookup t)) as [w1 rp].
  simpl in Hrp; subst rp; simpl.
  unfold response_json. rewrite Hb; simpl.
  rewrite Ht; simpl. rewrite Hc; simpl. rewrite Hi; simpl. auto.
Qed.

(** The custom mapper of STEP 5 is posted whatever the realm holds. *)
Lemma groups_custom_mapper_posted t scope_id w :
  exchanges (trace (exec (SetupGroups.step5_custom_mapper t scope_id) w))
  = [(SetupGroups.custom_mapper_creation t scope_id,
      snd (http w (SetupGroups.custom_mapper_creation t scope_id)))].
Proof.
  unfold SetupGroups.step5_custom_mapper; simpl.
  destruct (http w (SetupGroups.custom_mapper_creation t scope_id))
    as [w1 [|r]]; simpl; [reflexivity|].
  destruct (status_code r =? 201); simpl; [reflexivity|].
  destruct (status_code r =? 409); reflexivity.
Qed.
End Found.

(** C2, amended.  For the client, each realm role, the client scope and
    the protocol mapper of [KeycloakSetup], and for the client, each realm
    role, the client scope, the group mapper and the group of the groups
    script: when the lookup finds the resource, the step returns what it
    found and the lookup is the only request it sends (no [POST]).  The
    custom [organization_id] mapper of the groups script has no lookup: it
    is posted in every run. *)
Theorem found_is_not_created :
  forall (W : Type) (http : W -> request -> W * reply)
         (entropy : W -> W * string) self t scope_id role success uuid
         (w : W) (id : json),
    (finds_first true (snd (http w (KeycloakSetup.client_lookup self))) id ->
     result (exec http entropy (KeycloakSetup.create_client self) w) = Done id
     /\ exchanges (trace (exec http entropy (KeycloakSetup.create_client self) w))
        = [(KeycloakSetup.client_lookup self,
            snd (http w (KeycloakSetup.client_lookup self)))])
    /\
    (finds_role (snd (http w (KeycloakSetup.role_lookup self role))) ->
     result (exec http entropy (KeycloakSetup.create_role self role success) w)
     = Done success
     /\ exchanges (trace (exec http entropy
                            (KeycloakSetup.create_role self role success) w))
        = [(KeycloakSetup.role_lookup self role,
            snd (http w (KeycloakSetup.role_lookup self role)))])
    /\
    (finds_scope (snd (http w (KeycloakSetup.scope_listing self))) id ->
     result (exec http entropy (KeycloakSetup.create_client_scope self) w)
     = Done id
     /\ exchanges (trace (exec http entropy
                            (KeycloakSetup.create_client_scope self) w))
        = [(KeycloakSetup.scope_listing self,
            snd (http w (KeycloakSetup.scope_listing self)))])
    /\
    (finds_mapper (snd (http w (KeycloakSetup.mapper_listing self scope_id))) ->
     result (exec http entropy
               (KeycloakSetup.create_protocol_mapper self scope_id) w)
     = Done true
     /\ exchanges (trace (exec http entropy
                            (KeycloakSetup.create_protocol_mapper self scope_id) w))
        = [(KeycloakSetup.mapper_listing self scope_id,
            snd (http w (KeycloakSetup.mapper_listing self scope_id)))])
    /\
    (finds_first false (snd (http w (SetupGroups.client_lookup t))) id ->
     result (exec http entropy (SetupGroups.step2_client t) w) = Done id
     /\ exchanges (trace (exec http entropy (SetupGroups.step2_client t) w))
        = [(SetupGroups.client_lookup t,
            snd (http w (SetupGroups.client_lookup t)))])
    /\
    (finds_role (snd (http w (SetupGroups.role_lookup t role))) ->
     result (exec http entropy (SetupGroups.create_role t role tt) w) = Done tt
     /\ exchanges (trace (exec http entropy (SetupGroups.create_role t role tt) w))
        = [(SetupGroups.role_lookup t role,
            snd (http w (SetupGroups.role_lookup t role)))])
    /\
    (finds_group_scope (snd (http w (SetupGroups.scope_listing t))) id ->
     result (exec http entropy (SetupGroups.step4_scope t) w) = Done id
     /\ exchanges (trace (exec http entropy (SetupGroups.step4_scope t) w))
        = [(SetupGroups.scope_listing t,
            snd (http w (SetupGroups.scope_listing t)))])
    /\
    (finds_group_mapper (snd (http w (SetupGroups.mapper_listing t scope_id))) ->
     result (exec http entropy (SetupGroups.step5_group_mapper t scope_id) w)
     = Done tt
     /\ exchanges (trace (exec http entropy
                            (SetupGroups.step5_group_mapper t scope_id) w))
        = [(SetupGroups.mapper_listing t scope_id,
            snd (http w (SetupGroups.mapper_listing t scope_id)))])
    /\
    (finds_first false (snd (http w (SetupGroups.group_lookup t))) id ->
     result (exec http entropy (SetupGroups.step7_group t uuid) w) = Done id
     /\ exchanges (trace (exec http entropy (SetupGroups.step7_group t uuid) w))
        = [(SetupGroups.group_lookup t,
            snd (http w (SetupGroups.group_lookup t)))])
    /\
    exchanges (trace (exec http entropy
                        (SetupGroups.step5_custom_mapper t scope_id) w))
    = [(SetupGroups.custom_mapper_creation t scope_id,
        snd (http w (SetupGroups.custom_mapper_creation t scope_id)))].
Proof.
  intros W http entropy self t scope_id role success uuid w id.
  refine (conj _ (conj _ (conj _ (conj _ (conj _ (conj _ (conj _ (conj _
            (conj _ _))))))))).
  - apply setup_client_found.
  - apply setup_role_found.
  - apply setup_scope_found.
  - apply setup_mapper_found.
  - apply groups_client_found.
  - apply groups_role_found.
  - apply groups_scope_found.
  - apply groups_group_mapper_found.
  - apply groups_group_found.
  - apply groups_custom_mapper_posted.
Qed.

Lemma found_is_not_created_witness :
  result (Canned.play (KeycloakSetup.create_client demo_self)
            [Canned.answer 200 (JArr [JObj [("id", JStr "c-1")]])] [])
  = Done (JStr "c-1")
  /\ exchanges (trace (Canned.play (KeycloakSetup.create_client demo_self)
                         [Canned.answer 200 (JArr [JObj [("id", JStr "c-1")]])] []))
     = [(KeycloakSetup.client_lookup demo_self,
         Canned.answer 200 (JArr [JObj [("id", JStr "c-1")]]))].
Proof.
  refine (proj1 (found_is_not_created Canned.world Canned.http Canned.entropy
                   demo_self (JStr "tok") (JStr "s-1") "User" true "uuid-1"
                   (Canned.mkWorld
                      [Canned.answer 200 (JArr [JObj [("id", JStr "c-1")]])] [])
                   (JStr "c-1")) _).
  exists (mkResponse 200 None (Some (JArr [JObj [("id", JStr "c-1")]]))).
  exists (JArr [JObj [("id", JStr "c-1")]]).
  exists (JObj [("id", JStr "c-1")]).
  repeat split; reflexivity.
Defined.

(** A scope that holds the custom mapper already. *)
Definition replies_custom_mapper_there : list reply :=
  [ Canned.answer 200 (JArr [JObj [("name", JStr "organization-id-from-group")]]);
    Canned.empty 409 ].

(** C2 as stated fails: the lookup of STEP 5 finds the mapper
    [organization-id-from-group], and the script posts that mapper. *)
Lemma found_is_not_created_counterexample : ~ C2_as_stated.
Proof.
  intros H.
  specialize (H Canned.world Canned.http Canned.entropy (JStr "tok") (JStr "s-1")
                (Canned.mkWorld replies_custom_mapper_there [])).
  assert (Hf : finds_group_mapper
                 (snd (Canned.http (Canned.mkWorld replies_custom_mapper_there [])
                         (SetupGroups.mapper_listing (JStr "tok") (JStr "s-1"))))).
  { exists (mkResponse 200 None
              (Some (JArr [JObj [("name", JStr "organization-id-from-group")]]))).
    exists (JArr [JObj [("name", JStr "organization-id-from-group")]]).
    exists [JObj [("name", JStr "organization-id-from-group")]].
    exists (JObj [("name", JStr "organization-id-from-group")]).
    exists []. repeat split; reflexivity. }
  specialize (H Hf). vm_compute in H.
  inversion H as [|? ? _ H']. inversion H' as [|? ? Hp _]. discriminate Hp.
Qed.

(** ** C9: what the attribute update changes *)

Lemma dict_get_set_same f k v : dict_get (dict_set f k v) k = Some v.
Proof.
  induction f as [|[k' v'] f IH]; simpl.
  - now rewrite String.eqb_refl.
  - destruct (k' =? k)%string eqn:E; simpl; rewrite E; [reflexivity | exact IH].
Qed.

Lemma dict_get_set_other f k v k' :
  k' <> k -> dict_get (dict_set f k v) k' = dict_get f k'.
Proof.
  intros Hk. induction f as [|[k0 v0] f IH]; simpl.
  - apply String.eqb_neq in Hk. rewrite String.eqb_sym in Hk. now rewrite Hk.
  - destruct (k0 =? k)%string eqn:E; simpl.
    + apply String.eqb_eq in E; subst k0.
      destruct (k =? k')%string eqn:E'; [|reflexivity].
      apply String.eqb_eq in E'. congruence.
    + now rewrite IH.
Qed.

(** The attributes of a user representation: the dict under
    ["attributes"], the empty one when the key is absent. *)
Definition attributes_of (fields : list (string * json)) : list (string * json) :=
  match dict_get fields "attributes" with
  | Some (JObj a) => a
  | _ => []
  end.

(** [after] is [before] but for [attributes.organization_id], which is
    [[uuid]]: every other field of the user, and every other attribute,
    is what it was. *)
Definition only_organization_id_set (before after : json) (uuid : string) : Prop :=
  exists fields fields' attrs',
    before = JObj fields /\ after = JObj fields'
    /\ (forall k, k <> "attributes" -> dict_get fields' k = dict_get fields k)
    /\ dict_get fields' "attributes" = Some (JObj attrs')
    /\ dict_get attrs' "organization_id" = Some (JArr [JStr uuid])
    /\ (forall a, a <> "organization_id" ->
                  dict_get attrs' a = dict_get (attributes_of fields) a).

Lemma setup_with_organization_id_frame user_data uuid after :
  KeycloakSetup.with_organization_id user_data uuid = Done after ->
  only_organization_id_set user_data after uuid.
Proof.
  unfold KeycloakSetup.with_organization_id.
  destruct user_data as [|b|n|s|l|fields]; simpl; try discriminate.
  - destruct (contains "attributes" s); discriminate.
  - destruct (existsb (fun v => eq_str v "attributes") l); discriminate.
  - destruct (dict_get fields "attributes") as [v|] eqn:Ea; simpl.
    + rewrite Ea. destruct v as [|b|n|s|l|a]; simpl; try discriminate.
      intros [= <-].
      exists fields, (dict_set fields "attributes"
                        (JObj (dict_set a "organization_id" (JArr [JStr uuid])))),
             (dict_set a "organization_id" (JArr [JStr uuid])).
      split; [reflexivity|]. split; [reflexivity|].
      split; [intros k Hk; now apply dict_get_set_other|].
      split; [apply dict_get_set_same|].
      split; [apply dict_get_set_same|].
      intros k Hk. unfold attributes_of. rewrite Ea.
      now apply dict_get_set_other.
    + rewrite dict_get_set_same. simpl. intros [= <-].
      exists fields,
        (dict_set (dict_set fields "attributes" (JObj [])) "attributes"
           (JObj [("organization_id", JArr [JStr uuid])])),
        [("organization_id", JArr [JStr uuid])].
      split; [reflexivity|]. split; [reflexivity|].
      split; [intros k Hk; now rewrite !dict_get_set_other by exact Hk|].
      split; [apply dict_get_set_same|].
      split; [reflexivity|].
      intros k Hk. unfold attributes_of. rewrite Ea. cbn [dict_get].
      apply String.eqb_neq in Hk. rewrite String.eqb_sym in Hk.
      now rewrite Hk.
Qed.

Lemma groups_with_organization_id_frame user_data uuid after :
  SetupGroups.with_organization_id user_data uuid = Done after ->
  only_organization_id_set user_data after uuid.
Proof.
  unfold SetupGroups.with_organization_id.
  destruct user_data as [|b|n|s|l|fields]; simpl; try discriminate.
  destruct (dict_get fields "attributes") as [v|] eqn:Ea; simpl.
  - destruct v as [|b|n|s|l|a]; simpl; try discriminate.
    intros [= <-].
    exists fields,
      (dict_set (dict_set fields "attributes" (JObj a)) "attributes"
         (JObj (dict_set a "organization_id" (JArr [JStr uuid])))),
      (dict_set a "organization_id" (JArr [JStr uuid])).
    split; [reflexivity|]. split; [reflexivity|].
    split; [intros k Hk; now rewrite !dict_get_set_other by exact Hk|].
    split; [apply dict_get_set_same|].
    split; [apply dict_get_set_same|].
    intros k Hk. unfold attributes_of. rewrite Ea.
    now apply dict_get_set_other.
  - intros [= <-].
    exists fields,
      (dict_set (dict_set fields "attributes" (JObj [])) "attributes"
         (JObj [("organization_id", JArr [JStr uuid])])),
      [("organization_id", JArr [JStr uuid])].
    split; [reflexivity|]. split; [reflexivity|].
    split; [intros k Hk; now rewrite !dict_get_set_other by exact Hk|].
    split; [apply dict_get_set_same|].
    split; [reflexivity|].
    intros k Hk. unfold attributes_of. rewrite Ea. cbn [dict_get].
    apply String.eqb_neq in Hk. rewrite String.eqb_sym in Hk.
    now rewrite Hk.
Qed.

Section AttributeUpdate.
Variable W : Type.
Variable http : W -> request -> W * reply.
Variable entropy : W -> W * string.
Notation exec := (exec http entropy).

Lemma setup_attribute_update self user_id w rq rp :
  verb rq = PUT ->
  In (Sent rq rp) (trace (exec (KeycloakSetup.set_user_attribute self user_id) w)) ->
  exists r before after,
    snd (http w (KeycloakSetup.user_read self user_id)) = Answer r
    /\ body r = Some before
    /\ rq = KeycloakSetup.user_update self user_id after
    /\ only_organization_id_set before after
         (KeycloakSetup.organization_uuid self).
Proof.
  intros Hv. unfold KeycloakSetup.set_user_attribute; simpl.
  destruct (http w (KeycloakSetup.user_read self user_id)) as [w1 [|r]]; simpl.
  - intros H; located H; discriminate Hv.
  - unfold raise_for_status, response_json, KeycloakSetup.print_response_of.
    destruct (is_error_status (status_code r)); simpl.
    { destruct (has_response (HTTPError r)); simpl;
        intros H; located H; discriminate Hv. }
    destruct (body r) as [j|] eqn:Eb; simpl;
      [|intros H; located H; discriminate Hv].
    destruct (KeycloakSetup.with_organization_id j
                (KeycloakSetup.organization_uuid self)) as [after|e] eqn:Ew;
      simpl.
    + apply setup_with_organization_id_frame in Ew.
      destruct (http w1 (KeycloakSetup.user_update self user_id after))
        as [w2 [|r2]]; simpl.
      * intros H; located H; try discriminate Hv.
        exists r, j, after; auto.
      * destruct (is_error_status (status_code r2)); simpl;
          [destruct (has_response (HTTPError r2)); simpl|];
          intros H; located H; try discriminate Hv;
          exists r, j, after; auto.
    + pose proof (builtin_setup_with_organization_id _ _ _ Ew) as He.
      destruct e; try discriminate He; simpl;
        try (destruct (has_response _); simpl);
        intros H; located H; discriminate Hv.
Qed.

Lemma groups_attribute_update t user_id uuid w rq rp :
  verb rq = PUT ->
  In (Sent rq rp)
     (trace (exec (SetupGroups.step9_set_attribute t user_id uuid) w)) ->
  exists r before after,
    snd (http w (SetupGroups.user_read t user_id)) = Answer r
    /\ body r = Some before
    /\ rq = SetupGroups.user_update t user_id after
    /\ only_organization_id_set before after uuid.
Proof.
  intros Hv. unfold SetupGroups.step9_set_attribute; simpl.
  destruct (http w (SetupGroups.user_read t user_id)) as [w1 [|r]]; simpl.
  - intros H; located H; discriminate Hv.
  - unfold response_json.
    destruct (body r) as [j|] eqn:Eb; simpl;
      [|intros H; located H; discriminate Hv].
    destruct (SetupGroups.with_organization_id j uuid) as [after|e] eqn:Ew;
      simpl.
    + apply groups_with_organization_id_frame in Ew.
      destruct (http w1 (SetupGroups.user_update t user_id after))
        as [w2 [|r2]]; simpl.
      * intros H; located H; try discriminate Hv.
        exists r, j, after; auto.
      * destruct (status_code r2 =? 204); simpl;
          intros H; located H; try discriminate Hv;
          exists r, j, after; auto.
    + intros H; located H; discriminate Hv.
Qed.
End AttributeUpdate.


Definition demo_user : json :=
  JObj [("id", JStr "u-1"); ("email", JStr "admin@example.com");
        ("attributes", JObj [("locale", JArr [JStr "pt"])])].

Definition demo_user_updated : json :=
  JObj [("id", JStr "u-1"); ("email", JStr "admin@example.com");
        ("attributes",
         JObj [("locale", JArr [JStr "pt"]);
               ("organization_id", JArr [JStr "uuid-1"])])].


(** ** C8: the tenant identifier *)

(** What a program does, without what comes back. *)
Inductive event : Type :=
| Asks (rq : request)
| Draws
| Says (l : line).

Definition event_of (e : entry) : event :=
  match e with
  | Sent rq _ => Asks rq
  | Minted _ => Draws
  | Printed l => Says l
  end.

(** [emits Q R p]: whatever the remote answers and whatever is drawn,
    [p] does events of [Q] only, and a value it returns is in [R]. *)
Inductive emits {A : Type} (Q : event -> Prop) (R : A -> Prop)
  : prog A -> Prop :=
| emits_Ret a : R a -> emits Q R (Ret a)
| emits_Raise e : emits Q R (Raise e)
| emits_Call rq k :
    Q (Asks rq) -> (forall rp, emits Q R (k rp)) -> emits Q R (Call rq k)
| emits_Uuid4 k : Q Draws -> (forall u, emits Q R (k u)) -> emits Q R (Uuid4 k)
| emits_Echo l k : Q (Says l) -> emits Q R k -> emits Q R (Echo l k).

Lemma emits_bind A B Q (R : A -> Prop) (R' : B -> Prop) (p : prog A)
    (f : A -> prog B) :
  emits Q R p -> (forall a, R a -> emits Q R' (f a)) -> emits Q R' (bind p f).
Proof. induction 1; intros Hf; simpl; try constructor; auto. Qed.

Lemma emits_try A Q (R : A -> Prop) (p : prog A) h :
  emits Q R p -> (forall e q, h e = Some q -> emits Q R q) ->
  emits Q R (try_except p h).
Proof.
  induction 1; intros Hh; simpl; try (constructor; auto; fail).
  destruct (h e) eqn:E; [eapply Hh; eassumption | constructor].
Qed.

Lemma emits_lift A Q (o : outcome A) :
  emits Q (fun a => o = Done a) (lift o).
Proof. destruct o; now constructor. Qed.

Lemma emits_post A Q (R R' : A -> Prop) (p : prog A) :
  (forall a, R a -> R' a) -> emits Q R p -> emits Q R' p.
Proof. intros HR; induction 1; constructor; auto. Qed.

Lemma emits_print Q (R : unit -> Prop) l :
  Q (Says l) -> R tt -> emits Q R (print l).
Proof. intros; now repeat constructor. Qed.

Lemma emits_send Q (R : response -> Prop) rq :
  Q (Asks rq) -> (forall r, R r) -> emits Q R (send rq).
Proof. intros H HR; constructor; [exact H | intros [|r]; now constructor]. Qed.

Lemma emits_raise_for_status Q (R : unit -> Prop) r :
  R tt -> emits Q R (raise_for_status r).
Proof.
  unfold raise_for_status; destruct (is_error_status _); now constructor.
Qed.

Lemma emits_response_json Q (R : json -> Prop) r :
  (forall j, R j) -> emits Q R (response_json r).
Proof. unfold response_json; destruct (body r); now constructor. Qed.

Lemma emits_for_each A S Q (R : S -> Prop) (l : list A) (s : S) body :
  R s -> (forall x s, R s -> emits Q R (body x s)) ->
  emits Q R (for_each l s body).
Proof.
  intros Hs Hb; revert s Hs; induction l as [|x l IH]; intros s Hs; simpl.
  - now constructor.
  - eapply emits_bind; [now apply Hb | exact IH].
Qed.

Lemma emits_except_RequestException A Q (R : A -> Prop) (h : exn -> prog A) :
  (forall e, emits Q R (h e)) ->
  forall e q, except_RequestException h e = Some q -> emits Q R q.
Proof.
  unfold except_RequestException; intros H e q.
  destruct (is_RequestException e); [intros [= <-]; apply H | discriminate].
Qed.

Lemma emits_except_Exception A Q (R : A -> Prop) (h : exn -> prog A) :
  (forall e, emits Q R (h e)) ->
  forall e q, except_Exception h e = Some q -> emits Q R q.
Proof.
  unfold except_Exception; intros H e q.
  destruct (is_Exception e); [intros [= <-]; apply H | discriminate].
Qed.

Lemma emits_except_all A Q (R : A -> Prop) (h : prog A) :
  emits Q R h -> forall e q, except_all h e = Some q -> emits Q R q.
Proof. unfold except_all; intros H e q [= <-]; exact H. Qed.

(** One rule per shape a script is written in.  The value of an
    operator is kept with the equation that gives it; of any other
    statement in the middle of a sequence nothing is kept. *)
Ltac emits_step :=
  lazymatch goal with
  | |- emits _ _ (bind (lift ?o) _) =>
      apply (emits_bind _ _ _ (fun a => o = Done a));
      [apply emits_lift | intros ? ?]
  | |- emits _ _ (bind _ _) =>
      apply (emits_bind _ _ _ (fun _ => True)); [|intros ? _]
  | |- emits _ _ (try_except _ _) => apply emits_try; [|]
  | |- forall e q, except_RequestException _ e = Some q -> _ =>
      apply emits_except_RequestException; intros
  | |- forall e q, except_Exception _ e = Some q -> _ =>
      apply emits_except_Exception; intros
  | |- forall e q, except_all _ e = Some q -> _ => apply emits_except_all
  | |- emits _ _ (lift _) =>
      eapply emits_post; [|apply emits_lift]; intros; try exact I
  | |- emits _ _ (print _) => apply emits_print; [|try exact I]
  | |- emits _ _ (send _) => apply emits_send; [|intros; try exact I]
  | |- emits _ _ (raise_for_status _) =>
      apply emits_raise_for_status; try exact I
  | |- emits _ _ (response_json _) =>
      apply emits_response_json; intros; try exact I
  | |- emits _ _ (for_each _ _ _) =>
      apply emits_for_each; [try exact I | intros ? ? _]
  | |- emits _ _ (Ret _) => apply emits_Ret; try exact I
  | |- emits _ _ (Raise _) => apply emits_Raise
  | |- emits _ _ (Echo _ _) => apply emits_Echo
  | |- emits _ _ (Call _ _) => apply emits_Call; [|intros]
  | |- emits _ _ (Uuid4 _) => apply emits_Uuid4; [|intros]
  | |- emits _ _ (if ?c then _ else _) => destruct c
  | |- emits _ _ (match ?x with _ => _ end) => destruct x
  end.

Section EmitsFacts.
Variable W : Type.
Variable http : W -> request -> W * reply.
Variable entropy : W -> W * string.
Notation exec := (exec http entropy).

Lemma emits_exec A Q (R : A -> Prop) (p : prog A) :
  emits Q R p -> forall w,
  Forall (fun e => Q (event_of e)) (trace (exec p w))
  /\ (forall a, result (exec p w) = Done a -> R a).
Proof.
  induction 1 as [a Ha|e|rq k HQ Hk IH|k HQ Hk IH|l k HQ Hk IH];
    intros w; simpl.
  - split; [constructor | now intros ? [= <-]].
  - split; [constructor | discriminate].
  - destruct (http w rq) as [w' rp]; simpl.
    destruct (IH rp w') as [F HR]. split; [now constructor | exact HR].
  - destruct (entropy w) as [w' u]; simpl.
    destruct (IH u w') as [F HR]. split; [now constructor | exact HR].
  - destruct (IH w) as [F HR]. split; [now constructor | exact HR].
Qed.
End EmitsFacts.

(** The identifiers drawn in a run, in order. *)
Definition mints (t : list entry) : list string :=
  flat_map (fun e => match e with Minted u => [u] | _ => [] end) t.

(** [j["attributes"]["organization_id"]], when [j] has it. *)
Definition organization_id_of (j : json) : option json :=
  match j with
  | JObj f =>
      match dict_get f "attributes" with
      | Some (JObj a) => dict_get a "organization_id"
      | _ => None
      end
  | _ => None
  end.

(** The tenant identifier a request carries in its body. *)
Definition carried (rq : request) : option json :=
  match sent rq with
  | Json j => organization_id_of j
  | _ => None
  end.

(** The two requests that write the identifier: the update of the user
    and the creation of the group. *)
Definition sets_tenant (rq : request) : bool :=
  match verb rq, route_of rq with
  | PUT, User _ => true
  | POST, Groups => true
  | _, _ => false
  end.

(** What follows the label on a line [   Organization UUID: ...]. *)
Definition labelled (l : line) : option line :=
  match l with
  | Lit s :: rest =>
      if (s =? "   Organization UUID: ")%string then Some rest else None
  | _ => None
  end.

(** The events of a run whose identifier is [u]: nothing is drawn; a
    request that carries an identifier carries [u], and the two that write
    one do carry it; a line with the label shows [u]. *)
Definition tenant (u : string) (ev : event) : Prop :=
  match ev with
  | Asks rq =>
      (forall v, carried rq = Some v -> v = JArr [JStr u])
      /\ (sets_tenant rq = true -> carried rq = Some (JArr [JStr u]))
  | Draws => False
  | Says l => forall rest, labelled l = Some rest -> rest = [Lit u]
  end.

(** The side conditions of [emits (tenant u)]: a request that carries no
    identifier and writes none, a line without the label or with [u]
    after it. *)
Ltac tenant_side :=
  let H := fresh "H" in
  lazymatch goal with
  | |- tenant _ (Asks _) =>
      split; [intros ? H; cbv in H; discriminate H
             | intros H; cbv in H; discriminate H]
  | |- tenant _ (Says _) =>
      intros ? H; cbv in H;
      first [discriminate H | injection H as <-; reflexivity]
  end.

Lemma setup_with_organization_id_carried user_data uuid after :
  KeycloakSetup.with_organization_id user_data uuid = Done after ->
  organization_id_of after = Some (JArr [JStr uuid]).
Proof.
  intros H. apply setup_with_organization_id_frame in H.
  destruct H as (fields & fields' & attrs' & _ & -> & _ & Ha & Ho & _).
  unfold organization_id_of. now rewrite Ha.
Qed.

Lemma groups_with_organization_id_carried user_data uuid after :
  SetupGroups.with_organization_id user_data uuid = Done after ->
  organization_id_of after = Some (JArr [JStr uuid]).
Proof.
  intros H. apply groups_with_organization_id_frame in H.
  destruct H as (fields & fields' & attrs' & _ & -> & _ & Ha & Ho & _).
  unfold organization_id_of. now rewrite Ha.
Qed.

Section TenantSetup.
Variable cfg : config.
Import KeycloakSetup.

Lemma print_response_of_tenant u R e :
  R tt -> emits (tenant u) R (print_response_of e).
Proof.
  intros HR. unfold print_response_of. destruct (has_response e).
  - apply emits_print; [tenant_side | exact HR].
  - now constructor.
Qed.

Lemma scan_scopes_tenant u v l : emits (tenant u) (fun _ => True) (scan_scopes v l).
Proof.
  induction l as [|x l IH]; simpl; repeat emits_step;
    first [exact IH | tenant_side].
Qed.

Lemma scan_mappers_tenant u l : emits (tenant u) (fun _ => True) (scan_mappers l).
Proof.
  induction l as [|x l IH]; simpl; repeat emits_step;
    first [exact IH | tenant_side].
Qed.

(** [get_admin_token] stores the token and leaves the identifier. *)
Lemma get_admin_token_tenant self :
  emits (tenant (organization_uuid self))
    (fun a => organization_uuid (snd a) = organization_uuid self)
    (get_admin_token cfg self).
Proof.
  unfold get_admin_token; repeat emits_step;
    first [reflexivity | tenant_side
          | apply print_response_of_tenant; exact I].
Qed.

Ltac plain_step :=
  repeat emits_step;
  first [ tenant_side | apply print_response_of_tenant; exact I
        | apply scan_scopes_tenant | apply scan_mappers_tenant ].

Lemma create_client_tenant self :
  emits (tenant (organization_uuid self)) (fun _ => True) (create_client self).
Proof. unfold create_client; plain_step. Qed.

Lemma create_roles_tenant self :
  emits (tenant (organization_uuid self)) (fun _ => True) (create_roles self).
Proof. unfold create_roles, create_role; plain_step. Qed.

Lemma create_client_scope_tenant self :
  emits (tenant (organization_uuid self)) (fun _ => True)
    (create_client_scope self).
Proof. unfold create_client_scope; plain_step. Qed.

Lemma create_protocol_mapper_tenant self scope_id :
  emits (tenant (organization_uuid self)) (fun _ => True)
    (create_protocol_mapper self scope_id).
Proof. unfold create_protocol_mapper; plain_step. Qed.

Lemma assign_scope_to_client_tenant self client_uuid scope_id :
  emits (tenant (organization_uuid self)) (fun _ => True)
    (assign_scope_to_client self client_uuid scope_id).
Proof. unfold assign_scope_to_client; plain_step. Qed.

Lemma find_user_by_email_tenant self email :
  emits (tenant (organization_uuid self)) (fun _ => True)
    (find_user_by_email self email).
Proof. unfold find_user_by_email; plain_step. Qed.

Lemma assign_roles_to_user_tenant self user_id :
  emits (tenant (organization_uuid self)) (fun _ => True)
    (assign_roles_to_user self user_id).
Proof. unfold assign_roles_to_user; plain_step. Qed.

Lemma print_summary_tenant self :
  emits (tenant (organization_uuid self)) (fun _ => True)
    (print_summary cfg self).
Proof. unfold print_summary; plain_step. Qed.
End TenantSetup.

Section TenantRun.
Variable cfg : config.
Import KeycloakSetup.

(** The update carries the identifier of [self]. *)
Lemma set_user_attribute_tenant self user_id :
  emits (tenant (organization_uuid self)) (fun _ => True)
    (set_user_attribute self user_id).
Proof.
  unfold set_user_attribute; repeat emits_step;
    try first [ tenant_side | apply print_response_of_tenant; exact I ].
  match goal with
  | H : with_organization_id _ _ = Done _ |- _ =>
      apply setup_with_organization_id_carried in H;
      split; [intros v Hv; cbn in Hv; congruence | intros _; exact H]
  end.
Qed.

Lemma run_tenant self :
  emits (tenant (organization_uuid self)) (fun _ => True) (run cfg self).
Proof.
  unfold run.
  do 3 (apply (emits_bind _ _ _ (fun _ => True));
        [apply emits_print; [tenant_side | exact I] | intros _ _]).
  apply (emits_bind _ _ _ _ _ _ _ (get_admin_token_tenant cfg self)).
  intros [authenticated self1] Hs; cbn [snd] in Hs; rewrite <- Hs.
  repeat emits_step;
    first [ apply create_client_tenant | apply create_roles_tenant
          | apply create_client_scope_tenant
          | apply create_protocol_mapper_tenant
          | apply assign_scope_to_client_tenant
          | apply find_user_by_email_tenant | apply set_user_attribute_tenant
          | apply assign_roles_to_user_tenant | apply print_summary_tenant ].
Qed.

(** [main] after [__init__]. *)
Lemma main_tenant u :
  emits (A := unit) (tenant u) (fun _ => True)
    (try_except
       (success <- run cfg (mkSelf (KEYCLOAK_URL cfg) (REALM_NAME cfg) None u) ;;
        Raise (SystemExit (if (success : bool) then 0 else 1)))
       (except_Exception (fun e =>
          print [Lit nl; Lit nl; Lit "❌ Unexpected error: "; Exc e] ;;
          Raise (SystemExit 1)))).
Proof.
  repeat emits_step; first [tenant_side | apply (run_tenant (mkSelf _ _ None u))].
Qed.
End TenantRun.

Section TenantGroups.
Variable pw : string.
Import SetupGroups.

Ltac plain_step := repeat emits_step; tenant_side.

Lemma step1_tenant u : emits (tenant u) (fun _ => True) (step1_authenticate pw).
Proof. unfold step1_authenticate; plain_step. Qed.

Lemma step2_tenant u t : emits (tenant u) (fun _ => True) (step2_client t).
Proof. unfold step2_client; plain_step. Qed.

Lemma step3_tenant u t : emits (tenant u) (fun _ => True) (step3_roles t).
Proof. unfold step3_roles, create_role; plain_step. Qed.

Lemma step4_tenant u t : emits (tenant u) (fun _ => True) (step4_scope t).
Proof. unfold step4_scope; plain_step. Qed.

Lemma step5_tenant u t scope_id :
  emits (tenant u) (fun _ => True) (step5_mappers t scope_id).
Proof.
  unfold step5_mappers, step5_group_mapper, step5_custom_mapper; plain_step.
Qed.

Lemma step6_tenant u t client_id scope_id :
  emits (tenant u) (fun _ => True) (step6_assign_scope t client_id scope_id).
Proof. unfold step6_assign_scope; plain_step. Qed.

(** The group is created with the identifier of the run. *)
Lemma step7_tenant u t : emits (tenant u) (fun _ => True) (step7_group t u).
Proof.
  unfold step7_group; repeat emits_step; try tenant_side.
  split; [intros v Hv; cbv in Hv; now injection Hv as <- | reflexivity].
Qed.

Lemma step8_tenant u t : emits (tenant u) (fun _ => True) (step8_find_user t).
Proof. unfold step8_find_user; plain_step. Qed.

Lemma step9_join_tenant u t user_id group_id :
  emits (tenant u) (fun _ => True) (step9_join_group t user_id group_id).
Proof. unfold step9_join_group; plain_step. Qed.

Lemma step9_attribute_tenant u t user_id :
  emits (tenant u) (fun _ => True) (step9_set_attribute t user_id u).
Proof.
  unfold step9_set_attribute; repeat emits_step; try tenant_side.
  match goal with
  | H : with_organization_id _ _ = Done _ |- _ =>
      apply groups_with_organization_id_carried in H;
      split; [intros v Hv; cbn in Hv; congruence | intros _; exact H]
  end.
Qed.

Lemma step10_tenant u t user_id :
  emits (tenant u) (fun _ => True) (step10_assign_roles t user_id).
Proof. unfold step10_assign_roles, available_role; plain_step. Qed.

Lemma groups_summary_tenant u :
  emits (tenant u) (fun _ => True) (print_summary u).
Proof. unfold print_summary; plain_step. Qed.
End TenantGroups.

(** A run whose identifier is [u]: [u] is drawn first and nothing is
    drawn after it; every request that carries an identifier carries [u],
    and the update of the user and the creation of the group do carry it;
    a line with the label shows [u]; a run that ends with status 0 has
    printed [shown]. *)
Definition tenant_run {W A : Type} (u : string) (shown : line)
    (r : execution W A) : Prop :=
  (exists t, trace r = Minted u :: t /\ mints t = [])
  /\ (forall rq rp,
        In (Sent rq rp) (trace r) ->
        (forall v, carried rq = Some v -> v = JArr [JStr u])
        /\ (sets_tenant rq = true -> carried rq = Some (JArr [JStr u])))
  /\ (forall rest,
        In (Printed (Lit "   Organization UUID: " :: rest)) (trace r) ->
        rest = [Lit u])
  /\ (exit_status (result r) = 0 -> In (Printed shown) (trace r)).

Lemma tenant_trace u (t : list entry) :
  Forall (fun e => tenant u (event_of e)) t ->
  mints t = []
  /\ (forall rq rp,
        In (Sent rq rp) (Minted u :: t) ->
        (forall v, carried rq = Some v -> v = JArr [JStr u])
        /\ (sets_tenant rq = true -> carried rq = Some (JArr [JStr u])))
  /\ (forall rest,
        In (Printed (Lit "   Organization UUID: " :: rest)) (Minted u :: t) ->
        rest = [Lit u]).
Proof.
  intros F. split; [|split].
  - induction F as [|e t He _ IH]; [reflexivity|].
    destruct e; simpl in *; [exact IH | contradiction | exact IH].
  - intros rq rp [Hin|Hin]; [discriminate|].
    rewrite Forall_forall in F. exact (F _ Hin).
  - intros rest [Hin|Hin]; [discriminate|].
    rewrite Forall_forall in F. now apply (F _ Hin).
Qed.

Section TenantScripts.
Variable W : Type.
Variable http : W -> request -> W * reply.
Variable entropy : W -> W * string.
Notation exec := (exec http entropy).

Lemma emits_trace A Q (R : A -> Prop) (p : prog A) w :
  emits Q R p -> Forall (fun e => Q (event_of e)) (trace (exec p w)).
Proof. intros H. now apply (emits_exec W http entropy A Q R p H w). Qed.

Local Opaque KeycloakSetup.get_admin_token KeycloakSetup.create_client
  KeycloakSetup.create_roles KeycloakSetup.create_client_scope
  KeycloakSetup.create_protocol_mapper KeycloakSetup.assign_scope_to_client
  KeycloakSetup.find_user_by_email KeycloakSetup.set_user_attribute
  KeycloakSetup.assign_roles_to_user KeycloakSetup.print_summary
  KeycloakSetup.run.
Local Opaque SetupGroups.step1_authenticate SetupGroups.step2_client
  SetupGroups.step3_roles SetupGroups.step4_scope SetupGroups.step5_mappers
  SetupGroups.step6_assign_scope SetupGroups.step7_group
  SetupGroups.step8_find_user SetupGroups.step9_join_group
  SetupGroups.step9_set_attribute SetupGroups.step10_assign_roles
  SetupGroups.print_summary.

Lemma exec_Uuid4 A (k : string -> prog A) w :
  exec (Uuid4 k) w
  = let (w', u) := entropy w in log (Minted u) (exec (k u) w').
Proof. reflexivity. Qed.

(** [main]: the identifier first, then events of [tenant] only. *)
Lemma main_events cfg w :
  exists t,
    trace (exec (KeycloakSetup.main cfg) w) = Minted (snd (entropy w)) :: t
    /\ Forall (fun e => tenant (snd (entropy w)) (event_of e)) t.
Proof.
  unfold KeycloakSetup.main, KeycloakSetup.init, uuid4. cbn [bind].
  rewrite exec_Uuid4. destruct (entropy w) as [w0 u]. cbn [snd].
  eexists; split; [reflexivity|].
  apply emits_trace with (R := fun _ => True), main_tenant.
Qed.

Lemma script_events pw w :
  exists t,
    trace (exec (SetupGroups.script pw) w) = Minted (snd (entropy w)) :: t
    /\ Forall (fun e => tenant (snd (entropy w)) (event_of e)) t.
Proof.
  unfold SetupGroups.script, SetupGroups.mint, uuid4. cbn [bind print].
  rewrite exec_Uuid4. destruct (entropy w) as [w0 u]. cbn [snd].
  eexists; split; [reflexivity|].
  apply emits_trace with (R := fun _ => True).
  repeat emits_step;
    first [ tenant_side | apply step1_tenant | apply step2_tenant
          | apply step3_tenant | apply step4_tenant | apply step5_tenant
          | apply step6_tenant | apply step7_tenant | apply step8_tenant
          | apply step9_join_tenant | apply step9_attribute_tenant
          | apply step10_tenant | apply groups_summary_tenant ].
Qed.
End TenantScripts.

Section TenantSummary.
Variable W : Type.
Variable http : W -> request -> W * reply.
Variable entropy : W -> W * string.
Notation exec := (exec http entropy).

Lemma print_summary_shows cfg self w :
  In (Printed [Lit "   Organization UUID: ";
               Lit (KeycloakSetup.organization_uuid self)])
     (trace (exec (KeycloakSetup.print_summary cfg self) w)).
Proof.
  unfold KeycloakSetup.print_summary. cbn.
  repeat first [left; reflexivity | right].
Qed.

Lemma groups_summary_shows u w :
  In (Printed (SetupGroups.summary u))
     (trace (exec (SetupGroups.print_summary u) w)).
Proof.
  unfold SetupGroups.print_summary. cbn [bind print exec log trace].
  do 3 right. now left.
Qed.

Local Opaque KeycloakSetup.get_admin_token KeycloakSetup.create_client
  KeycloakSetup.create_roles KeycloakSetup.create_client_scope
  KeycloakSetup.create_protocol_mapper KeycloakSetup.assign_scope_to_client
  KeycloakSetup.find_user_by_email KeycloakSetup.set_user_attribute
  KeycloakSetup.assign_roles_to_user KeycloakSetup.print_summary.
Local Opaque SetupGroups.mint SetupGroups.step1_authenticate
  SetupGroups.step2_client SetupGroups.step3_roles SetupGroups.step4_scope
  SetupGroups.step5_mappers SetupGroups.step6_assign_scope
  SetupGroups.step7_group SetupGroups.step8_find_user
  SetupGroups.step9_join_group SetupGroups.step9_set_attribute
  SetupGroups.step10_assign_roles SetupGroups.print_summary.

(** The run ended before the summary, and not with [True]. *)
Ltac stopped :=
  autorewrite with trace; cbn [exec result]; discriminate.

Ltac next x :=
  rewrite exec_bind;
  lazymatch goal with
  | |- context [result (exec ?p ?w)] =>
      destruct (exec p w) as [? ? [x|?]]; cbn [final trace result]
  end; [|stopped].

(** The last piece of a trace. *)
Ltac at_the_end :=
  autorewrite with trace; cbn [exec trace]; rewrite ?app_nil_r;
  repeat first [ apply in_cons | apply in_or_app; right ].

Lemma run_summary cfg self w :
  result (exec (KeycloakSetup.run cfg self) w) = Done true ->
  In (Printed [Lit "   Organization UUID: ";
               Lit (KeycloakSetup.organization_uuid self)])
     (trace (exec (KeycloakSetup.run cfg self) w)).
Proof.
  unfold KeycloakSetup.run. cbn [bind print exec].
  rewrite exec_bind.
  pose proof (proj2 (emits_exec W http entropy _ _ _ _
                       (get_admin_token_tenant cfg self) w)) as Hs.
  destruct (exec (KeycloakSetup.get_admin_token cfg self) w)
    as [w1 t1 [[authenticated self1]|e]]; cbn [final trace result] in *;
    [|stopped].
  specialize (Hs _ eq_refl); cbn [snd] in Hs; rewrite <- Hs.
  destruct authenticated; cbn [negb]; [|stopped].
  next client_uuid. destruct (truthy client_uuid); cbn [negb]; [|stopped].
  next created. destruct created; cbn [negb]; [|stopped].
  next scope_id. destruct (truthy scope_id); cbn [negb]; [|stopped].
  next mapped. destruct mapped; cbn [negb]; [|stopped].
  next assigned. destruct assigned; cbn [negb]; [|stopped].
  next user_id. destruct (truthy user_id); cbn [negb]; [|stopped].
  next attributed. destruct attributed; cbn [negb]; [|stopped].
  next granted. destruct granted; cbn [negb]; [|stopped].
  intros _. rewrite exec_bind.
  lazymatch goal with
  | |- context [exec (KeycloakSetup.print_summary cfg self1) ?w9] =>
      pose proof (print_summary_shows cfg self1 w9) as Hp;
      destruct (exec (KeycloakSetup.print_summary cfg self1) w9)
        as [w' t' [[]|e]]
  end; cbn [final trace result] in *; at_the_end; exact Hp.
Qed.
Lemma main_summary cfg w :
  exit_status (result (exec (KeycloakSetup.main cfg) w)) = 0 ->
  In (Printed [Lit "   Organization UUID: "; Lit (snd (entropy w))])
     (trace (exec (KeycloakSetup.main cfg) w)).
Proof.
  pose proof (exec_main W http entropy cfg w) as Hm.
  pose proof (run_summary cfg
                (KeycloakSetup.mkSelf (KEYCLOAK_URL cfg) (REALM_NAME cfg) None
                   (snd (entropy w))) (fst (entropy w))) as Hr.
  destruct (entropy w) as [w0 u]. cbv zeta in Hm. cbn [fst snd] in *.
  destruct Hm as [(tail & -> & _) ->].
  destruct (result (exec (KeycloakSetup.run cfg _) w0)) as [[|]|e];
    try discriminate.
  intros _. right. apply in_or_app. left. now apply Hr.
Qed.

(** A step of the groups script that ended the run, ended it with
    status 1. *)
Ltac exited :=
  autorewrite with trace; cbn [exec result];
  let H := fresh in
  intros H; rewrite exits_with_1_status in H by assumption; discriminate H.

Lemma script_summary pw w :
  exit_status (result (exec (SetupGroups.script pw) w)) = 0 ->
  In (Printed (SetupGroups.summary (snd (entropy w))))
     (trace (exec (SetupGroups.script pw) w)).
Proof.
  unfold SetupGroups.script. rewrite exec_bind.
  destruct (exec_mint W http entropy w) as (t0 & -> & _).
  cbn [final trace result].
  run_step (step1_sends pw) as t; [|exited].
  run_step (step2_sends t) as client_id; [|exited].
  run_step (step3_sends t) as u3; [|exited].
  run_step (step4_sends t) as scope_id; [|exited].
  run_step (step5_sends t scope_id) as u5; [|exited].
  run_step (step6_sends t client_id scope_id) as u6; [|exited].
  run_step (step7_sends t (snd (entropy w))) as group_id; [|exited].
  run_step (step8_sends t) as user_id; [|exited].
  run_step (step9_join_sends t user_id group_id) as u9; [|exited].
  run_step (step9_attribute_sends t user_id (snd (entropy w))) as u9';
    [|exited].
  run_step (step10_sends t user_id) as u10; [|exited].
  intros _.
  lazymatch goal with
  | |- context [exec (SetupGroups.print_summary ?u) ?w9] =>
      pose proof (groups_summary_shows u w9) as Hp;
      destruct (exec (SetupGroups.print_summary u) w9) as [w' t' r']
  end.
  cbn [trace] in *. at_the_end; exact Hp.
Qed.
End TenantSummary.


(** A realm in which everything [main] looks for is there. *)
Definition replies_all_there : list reply :=
  [ Canned.answer 200 (JObj [("access_token", JStr "tok")]);
    Canned.answer 200 (JArr [JObj [("id", JStr "c-1")]]);
    Canned.answer 200 (JObj [("name", JStr "PlatformAdmin")]);
    Canned.answer 200 (JObj [("name", JStr "OrgAdmin")]);
    Canned.answer 200 (JObj [("name", JStr "User")]);
    Canned.answer 200
      (JArr [JObj [("id", JStr "s-1"); ("name", JStr "organization")]]);
    Canned.answer 200 (JArr [JObj [("name", JStr "organization-id-mapper")]]);
    Canned.empty 204;
    Canned.answer 200 (JArr [JObj [("id", JStr "u-1")]]);
    Canned.answer 200 demo_user;
    Canned.empty 204;
    Canned.answer 200
      (JArr [JObj [("id", JStr "r-1"); ("name", JStr "PlatformAdmin")];
             JObj [("id", JStr "r-2"); ("name", JStr "OrgAdmin")];
             JObj [("id", JStr "r-3"); ("name", JStr "User")]]);
    Canned.empty 204 ].


(** ** Where a run leaves the remote *)

Section Ends.
Variable W : Type.
Variable http : W -> request -> W * reply.
Variable entropy : W -> W * string.

(** A run without its trace: the state it ends in, and its outcome. *)
Fixpoint ends {A : Type} (p : prog A) (w : W) : W * outcome A :=
  match p with
  | Ret a => (w, Done a)
  | Raise e => (w, Raised e)
  | Call rq k => let (w', rp) := http w rq in ends (k rp) w'
  | Uuid4 k => let (w', u) := entropy w in ends (k u) w'
  | Echo _ k => ends k w
  end.

Lemma ends_exec A (p : prog A) w :
  ends p w = (final (exec http entropy p w), result (exec http entropy p w)).
Proof.
  revert w; induction p as [a|e|rq k IH|k IH|l k IH]; intros w; simpl;
    try reflexivity.
  - destruct (http w rq) as [w' rp]. apply IH.
  - destruct (entropy w) as [w' u]. apply IH.
  - apply IH.
Qed.

Lemma ends_bind A B (p : prog A) (f : A -> prog B) w :
  ends (bind p f) w
  = match snd (ends p w) with
    | Done a => ends (f a) (fst (ends p w))
    | Raised e => (fst (ends p w), Raised e)
    end.
Proof.
  revert w; induction p as [a|e|rq k IH|k IH|l k IH]; intros w; simpl;
    try reflexivity.
  - destruct (http w rq) as [w' rp]. apply IH.
  - destruct (entropy w) as [w' u]. apply IH.
  - apply IH.
Qed.

Lemma ends_try A (p : prog A) h w :
  ends (try_except p h) w
  = match snd (ends p w) with
    | Done a => ends p w
    | Raised e =>
        match h e with
        | Some q => ends q (fst (ends p w))
        | None => ends p w
        end
    end.
Proof.
  revert w; induction p as [a|e|rq k IH|k IH|l k IH]; intros w; simpl;
    try reflexivity.
  - now destruct (h e).
  - destruct (http w rq) as [w' rp]. apply IH.
  - destruct (entropy w) as [w' u]. apply IH.
  - apply IH.
Qed.

Lemma ends_for_each_cons A S (x : A) (l : list A) (s : S) body w :
  ends (for_each (x :: l) s body) w
  = match snd (ends (body x s) w) with
    | Done s' => ends (for_each l s' body) (fst (ends (body x s) w))
    | Raised e => (fst (ends (body x s) w), Raised e)
    end.
Proof. cbn [for_each]. apply ends_bind. Qed.
End Ends.
Arguments ends {W} http entropy {A} p w.

(** ** The reference remote, request by request *)

Section Reference.
Import Keycloak.
Notation ends := (ends Keycloak.http Keycloak.entropy).

(** A token the remote accepts. *)
Definition accepted (t : json) (s : state) : Prop := t = JStr (issued s).

Lemma http_serve w rq :
  http w rq = (mkWorld (fst (serve (remote w) rq)) (supply w),
               Answer (snd (serve (remote w) rq))).
Proof. unfold http. now destruct (serve (remote w) rq). Qed.

(** The answer to the next request, which carries the token. *)
Ltac served := rewrite http_serve; cbn; rewrite ?String.eqb_refl; cbn.

Variable cfg : config.

Lemma fix_delete_role t role w :
  accepted t (remote w) ->
  ends (FixRoles.delete_role cfg t role tt) w
  = (mkWorld (fst (delete_role (remote w) role)) (supply w), Done tt).
Proof.
  unfold accepted; intros ->. unfold FixRoles.delete_role. cbn.
  served. unfold delete_role.
  destruct (filter (named role) (roles (remote w))); reflexivity.
Qed.
Lemma world_eta w : mkWorld (remote w) (supply w) = w.
Proof. now destruct w. Qed.

(** A loop whose turns are requests that the remote serves. *)
Lemma ends_for_each_served A (t : json) (body : A -> unit -> prog unit)
    (g : state -> A -> state) (l : list A) w :
  (forall x w, accepted t (remote w) ->
     ends (body x tt) w = (mkWorld (g (remote w) x) (supply w), Done tt)) ->
  (forall s x, issued (g s x) = issued s) ->
  accepted t (remote w) ->
  ends (for_each l tt body) w
  = (mkWorld (fold_left g l (remote w)) (supply w), Done tt).
Proof.
  intros Hb Hi. revert w; induction l as [|x l IH]; intros w Ht.
  - cbn. now rewrite world_eta.
  - rewrite ends_for_each_cons, Hb by exact Ht. cbn [fst snd].
    rewrite IH; [reflexivity|]. unfold accepted in *. cbn. now rewrite Hi.
Qed.

(** STEP 1 of fix_keycloak_roles.py. *)
Lemma fix_step1 w :
  ends (FixRoles.step1_authenticate cfg) w
  = (w, if ((ADMIN_EMAIL cfg =? username (remote w))
            && (ADMIN_PASSWORD cfg =? password (remote w)))%string
        then Done (JStr (issued (remote w)))
        else Raised (SystemExit 1)).
Proof.
  unfold FixRoles.step1_authenticate. cbn.
  destruct ((ADMIN_EMAIL cfg =? username (remote w))
            && (ADMIN_PASSWORD cfg =? password (remote w)))%string;
    cbn; now rewrite world_eta.
Qed.

Definition drop_role (s : state) (n : string) : state := fst (delete_role s n).

Lemma issued_drop_role s n : issued (drop_role s n) = issued s.
Proof.
  unfold drop_role, delete_role.
  now destruct (filter (named n) (roles s)).
Qed.

(** STEP 2. *)
Lemma fix_step2 t w :
  accepted t (remote w) ->
  ends (FixRoles.step2_delete_old_roles cfg t) w
  = (mkWorld (fold_left drop_role FixRoles.old_roles (remote w)) (supply w),
     Done tt).
Proof.
  intros Ht. unfold FixRoles.step2_delete_old_roles. cbn [bind print ends].
  apply ends_for_each_served with (t := t);
    [intros; now apply fix_delete_role | apply issued_drop_role | exact Ht].
Qed.

Lemma state_eta s :
  mkState (username s) (password s) (issued s) (counter s) (clients s)
    (roles s) (scopes s) (mappers s) (defaults s) (groups s) (users s)
    (granted s) (members s) = s.
Proof. now destruct s. Qed.

(** The realm with a role of that name: the one it has, or a new one.
    (Written field by field, so that the fields it leaves alone show.) *)
Definition ensure_role (s : state) (n : string) : state :=
  with_counter (if role_exists s n then counter s else S (counter s))
    (with_roles (if role_exists s n then roles s
                 else roles s ++ [(fresh (counter s), n)]) s).

Lemma ensure_role_found s n : role_exists s n = true -> ensure_role s n = s.
Proof. unfold ensure_role. intros ->. now destruct s. Qed.

Lemma ensure_role_new s n :
  role_exists s n = false -> ensure_role s n = add_role n s.
Proof. unfold ensure_role. now intros ->. Qed.

Lemma issued_ensure_role s n : issued (ensure_role s n) = issued s.
Proof. reflexivity. Qed.

Lemma fix_create_role t role w :
  accepted t (remote w) ->
  ends (FixRoles.create_role cfg t role tt) w
  = (mkWorld (ensure_role (remote w) role) (supply w), Done tt).
Proof.
  unfold accepted; intros ->. unfold FixRoles.create_role. cbn.
  served. unfold get_role.
  destruct (filter (named role) (roles (remote w))) eqn:E; cbn.
  - served. unfold post_role. cbn. rewrite E.
    rewrite ensure_role_new by (unfold role_exists; now rewrite E).
    reflexivity.
  - rewrite ensure_role_found by (unfold role_exists; now rewrite E).
    now rewrite world_eta.
Qed.

(** STEP 3. *)
Lemma fix_step3 t w :
  accepted t (remote w) ->
  ends (FixRoles.step3_create_roles cfg t) w
  = (mkWorld (fold_left ensure_role FixRoles.correct_roles (remote w))
       (supply w), Done tt).
Proof.
  intros Ht. unfold FixRoles.step3_create_roles. cbn [bind print ends].
  apply ends_for_each_served with (t := t);
    [intros; now apply fix_create_role | apply issued_ensure_role | exact Ht].
Qed.
(** STEP 4, the lookup of the user. *)
Lemma fix_find_user t w :
  accepted t (remote w) ->
  ends (FixRoles.step4_find_user cfg t) w
  = (w, match filter (has_email (ADMIN_EMAIL cfg)) (users (remote w)) with
        | [] => Raised (SystemExit 1)
        | f :: _ =>
            match dict_get f "id" with
            | Some v => Done v
            | None => Raised KeyError
            end
        end).
Proof.
  unfold accepted; intros ->. unfold FixRoles.step4_find_user. cbn.
  served. rewrite world_eta.
  destruct (filter (has_email (ADMIN_EMAIL cfg)) (users (remote w)))
    as [|f rest]; cbn; [reflexivity|].
  now destruct (dict_get f "id").
Qed.

Lemma with_granted_eta s : with_granted (granted s) s = s.
Proof. now destruct s. Qed.

Lemma field_role_repr_name r : field (role_repr r) "name" = Some (snd r).
Proof. reflexivity. Qed.

Lemma names_grant_repr s gs : names (map (grant_repr s) gs) = map snd gs.
Proof.
  induction gs as [|g gs IH]; [reflexivity|].
  cbn [map names flat_map]. unfold grant_repr at 1.
  rewrite field_role_repr_name. cbn [snd app]. f_equal. exact IH.
Qed.

Lemma existsb_eqb_in (n : string) (l : list string) :
  In n l -> existsb (String.eqb n) l = true.
Proof.
  intros H. apply existsb_exists. exists n. split; [exact H|].
  apply String.eqb_refl.
Qed.

(** Taking from a user the roles the listing shows takes all of them. *)
Lemma filter_listed (u : string) (l : list (string * string)) :
  filter (fun g => negb (keyed u g
                         && existsb (String.eqb (snd g))
                              (map snd (filter (keyed u) l)))) l
  = filter (fun g => negb (keyed u g)) l.
Proof.
  apply filter_ext_in. intros g Hg.
  destruct (keyed u g) eqn:Ek; [|reflexivity]. cbn [andb].
  rewrite existsb_eqb_in; [reflexivity|].
  apply in_map, filter_In. now split.
Qed.

Lemma filter_none_listed (u : string) (l : list (string * string)) :
  filter (keyed u) l = [] -> filter (fun g => negb (keyed u g)) l = l.
Proof.
  induction l as [|g l IH]; [reflexivity|]. cbn [filter].
  destruct (keyed u g); [discriminate|]. intros H. cbn. f_equal. now apply IH.
Qed.

(** The realm with no role granted to the user. *)
Definition clear_granted (u : string) (s : state) : state :=
  with_granted (filter (fun g => negb (keyed u g)) (granted s)) s.

(** STEP 4, the removal of the mapping. *)
Lemma fix_remove_old t u w :
  accepted t (remote w) ->
  filter (has_id u) (users (remote w)) <> [] ->
  ends (FixRoles.step4_remove_old_roles cfg t (JStr u)) w
  = (mkWorld (clear_granted u (remote w)) (supply w), Done tt).
Proof.
  unfold accepted; intros -> Hu. unfold FixRoles.step4_remove_old_roles. cbn.
  served. unfold get_granted, clear_granted.
  destruct (filter (has_id u) (users (remote w))) as [|f fs] eqn:Eu;
    [contradiction|]. cbn.
  destruct (filter (keyed u) (granted (remote w))) as [|g gs] eqn:Eg.
  - cbn. rewrite filter_none_listed by exact Eg.
    now rewrite with_granted_eta.
  - cbn [map truthy]. cbn. served. unfold delete_granted. rewrite Eu. cbn.
    unfold remove_granted.
    fold (names (map (grant_repr (remote w)) gs)). rewrite names_grant_repr.
    change (snd g :: map snd gs) with (map snd (g :: gs)).
    rewrite <- Eg, filter_listed. reflexivity.
Qed.
(** What the lookups of STEP 4 collect: the representations of the
    roles of [ns] that the realm has. *)
Definition available (s : state) (ns : list string) : list json :=
  flat_map (fun n => match filter (named n) (roles s) with
                     | r :: _ => [role_repr r]
                     | [] => []
                     end) ns.

Lemma fix_available t ns acc w :
  accepted t (remote w) ->
  ends (for_each ns acc (FixRoles.available_role cfg t)) w
  = (w, Done (acc ++ available (remote w) ns)%list).
Proof.
  unfold accepted; intros ->. revert acc.
  induction ns as [|n ns IH]; intros acc.
  - cbn. now rewrite app_nil_r.
  - rewrite ends_for_each_cons. unfold FixRoles.available_role at 1 2. cbn.
    served. rewrite world_eta. unfold get_role.
    destruct (filter (named n) (roles (remote w))) as [|r rs]; cbn.
    + apply IH.
    + rewrite IH, <- app_assoc. reflexivity.
Qed.

Lemma filter_named_head n (l : list (string * string)) r rs :
  filter (named n) l = r :: rs -> In r l /\ snd r = n.
Proof.
  intros E. assert (H : In r (filter (named n) l)) by (rewrite E; now left).
  apply filter_In in H. destruct H as [Hin Hn]. split; [exact Hin|].
  now apply String.eqb_eq.
Qed.

Lemma names_available s ns : names (available s ns) = filter (role_exists s) ns.
Proof.
  induction ns as [|n ns IH]; [reflexivity|].
  unfold available, role_exists in *. cbn [flat_map filter].
  destruct (filter (named n) (roles s)) as [|r rs] eqn:E.
  - exact IH.
  - destruct (filter_named_head _ _ _ _ E) as [_ Hn].
    cbn [app names flat_map]. rewrite field_role_repr_name, Hn.
    cbn [app]. f_equal. exact IH.
Qed.

Lemma known_available s ns : forallb (known_role s) (available s ns) = true.
Proof.
  apply forallb_forall. intros e He. unfold available in He.
  apply in_flat_map in He. destruct He as (n & _ & He).
  destruct (filter (named n) (roles s)) as [|r rs] eqn:E; [contradiction|].
  destruct He as [<-|[]]. destruct (filter_named_head _ _ _ _ E) as [Hin _].
  unfold known_role. cbn. apply existsb_exists. exists r. split; [exact Hin|].
  unfold paired. now rewrite !String.eqb_refl.
Qed.

(** STEP 4, the assignment. *)
Lemma fix_assign_new t u w :
  accepted t (remote w) ->
  filter (has_id u) (users (remote w)) <> [] ->
  ends (FixRoles.step4_assign_new_roles cfg t (JStr u)) w
  = (mkWorld (add_granted u
                (filter (role_exists (remote w)) FixRoles.new_roles_to_assign)
                (remote w)) (supply w), Done tt).
Proof.
  intros Ht Hu. unfold FixRoles.step4_assign_new_roles.
  cbn [bind print ends]. rewrite ends_bind, fix_available by exact Ht.
  cbn [fst snd app]. rewrite <- names_available.
  pose proof (known_available (remote w) FixRoles.new_roles_to_assign) as Hk.
  destruct (available (remote w) FixRoles.new_roles_to_assign) as [|e l] eqn:Ea.
  - cbn. unfold add_granted. cbn. now rewrite with_granted_eta, world_eta.
  - unfold accepted in Ht; subst t. cbn [truthy]. cbn -[names].
    served. unfold post_granted.
    destruct (filter (has_id u) (users (remote w))); [contradiction|].
    rewrite Hk. reflexivity.
Qed.

Lemma fix_summary w : ends (FixRoles.print_summary cfg) w = (w, Done tt).
Proof. reflexivity. Qed.
Lemma filter_paired_none u n (l : list (string * string)) :
  ~ In n (map snd (filter (keyed u) l)) -> filter (paired u n) l = [].
Proof.
  induction l as [|g l IH]; [reflexivity|]. cbn [filter].
  unfold paired at 1. unfold keyed at 1.
  destruct (fst g =? u)%string; cbn [andb map]; [|exact IH].
  intros H. destruct (snd g =? n)%string eqn:E.
  - apply String.eqb_eq in E. destruct H. now left.
  - apply IH. intros Hin. apply H. now right.
Qed.

Lemma filter_keyed_app u (l : list (string * string)) n :
  filter (keyed u) (l ++ [(u, n)]) = (filter (keyed u) l ++ [(u, n)])%list.
Proof.
  rewrite filter_app. cbn. unfold keyed at 2. cbn.
  now rewrite String.eqb_refl.
Qed.

(** Roles granted to a user who holds none of them go to the end of the
    mapping, in order. *)
Lemma granted_fold u ns (l : list (string * string)) :
  NoDup ns ->
  (forall n, In n ns -> ~ In n (map snd (filter (keyed u) l))) ->
  map snd (filter (keyed u) (fold_left (grant u) ns l))
  = (map snd (filter (keyed u) l) ++ ns)%list.
Proof.
  revert l; induction ns as [|n ns IH]; intros l Hd Hn.
  - cbn. now rewrite app_nil_r.
  - cbn [fold_left]. unfold grant at 2.
    rewrite filter_paired_none by (apply Hn; now left).
    inversion Hd as [|? ? Hnin Hd']; subst.
    rewrite IH; [|exact Hd'|].
    + rewrite filter_keyed_app, map_app, <- app_assoc. reflexivity.
    + intros m Hm. rewrite filter_keyed_app, map_app. intros Hin.
      apply in_app_or in Hin. destruct Hin as [Hin|[<-|[]]].
      * apply (Hn m); [now right | exact Hin].
      * contradiction.
Qed.

Lemma mapped_clear u s : mapped (clear_granted u s) u = [].
Proof.
  unfold mapped, clear_granted. cbn.
  induction (granted s) as [|g l IH]; [reflexivity|]. cbn [filter].
  destruct (keyed u g) eqn:E; cbn [negb]; [exact IH|].
  cbn [filter]. now rewrite E.
Qed.

Lemma mapped_assigned u ns s :
  NoDup ns -> mapped (add_granted u ns (clear_granted u s)) u = ns.
Proof.
  intros Hd. unfold mapped, add_granted. cbn [granted with_granted].
  rewrite granted_fold; [|exact Hd|].
  - fold (mapped (clear_granted u s) u). now rewrite mapped_clear.
  - intros n _. fold (mapped (clear_granted u s) u). now rewrite mapped_clear.
Qed.

Lemma role_exists_ensure s n : role_exists (ensure_role s n) n = true.
Proof.
  destruct (role_exists s n) eqn:E; [now rewrite ensure_role_found|].
  rewrite ensure_role_new by exact E. unfold role_exists in *. cbn.
  rewrite filter_app. cbn. rewrite String.eqb_refl.
  now destruct (filter (named n) (roles s)).
Qed.

Lemma role_exists_kept s n m :
  role_exists s m = true -> role_exists (ensure_role s n) m = true.
Proof.
  destruct (role_exists s n) eqn:E; [now rewrite ensure_role_found|].
  rewrite ensure_role_new by exact E. unfold role_exists. cbn.
  rewrite filter_app.
  destruct (filter (named m) (roles s)); [discriminate | reflexivity].
Qed.

Lemma fold_left_frame A B (g : state -> A -> state) (pr : state -> B)
    (l : list A) s :
  (forall s x, pr (g s x) = pr s) -> pr (fold_left g l s) = pr s.
Proof.
  intros H. revert s; induction l as [|x l IH]; intros s; [reflexivity|].
  cbn. now rewrite IH.
Qed.

Lemma users_drop_role s n : users (drop_role s n) = users s.
Proof.
  unfold drop_role, delete_role. now destruct (filter (named n) (roles s)).
Qed.

Lemma users_ensure_role s n : users (ensure_role s n) = users s.
Proof. reflexivity. Qed.

(** The user a lookup by e-mail brings is one a lookup by id finds. *)
Lemma found_by_id e u (l : list (list (string * json))) f rest :
  filter (has_email e) l = f :: rest ->
  dict_get f "id" = Some (JStr u) ->
  filter (has_id u) l <> [].
Proof.
  intros E Hid.
  assert (Hin : In f (filter (has_id u) l)).
  { apply filter_In. split.
    - assert (H : In f (filter (has_email e) l)) by (rewrite E; now left).
      now apply filter_In in H.
    - unfold has_id. rewrite Hid. cbn. apply String.eqb_refl. }
  intros H0. now rewrite H0 in Hin.
Qed.

(** An id that is no string addresses nothing. *)
Lemma fix_remove_old_other t v w :
  accepted t (remote w) ->
  (forall u, v <> JStr u) ->
  snd (ends (FixRoles.step4_remove_old_roles cfg t v) w)
  = Raised JSONDecodeError.
Proof.
  unfold accepted; intros -> Hv. unfold FixRoles.step4_remove_old_roles.
  destruct v as [|b|n|u|l|f]; cbn; served; try reflexivity.
  now destruct (Hv u).
Qed.

(** The realm after STEP 3. *)
Definition roles_fixed (s : state) : state :=
  fold_left ensure_role FixRoles.correct_roles
    (fold_left drop_role FixRoles.old_roles s).

(** The whole script: a run that ends with status 0 found the user, and
    left the realm of STEP 3 with the mapping of that user cleared and
    the roles of [new_roles_to_assign] that the realm has granted. *)
Lemma fix_script w :
  exit_status (snd (ends (FixRoles.script cfg) w)) = 0 ->
  exists u f rest,
    filter (has_email (ADMIN_EMAIL cfg)) (users (remote w)) = f :: rest
    /\ dict_get f "id" = Some (JStr u)
    /\ remote (fst (ends (FixRoles.script cfg) w))
       = add_granted u
           (filter (role_exists (roles_fixed (remote w)))
              FixRoles.new_roles_to_assign)
           (clear_granted u (roles_fixed (remote w))).
Proof.
  unfold FixRoles.script.
  destruct ((ADMIN_EMAIL cfg =? "") || (ADMIN_PASSWORD cfg =? ""))%string;
    [discriminate|].
  unfold FixRoles.body_of_script. cbn [bind print ends].
  rewrite ends_bind, fix_step1. cbn [fst snd].
  destruct ((ADMIN_EMAIL cfg =? username (remote w))
            && (ADMIN_PASSWORD cfg =? password (remote w)))%string;
    [|discriminate].
  set (t := JStr (issued (remote w))).
  assert (H2 : accepted t (remote w)) by reflexivity.
  rewrite ends_bind, fix_step2 by exact H2. cbn [fst snd].
  assert (H3 : accepted t (fold_left drop_role FixRoles.old_roles (remote w))).
  { unfold accepted, t.
    now rewrite (fold_left_frame _ _ drop_role issued) by apply issued_drop_role. }
  rewrite ends_bind, fix_step3 by exact H3. cbn [fst snd remote supply].
  change (fold_left ensure_role FixRoles.correct_roles
            (fold_left drop_role FixRoles.old_roles (remote w)))
    with (roles_fixed (remote w)).
  assert (H4 : accepted t (roles_fixed (remote w))).
  { unfold accepted, roles_fixed.
    rewrite (fold_left_frame _ _ ensure_role issued) by apply issued_ensure_role.
    exact H3. }
  assert (Hu : users (roles_fixed (remote w)) = users (remote w)).
  { unfold roles_fixed.
    rewrite (fold_left_frame _ _ ensure_role users) by apply users_ensure_role.
    now rewrite (fold_left_frame _ _ drop_role users) by apply users_drop_role. }
  clear H2 H3. revert H4 Hu.
  generalize (roles_fixed (remote w)); intros s3 H4 Hu.
  rewrite ends_bind, fix_find_user by exact H4. cbn [fst snd remote supply].
  rewrite Hu.
  destruct (filter (has_email (ADMIN_EMAIL cfg)) (users (remote w)))
    as [|f rest] eqn:Ef; [discriminate|].
  destruct (dict_get f "id") as [v|] eqn:Eid; [|discriminate].
  rewrite ends_bind.
  assert (Hv : (exists u, v = JStr u) \/ (forall u, v <> JStr u)).
  { destruct v; try (right; discriminate). left. now eexists. }
  destruct Hv as [[u ->]|Hv].
  - assert (Hx : filter (has_id u) (users s3) <> []).
    { rewrite Hu. eapply found_by_id; eassumption. }
    rewrite fix_remove_old by assumption. cbn [fst snd remote supply].
    rewrite ends_bind, fix_assign_new; [|exact H4|exact Hx].
    cbn [fst snd remote supply].
    intros _. exists u, f, rest.
    split; [reflexivity|]. split; [exact Eid|]. reflexivity.
  - rewrite (fix_remove_old_other t v) by assumption. discriminate.
Qed.
End Reference.

(** ** C10: the mapping that fix_keycloak_roles.py leaves *)

Lemma role_exists_regranted u ns s :
  Keycloak.role_exists (Keycloak.add_granted u ns (clear_granted u s))
  = Keycloak.role_exists s.
Proof. reflexivity. Qed.

Lemma new_roles_distinct : NoDup FixRoles.new_roles_to_assign.
Proof.
  unfold FixRoles.new_roles_to_assign.
  repeat (constructor; [cbn; intuition discriminate|]). constructor.
Qed.

(** After STEP 3 the realm has the four roles. *)
Lemma roles_fixed_exist s :
  filter (Keycloak.role_exists (roles_fixed s)) FixRoles.new_roles_to_assign
  = FixRoles.new_roles_to_assign.
Proof.
  unfold roles_fixed, FixRoles.correct_roles, FixRoles.new_roles_to_assign.
  generalize (fold_left drop_role FixRoles.old_roles s); intros s2.
  cbn [fold_left filter].
  rewrite role_exists_ensure.
  do 3 (rewrite role_exists_kept;
        [|repeat first [apply role_exists_ensure | apply role_exists_kept]]).
  reflexivity.
Qed.

Section MappingRemoval.
Variable W : Type.
Variable http : W -> request -> W * reply.
Variable entropy : W -> W * string.
Notation exec := (exec http entropy).

(** The removal, against any remote: the listing, and when it shows
    roles, the deletion of the roles it shows. *)
Lemma remove_old_requests cfg t user_id w r current :
  snd (http w (FixRoles.mapping_listing cfg t user_id)) = Answer r ->
  body r = Some current ->
  requests (trace (exec (FixRoles.step4_remove_old_roles cfg t user_id) w))
  = if truthy current
    then [FixRoles.mapping_listing cfg t user_id;
          FixRoles.mapping_deletion cfg t user_id current]
    else [FixRoles.mapping_listing cfg t user_id].
Proof.
  unfold FixRoles.step4_remove_old_roles; simpl.
  destruct (http w (FixRoles.mapping_listing cfg t user_id)) as [w1 rp].
  cbn [snd]. intros -> Hb. simpl. unfold response_json. rewrite Hb. simpl.
  destruct (truthy current); simpl; [|reflexivity].
  destruct (http w1 (FixRoles.mapping_deletion cfg t user_id current))
    as [w2 [|r2]]; simpl; [reflexivity|].
  destruct (status_code r2 =? 204); reflexivity.
Qed.
End MappingRemoval.


(** A realm with the old roles, and a user who holds two of them and a
    role the script knows nothing of. *)
Definition realm_with_old_roles : Keycloak.state :=
  Keycloak.mkState "admin@example.com" "secret" "tok" 0 []
    [("r-1", "adm"); ("r-2", "User"); ("r-3", "Auditor")] [] [] [] []
    [[("id", JStr "u-1"); ("email", JStr "admin@example.com")]]
    [("u-1", "adm"); ("u-1", "Auditor"); ("u-1", "User")] [].


(* ================================================================== *)
(** * Further properties of the scripts *)
(* ================================================================== *)

(** ** The check of the credentials *)

(** X1.  setup_keycloak_multitenant.py and fix_keycloak_roles.py run
    with [KEYCLOAK_ADMIN_EMAIL] or [KEYCLOAK_ADMIN_PASSWORD] unset or
    empty stop at the check at the top of the module: no request is sent,
    no identifier is drawn, the remote is left as it is and the process
    exits with status 1. *)
Theorem missing_credentials_stop_the_script :
  forall (W : Type) (http : W -> request -> W * reply)
         (entropy : W -> W * string) (cfg : config) (w : W),
    ADMIN_EMAIL cfg = "" \/ ADMIN_PASSWORD cfg = "" ->
    (requests (trace (exec http entropy (KeycloakSetup.script cfg) w)) = []
     /\ mints (trace (exec http entropy (KeycloakSetup.script cfg) w)) = []
     /\ final (exec http entropy (KeycloakSetup.script cfg) w) = w
     /\ result (exec http entropy (KeycloakSetup.script cfg) w)
        = Raised (SystemExit 1))
    /\ (requests (trace (exec http entropy (FixRoles.script cfg) w)) = []
        /\ mints (trace (exec http entropy (FixRoles.script cfg) w)) = []
        /\ final (exec http entropy (FixRoles.script cfg) w) = w
        /\ result (exec http entropy (FixRoles.script cfg) w)
           = Raised (SystemExit 1)).
Proof.
  intros W http entropy cfg w H.
  assert (E : ((ADMIN_EMAIL cfg =? "") || (ADMIN_PASSWORD cfg =? ""))%string
              = true).
  { destruct H as [-> | ->]; [reflexivity | apply orb_true_r]. }
  unfold KeycloakSetup.script, FixRoles.script. rewrite E.
  repeat split.
Qed.

Definition config_without_password : config :=
  mkConfig "https://keycloak.example" "spooliq" "admin@example.com" "".

Lemma missing_credentials_stop_the_script_witness :
  requests (trace (Canned.play (KeycloakSetup.script config_without_password)
                     [Canned.empty 200] ["uuid-1"])) = []
  /\ result (Canned.play (FixRoles.script config_without_password)
               [Canned.empty 200] []) = Raised (SystemExit 1).
Proof.
  pose proof (missing_credentials_stop_the_script Canned.world Canned.http
                Canned.entropy config_without_password
                (Canned.mkWorld [Canned.empty 200] ["uuid-1"])
                (or_intror eq_refl)) as [[H1 _] _].
  pose proof (missing_credentials_stop_the_script Canned.world Canned.http
                Canned.entropy config_without_password
                (Canned.mkWorld [Canned.empty 200] [])
                (or_intror eq_refl)) as [_ (_ & _ & _ & H2)].
  split; [exact H1 | exact H2].
Defined.

(** ** What the scripts never send *)

Definition is_delete (rq : request) : bool :=
  match verb rq with DELETE => true | _ => false end.

(** The requests of fix_keycloak_roles.py: the token, the realm roles,
    the lookup of the user and the role mapping of a user, and no [PUT]. *)
Definition on_roles (rq : request) : bool :=
  match verb rq with
  | PUT => false
  | _ =>
      match route_of rq with
      | TokenEndpoint | Roles | Role _ | Users | RoleMappings _ => true
      | _ => false
      end
  end.

(** Events whose requests pass a test. *)
Definition asks (P : request -> bool) (ev : event) : Prop :=
  match ev with
  | Asks rq => P rq = true
  | _ => True
  end.

Lemma asks_requests P (t : list entry) :
  Forall (fun e => asks P (event_of e)) t ->
  Forall (fun rq => P rq = true) (requests t).
Proof.
  induction 1 as [|e t He _ IH]; [constructor|].
  destruct e; cbn; [constructor; assumption | exact IH | exact IH].
Qed.

Lemma print_response_of_asks P R e :
  R tt -> emits (asks P) R (KeycloakSetup.print_response_of e).
Proof.
  intros HR. unfold KeycloakSetup.print_response_of.
  destruct (has_response e); [apply emits_print; [exact I | exact HR]|].
  now constructor.
Qed.

Lemma scan_scopes_asks P v l :
  emits (asks P) (fun _ => True) (KeycloakSetup.scan_scopes v l).
Proof.
  induction l as [|x l IH]; simpl; repeat emits_step;
    first [exact IH | exact I].
Qed.

Lemma scan_mappers_asks P l :
  emits (asks P) (fun _ => True) (KeycloakSetup.scan_mappers l).
Proof.
  induction l as [|x l IH]; simpl; repeat emits_step;
    first [exact IH | exact I].
Qed.

(** What is left of a goal [emits (asks P) _ _]: a request to test, a
    line, a loop over a listing. *)
Ltac asked :=
  first [ exact I | reflexivity | apply print_response_of_asks; exact I
        | apply scan_scopes_asks | apply scan_mappers_asks ].

Lemma setup_script_asks cfg :
  emits (asks (fun rq => negb (is_delete rq))) (fun _ => True)
    (KeycloakSetup.script cfg).
Proof.
  unfold KeycloakSetup.script, KeycloakSetup.main, KeycloakSetup.init, uuid4,
    KeycloakSetup.run, KeycloakSetup.get_admin_token,
    KeycloakSetup.create_client, KeycloakSetup.create_roles,
    KeycloakSetup.create_role, KeycloakSetup.create_client_scope,
    KeycloakSetup.create_protocol_mapper,
    KeycloakSetup.assign_scope_to_client, KeycloakSetup.find_user_by_email,
    KeycloakSetup.set_user_attribute, KeycloakSetup.assign_roles_to_user,
    KeycloakSetup.print_summary.
  cbn [bind].
  repeat emits_step; asked.
Qed.

Lemma groups_script_asks pw :
  emits (asks (fun rq => negb (is_delete rq))) (fun _ => True)
    (SetupGroups.script pw).
Proof.
  unfold SetupGroups.script, SetupGroups.mint, uuid4,
    SetupGroups.step1_authenticate, SetupGroups.step2_client,
    SetupGroups.step3_roles, SetupGroups.create_role, SetupGroups.step4_scope,
    SetupGroups.step5_mappers, SetupGroups.step5_group_mapper,
    SetupGroups.step5_custom_mapper, SetupGroups.step6_assign_scope,
    SetupGroups.step7_group, SetupGroups.step8_find_user,
    SetupGroups.step9_join_group, SetupGroups.step9_set_attribute,
    SetupGroups.step10_assign_roles, SetupGroups.available_role,
    SetupGroups.print_summary.
  cbn [bind].
  repeat emits_step; asked.
Qed.

Lemma fix_script_asks cfg :
  emits (asks on_roles) (fun _ => True) (FixRoles.script cfg).
Proof.
  unfold FixRoles.script, FixRoles.body_of_script,
    FixRoles.step1_authenticate, FixRoles.step2_delete_old_roles,
    FixRoles.delete_role, FixRoles.step3_create_roles, FixRoles.create_role,
    FixRoles.step4_find_user, FixRoles.step4_remove_old_roles,
    FixRoles.step4_assign_new_roles, FixRoles.available_role,
    FixRoles.print_summary.
  cbn [bind].
  repeat emits_step; asked.
Qed.

(** X2.  Whatever the remote answers, the two set-up scripts send no
    [DELETE] request: they only read, create and update.  The requests of
    fix_keycloak_roles.py go to the token endpoint, to the realm roles, to
    the lookup of the user and to the role mapping of a user, and none of
    them is a [PUT]: the script touches no client, scope, mapper, group
    or user representation. *)
Theorem what_the_scripts_never_send :
  forall (W : Type) (http : W -> request -> W * reply)
         (entropy : W -> W * string) (cfg : config) (pw : string) (w : W),
    Forall (fun rq => is_delete rq = false)
      (requests (trace (exec http entropy (KeycloakSetup.script cfg) w)))
    /\ Forall (fun rq => is_delete rq = false)
         (requests (trace (exec http entropy (SetupGroups.script pw) w)))
    /\ Forall (fun rq => on_roles rq = true)
         (requests (trace (exec http entropy (FixRoles.script cfg) w))).
Proof.
  intros W http entropy cfg pw w. split; [|split].
  - eapply Forall_impl;
      [|apply asks_requests, emits_trace with (R := fun _ : unit => True),
          setup_script_asks].
    intros rq H. now apply negb_true_iff.
  - eapply Forall_impl;
      [|apply asks_requests, emits_trace with (R := fun _ : unit => True),
          groups_script_asks].
    intros rq H. now apply negb_true_iff.
  - apply asks_requests, emits_trace with (R := fun _ : unit => True),
      fix_script_asks.
Qed.

(** ** The token on the requests *)

(** Events whose requests carry [b] in [Authorization]. *)
Definition bears (b : option json) (ev : event) : Prop :=
  match ev with
  | Asks rq => bearer rq = b
  | _ => True
  end.

Lemma bears_exchanges b (t : list entry) :
  Forall (fun e => bears b (event_of e)) t ->
  Forall (fun x => bearer (fst x) = b) (exchanges t).
Proof.
  induction 1 as [|e t He _ IH]; [constructor|].
  destruct e; cbn; [constructor; assumption | exact IH | exact IH].
Qed.

(** The token request was granted [t]: an answer that is no error, with
    [t] under ["access_token"]. *)
Definition grants (rp : reply) (t : json) : Prop :=
  exists r j,
    rp = Answer r /\ is_error_status (status_code r) = false
    /\ body r = Some j /\ item j "access_token" = Done t.

Section TokenSteps.
Variable cfg : config.
Import KeycloakSetup.

Lemma print_response_of_bears b R e :
  R tt -> emits (bears b) R (print_response_of e).
Proof.
  intros HR. unfold print_response_of.
  destruct (has_response e); [apply emits_print; [exact I | exact HR]|].
  now constructor.
Qed.

Lemma scan_scopes_bears b v l :
  emits (bears b) (fun _ => True) (scan_scopes v l).
Proof.
  induction l as [|x l IH]; simpl; repeat emits_step;
    first [exact IH | exact I].
Qed.

Lemma scan_mappers_bears b l : emits (bears b) (fun _ => True) (scan_mappers l).
Proof.
  induction l as [|x l IH]; simpl; repeat emits_step;
    first [exact IH | exact I].
Qed.

(** The steps of [run] after the first, with the [self] they are given. *)
Definition after_authentication (self : self_t) : prog bool :=
  client_uuid <- create_client self ;;
  if negb (truthy client_uuid) then Ret false else
  created <- create_roles self ;;
  if negb created then Ret false else
  scope_id <- create_client_scope self ;;
  if negb (truthy scope_id) then Ret false else
  mapped <- create_protocol_mapper self scope_id ;;
  if negb mapped then Ret false else
  assigned <- assign_scope_to_client self client_uuid scope_id ;;
  if negb assigned then Ret false else
  user_id <- find_user_by_email self (ADMIN_EMAIL cfg) ;;
  if negb (truthy user_id) then Ret false else
  attributed <- set_user_attribute self user_id ;;
  if negb attributed then Ret false else
  granted <- assign_roles_to_user self user_id ;;
  if negb granted then Ret false else
  print_summary cfg self ;;
  Ret true.

Lemma run_after_authentication self :
  run cfg self
  = (print [Lit rule] ;;
     print [Lit "🚀 Keycloak Multi-tenant Setup"] ;;
     print [Lit rule] ;;
     '(authenticated, self) <- get_admin_token cfg self ;;
     if negb authenticated then Ret false else after_authentication self).
Proof. reflexivity. Qed.

Lemma after_authentication_bears self :
  emits (bears (token self)) (fun _ => True) (after_authentication self).
Proof.
  unfold after_authentication, create_client, create_roles, create_role,
    create_client_scope, create_protocol_mapper, assign_scope_to_client,
    find_user_by_email, set_user_attribute, assign_roles_to_user,
    print_summary, session.
  cbn [bind].
  repeat emits_step;
    first [ exact I | reflexivity | apply print_response_of_bears; exact I
          | apply scan_scopes_bears | apply scan_mappers_bears ].
Qed.
End TokenSteps.

(** A run under the token: its first request is the token request, sent
    without a token; if anything is sent after it, the token request was
    granted a token and every later request carries that token. *)
Definition token_discipline {W A : Type} (r : execution W A) : Prop :=
  exists rq0 rp0 rest,
    exchanges (trace r) = (rq0, rp0) :: rest
    /\ route_of rq0 = TokenEndpoint /\ bearer rq0 = None
    /\ (rest = []
        \/ exists t, grants rp0 t
                     /\ Forall (fun x => bearer (fst x) = Some t) rest).

Section TokenDiscipline.
Variable W : Type.
Variable http : W -> request -> W * reply.
Variable entropy : W -> W * string.
Notation exec := (exec http entropy).

Lemma get_admin_token_grants cfg self w :
  let rp := snd (http w (KeycloakSetup.token_request cfg self)) in
  let r := exec (KeycloakSetup.get_admin_token cfg self) w in
  exchanges (trace r) = [(KeycloakSetup.token_request cfg self, rp)]
  /\ (forall self1, result r = Done (true, self1) ->
        exists t, grants rp t /\ KeycloakSetup.token self1 = Some t).
Proof.
  unfold KeycloakSetup.get_admin_token; simpl.
  destruct (http w (KeycloakSetup.token_request cfg self)) as [w1 [|r]]; simpl.
  - split; [reflexivity | discriminate].
  - unfold raise_for_status, response_json, KeycloakSetup.print_response_of.
    destruct (is_error_status (status_code r)) eqn:Es; simpl.
    + destruct (has_response (HTTPError r)); simpl;
        (split; [reflexivity | discriminate]).
    + destruct (body r) as [j|] eqn:Eb; simpl.
      * destruct (item j "access_token") as [tok|e] eqn:Ei; simpl.
        -- split; [reflexivity|]. intros self1 [= <-].
           exists tok. split; [|reflexivity]. now exists r, j.
        -- destruct (item_raises _ _ _ Ei) as [-> | ->]; simpl;
             (split; [reflexivity | discriminate]).
      * split; [reflexivity | discriminate].
Qed.

Lemma run_token_discipline cfg self w :
  KeycloakSetup.token self = None ->
  token_discipline (exec (KeycloakSetup.run cfg self) w).
Proof.
  intros Hnone. rewrite run_after_authentication. cbn [bind print exec].
  rewrite exec_bind.
  destruct (get_admin_token_grants cfg self w) as [Hx Hg].
  exists (KeycloakSetup.token_request cfg self),
         (snd (http w (KeycloakSetup.token_request cfg self))).
  destruct (exec (KeycloakSetup.get_admin_token cfg self) w)
    as [w1 t1 [[[|] self1]|e]]; cbn [final trace result negb] in *.
  - destruct (Hg self1 eq_refl) as (t & Hgr & Ht).
    eexists. autorewrite with trace. rewrite Hx. cbn [app].
    split; [reflexivity|]. split; [reflexivity|]. split; [exact Hnone|].
    right. exists t. split; [exact Hgr|]. rewrite <- Ht.
    apply bears_exchanges, emits_trace with (R := fun _ : bool => True).
    apply after_authentication_bears.
  - exists []. autorewrite with trace. cbn [exec trace].
    autorewrite with trace. rewrite Hx.
    split; [reflexivity|]. split; [reflexivity|]. split; [exact Hnone|].
    now left.
  - exists []. autorewrite with trace. cbn [trace]. rewrite Hx.
    split; [reflexivity|]. split; [reflexivity|]. split; [exact Hnone|].
    now left.
Qed.

Lemma main_token_discipline cfg w :
  token_discipline (exec (KeycloakSetup.main cfg) w).
Proof.
  pose proof (exec_main W http entropy cfg w) as Hm.
  destruct (entropy w) as [w0 u]. cbv zeta in Hm.
  destruct Hm as [(tail & Ht & Htail) _].
  destruct (run_token_discipline cfg
              (KeycloakSetup.mkSelf (KEYCLOAK_URL cfg) (REALM_NAME cfg) None u)
              w0 eq_refl) as (rq0 & rp0 & rest & Hx & Hrest).
  exists rq0, rp0, rest. rewrite Ht. autorewrite with trace.
  rewrite (exchanges_tail tail Htail), app_nil_r. now split.
Qed.
End TokenDiscipline.

Section TokenDisciplineScripts.
Variable W : Type.
Variable http : W -> request -> W * reply.
Variable entropy : W -> W * string.
Notation exec := (exec http entropy).

Lemma groups_step1_grants pw w :
  let rp := snd (http w (SetupGroups.token_request pw)) in
  let r := exec (SetupGroups.step1_authenticate pw) w in
  exchanges (trace r) = [(SetupGroups.token_request pw, rp)]
  /\ (forall t, result r = Done t -> grants rp t).
Proof.
  unfold SetupGroups.step1_authenticate; simpl.
  destruct (http w (SetupGroups.token_request pw)) as [w1 [|r]]; simpl.
  - split; [reflexivity | discriminate].
  - unfold raise_for_status, response_json.
    destruct (is_error_status (status_code r)) eqn:Es; simpl.
    + split; [reflexivity | discriminate].
    + destruct (body r) as [j|] eqn:Eb; simpl.
      * destruct (item j "access_token") as [tok|e] eqn:Ei; simpl.
        -- split; [reflexivity|]. intros t [= <-]. now exists r, j.
        -- destruct (item_raises _ _ _ Ei) as [-> | ->]; simpl;
             (split; [reflexivity | discriminate]).
      * split; [reflexivity | discriminate].
Qed.

Lemma fix_step1_grants cfg w :
  let rp := snd (http w (FixRoles.token_request cfg)) in
  let r := exec (FixRoles.step1_authenticate cfg) w in
  exchanges (trace r) = [(FixRoles.token_request cfg, rp)]
  /\ (forall t, result r = Done t -> grants rp t).
Proof.
  unfold FixRoles.step1_authenticate; simpl.
  destruct (http w (FixRoles.token_request cfg)) as [w1 [|r]]; simpl.
  - split; [reflexivity | discriminate].
  - unfold raise_for_status, response_json.
    destruct (is_error_status (status_code r)) eqn:Es; simpl.
    + split; [reflexivity | discriminate].
    + destruct (body r) as [j|] eqn:Eb; simpl.
      * destruct (item j "access_token") as [tok|e] eqn:Ei; simpl.
        -- split; [reflexivity|]. intros t [= <-]. now exists r, j.
        -- destruct (item_raises _ _ _ Ei) as [-> | ->]; simpl;
             (split; [reflexivity | discriminate]).
      * split; [reflexivity | discriminate].
Qed.

Local Opaque SetupGroups.step1_authenticate FixRoles.step1_authenticate.

(** What follows the authentication bears the token it returned. *)
Ltac rest_bears t :=
  lazymatch goal with
  | |- context [exec ?p ?w1] =>
      let F := fresh "F" in
      assert (F : Forall (fun x => bearer (fst x) = Some t)
                    (exchanges (trace (exec p w1))));
      [ apply bears_exchanges, emits_trace with (R := fun _ : unit => True);
        unfold SetupGroups.step2_client, SetupGroups.step3_roles,
          SetupGroups.create_role, SetupGroups.step4_scope,
          SetupGroups.step5_mappers, SetupGroups.step5_group_mapper,
          SetupGroups.step5_custom_mapper, SetupGroups.step6_assign_scope,
          SetupGroups.step7_group, SetupGroups.step8_find_user,
          SetupGroups.step9_join_group, SetupGroups.step9_set_attribute,
          SetupGroups.step10_assign_roles, SetupGroups.available_role,
          SetupGroups.print_summary,
          FixRoles.step2_delete_old_roles, FixRoles.delete_role,
          FixRoles.step3_create_roles, FixRoles.create_role,
          FixRoles.step4_find_user, FixRoles.step4_remove_old_roles,
          FixRoles.step4_assign_new_roles, FixRoles.available_role,
          FixRoles.print_summary;
        cbn [bind]; repeat emits_step; first [exact I | reflexivity]
      | destruct (exec p w1) as [? ? ?]; cbn [final trace result] in F |- * ]
  end.

Lemma groups_token_discipline pw w :
  token_discipline (exec (SetupGroups.script pw) w).
Proof.
  unfold SetupGroups.script. rewrite exec_bind.
  destruct (exec_mint W http entropy w) as (t0 & -> & Ht0).
  cbn [final trace result]. rewrite exec_bind.
  destruct (groups_step1_grants pw (fst (entropy w))) as [Hx Hg].
  exists (SetupGroups.token_request pw),
         (snd (http (fst (entropy w)) (SetupGroups.token_request pw))).
  destruct (exec (SetupGroups.step1_authenticate pw) (fst (entropy w)))
    as [w1 t1 [t|e]]; cbn [final trace result] in *.
  - rest_bears t. eexists. autorewrite with trace. rewrite Ht0, Hx.
    cbn [app]. split; [reflexivity|]. split; [reflexivity|].
    split; [reflexivity|]. right. exists t. split; [now apply Hg | exact F].
  - exists []. autorewrite with trace. cbn [trace]. rewrite Ht0, Hx.
    split; [reflexivity|]. split; [reflexivity|]. split; [reflexivity|].
    now left.
Qed.

Lemma fix_token_discipline cfg w :
  token_discipline (exec (FixRoles.body_of_script cfg) w).
Proof.
  unfold FixRoles.body_of_script. cbn [bind print exec].
  rewrite exec_bind.
  destruct (fix_step1_grants cfg w) as [Hx Hg].
  exists (FixRoles.token_request cfg),
         (snd (http w (FixRoles.token_request cfg))).
  destruct (exec (FixRoles.step1_authenticate cfg) w)
    as [w1 t1 [t|e]]; cbn [final trace result] in *.
  - rest_bears t. eexists. autorewrite with trace. rewrite Hx.
    cbn [app]. split; [reflexivity|]. split; [reflexivity|].
    split; [reflexivity|]. right. exists t. split; [now apply Hg | exact F].
  - exists []. autorewrite with trace. cbn [trace]. rewrite Hx.
    split; [reflexivity|]. split; [reflexivity|]. split; [reflexivity|].
    now left.
Qed.
End TokenDisciplineScripts.


(** ** The update of the user, twice *)

Lemma dict_set_twice f k v v' :
  dict_set (dict_set f k v) k v' = dict_set f k v'.
Proof.
  induction f as [|[k0 v0] f IH]; simpl.
  - now rewrite String.eqb_refl.
  - destruct (k0 =? k)%string eqn:E; simpl; rewrite E; [reflexivity|].
    now rewrite IH.
Qed.

(** What [with_organization_id] makes of a dict. *)
Lemma setup_with_organization_id_dict f uuid :
  KeycloakSetup.with_organization_id (JObj f) uuid
  = match dict_get f "attributes" with
    | None =>
        Done (JObj (dict_set f "attributes"
                      (JObj [("organization_id", JArr [JStr uuid])])))
    | Some (JObj a) =>
        Done (JObj (dict_set f "attributes"
                      (JObj (dict_set a "organization_id" (JArr [JStr uuid])))))
    | Some _ => Raised TypeError
    end.
Proof.
  unfold KeycloakSetup.with_organization_id. cbn [has_key].
  destruct (dict_get f "attributes") as [v|] eqn:Ea.
  - cbn [item]. rewrite Ea. now destruct v.
  - cbn [setitem item]. rewrite dict_get_set_same. cbn [setitem dict_set].
    now rewrite dict_set_twice.
Qed.

Lemma groups_with_organization_id_dict f uuid :
  SetupGroups.with_organization_id (JObj f) uuid
  = KeycloakSetup.with_organization_id (JObj f) uuid.
Proof.
  rewrite setup_with_organization_id_dict.
  unfold SetupGroups.with_organization_id. cbn [get_default].
  destruct (dict_get f "attributes") as [v|] eqn:Ea; cbn [setitem].
  - destruct v; try reflexivity. cbn [setitem]. now rewrite dict_set_twice.
  - cbn [setitem dict_set]. now rewrite dict_set_twice.
Qed.

(** X4.  The update of the user representation, [with_organization_id]
    (lines 294-297 of setup_keycloak_multitenant.py; lines 296-297 of
    setup_keycloak_groups.py do the same): once it has set an identifier,
    setting another one gives what setting that other one at first would
    have given (the last write wins, nothing of the first is left), and
    setting the same one again changes nothing. *)
Theorem organization_id_last_write_wins :
  forall (user_data : json) (u1 u2 : string) (d1 : json),
    KeycloakSetup.with_organization_id user_data u1 = Done d1 ->
    SetupGroups.with_organization_id user_data u1 = Done d1
    /\ KeycloakSetup.with_organization_id d1 u2
       = KeycloakSetup.with_organization_id user_data u2
    /\ KeycloakSetup.with_organization_id d1 u1 = Done d1.
Proof.
  intros user_data u1 u2 d1 H.
  assert (Hf : exists f, user_data = JObj f).
  { apply setup_with_organization_id_frame in H.
    destruct H as (f & _ & _ & -> & _). now exists f. }
  destruct Hf as [f ->].
  assert (Hagain : forall u,
             KeycloakSetup.with_organization_id d1 u
             = KeycloakSetup.with_organization_id (JObj f) u).
  { intros u. rewrite setup_with_organization_id_dict in H.
    rewrite (setup_with_organization_id_dict f u).
    destruct (dict_get f "attributes") as [v|] eqn:Ea.
    - destruct v; try discriminate. injection H as <-.
      rewrite setup_with_organization_id_dict, dict_get_set_same.
      now rewrite !dict_set_twice.
    - injection H as <-.
      rewrite setup_with_organization_id_dict, dict_get_set_same.
      rewrite dict_set_twice. cbn [dict_set]. now rewrite String.eqb_refl. }
  split; [now rewrite groups_with_organization_id_dict|].
  split; [apply Hagain|]. now rewrite Hagain.
Qed.

Lemma organization_id_last_write_wins_witness :
  KeycloakSetup.with_organization_id demo_user_updated "uuid-2"
  = KeycloakSetup.with_organization_id demo_user "uuid-2"
  /\ KeycloakSetup.with_organization_id demo_user_updated "uuid-1"
     = Done demo_user_updated.
Proof.
  exact (proj2 (organization_id_last_write_wins demo_user "uuid-1" "uuid-2"
                  demo_user_updated eq_refl)).
Defined.

(** ** The role step of [KeycloakSetup] *)

(** A creation request that failed: an error of the transport, or an
    answer with a status of 400..599. *)
Definition refused (x : request * reply) : bool :=
  is_post (fst x)
  && match snd x with
     | NetworkError => true
     | Answer r => is_error_status (status_code r)
     end.

Section RoleStep.
Variable W : Type.
Variable http : W -> request -> W * reply.
Variable entropy : W -> W * string.
Notation exec := (exec http entropy).

Lemma create_role_outcome self role_name success w :
  let r := exec (KeycloakSetup.create_role self role_name success) w in
  result r = Done (success && negb (existsb refused (exchanges (trace r))))
  /\ filter is_get (requests (trace r))
     = [KeycloakSetup.role_lookup self role_name].
Proof.
  unfold KeycloakSetup.create_role; simpl.
  destruct (http w (KeycloakSetup.role_lookup self role_name))
    as [w1 [|r0]]; simpl;
    [|destruct (status_code r0 =? 200); simpl;
        [split; [now rewrite andb_true_r | reflexivity]|]];
    (destruct (http w1 (KeycloakSetup.role_creation self role_name))
       as [w2 [|r]]; simpl;
     [split; [now rewrite andb_false_r | reflexivity]|];
     unfold raise_for_status, refused; simpl;
     destruct (is_error_status (status_code r)); simpl;
     (split; [now rewrite ?andb_false_r, ?andb_true_r | reflexivity])).
Qed.

Lemma create_roles_loop self l success w :
  let r := exec (for_each l success (KeycloakSetup.create_role self)) w in
  result r = Done (success && negb (existsb refused (exchanges (trace r))))
  /\ filter is_get (requests (trace r))
     = map (KeycloakSetup.role_lookup self) l.
Proof.
  revert success w; induction l as [|role_name l IH]; intros success w.
  - simpl. split; [now rewrite andb_true_r | reflexivity].
  - cbv zeta. cbn [for_each map]. rewrite exec_bind.
    destruct (create_role_outcome self role_name success w) as [Hr Hg].
    destruct (exec (KeycloakSetup.create_role self role_name success) w)
      as [w1 t1 [b1|e]]; cbn [final trace result] in *; [|discriminate].
    injection Hr as ->.
    destruct (IH (success && negb (existsb refused (exchanges t1))) w1)
      as [Hr' Hg'].
    autorewrite with trace. rewrite filter_app, Hg, Hg', Hr', existsb_app.
    split; [|reflexivity]. f_equal.
    destruct success, (existsb refused (exchanges t1)); reflexivity.
Qed.
End RoleStep.

(** X5.  [create_roles] never raises and never stops early: whatever the
    remote answers it looks every role of its list up, in order, also
    after a role could not be created, and it returns [False] exactly
    when some creation request met an error of the transport or an answer
    with a status of 400..599. *)
Theorem create_roles_tries_every_role :
  forall (W : Type) (http : W -> request -> W * reply)
         (entropy : W -> W * string) (self : KeycloakSetup.self_t) (w : W),
    result (exec http entropy (KeycloakSetup.create_roles self) w)
    = Done (negb (existsb refused
                    (exchanges (trace (exec http entropy
                                         (KeycloakSetup.create_roles self) w)))))
    /\ filter is_get
         (requests (trace (exec http entropy
                             (KeycloakSetup.create_roles self) w)))
       = map (KeycloakSetup.role_lookup self) KeycloakSetup.roles.
Proof.
  intros W http entropy self w.
  unfold KeycloakSetup.create_roles. cbn [bind print exec].
  destruct (create_roles_loop W http entropy self KeycloakSetup.roles true w)
    as [Hr Hg].
  autorewrite with trace. split; [exact Hr | exact Hg].
Qed.

(** ** The payload of the role assignment *)

Lemma eq_str_true x s : eq_str x s = true -> x = JStr s.
Proof.
  destruct x; simpl; try discriminate. intros H.
  apply String.eqb_eq in H. now subst.
Qed.

(** [o] is [{"id": ..., "name": n}], and nothing else. *)
Definition role_object (n : string) (o : json) : Prop :=
  exists id, o = JObj [("id", id); ("name", JStr n)].

Lemma find_role_object l n o :
  KeycloakSetup.find_role l n = Done (Some o) -> role_object n o.
Proof.
  induction l as [|role l IH]; simpl; [discriminate|].
  destruct (item role "name") as [name|e]; [|discriminate].
  destruct (eq_str name n) eqn:E; [|exact IH].
  apply eq_str_true in E. subst name.
  destruct (item role "id") as [id|e]; [|discriminate].
  intros [= <-]. now exists id.
Qed.

Section RoleAssignment.
Variable W : Type.
Variable http : W -> request -> W * reply.
Variable entropy : W -> W * string.
Notation exec := (exec http entropy).

(** The two ways [assign_roles_to_user] can go. *)
Definition listed_only self (r : execution W bool) : Prop :=
  requests (trace r) = [KeycloakSetup.role_listing self]
  /\ result r <> Done true.

Definition assigned_three self user_id (r : execution W bool) : Prop :=
  exists o1 o2 o3,
    role_object "PlatformAdmin" o1 /\ role_object "OrgAdmin" o2
    /\ role_object "User" o3
    /\ requests (trace r)
       = [KeycloakSetup.role_listing self;
          KeycloakSetup.role_assignment self user_id [o1; o2; o3]].

(** The run ended with the listing. *)
Ltac only_listing :=
  simpl;
  repeat match goal with
    | |- context [has_response ?e] => destruct (has_response e); simpl
    end;
  (left; split; [reflexivity | discriminate]).

Lemma assign_roles_to_user_requests self user_id w :
  listed_only self (exec (KeycloakSetup.assign_roles_to_user self user_id) w)
  \/ assigned_three self user_id
       (exec (KeycloakSetup.assign_roles_to_user self user_id) w).
Proof.
  unfold KeycloakSetup.assign_roles_to_user, listed_only, assigned_three.
  simpl.
  destruct (http w (KeycloakSetup.role_listing self)) as [w1 [|r0]]; simpl;
    [only_listing|].
  unfold raise_for_status, response_json, KeycloakSetup.print_response_of.
  destruct (is_error_status (status_code r0)); [only_listing|]. simpl.
  destruct (body r0) as [all_roles|]; [|only_listing]. simpl.
  destruct (iter all_roles) as [l|e]; [|destruct e; only_listing]. simpl.
  destruct (KeycloakSetup.find_role l "PlatformAdmin") as [[o1|]|e1] eqn:E1;
    [| |destruct e1; only_listing];
    (destruct (KeycloakSetup.find_role l "OrgAdmin") as [[o2|]|e2] eqn:E2;
     [| |destruct e2; only_listing]);
    (destruct (KeycloakSetup.find_role l "User") as [[o3|]|e3] eqn:E3;
     [| |destruct e3; only_listing]);
    try only_listing.
  right. exists o1, o2, o3.
  split; [eapply find_role_object; eassumption|].
  split; [eapply find_role_object; eassumption|].
  split; [eapply find_role_object; eassumption|].
  simpl.
  destruct (http w1 (KeycloakSetup.role_assignment self user_id [o1; o2; o3]))
    as [w2 [|rr]]; simpl; [reflexivity|].
  destruct (is_error_status (status_code rr)); simpl; [|reflexivity].
  now destruct (has_response (HTTPError rr)).
Qed.
End RoleAssignment.

(** X6.  [assign_roles_to_user] assigns all three roles or none:
    whatever the remote answers, it sends the listing of the realm roles
    and nothing else, and does not return [True]; or it sends the listing
    and then one assignment whose body is the list of exactly three
    objects [{"id", "name"}], named PlatformAdmin, OrgAdmin and User in
    that order.  (A listing that lacks one of the three gives no
    assignment at all.) *)
Theorem role_assignment_is_all_or_nothing :
  forall (W : Type) (http : W -> request -> W * reply)
         (entropy : W -> W * string) (self : KeycloakSetup.self_t)
         (user_id : json) (w : W),
    listed_only W self
      (exec http entropy (KeycloakSetup.assign_roles_to_user self user_id) w)
    \/ assigned_three W self user_id
         (exec http entropy (KeycloakSetup.assign_roles_to_user self user_id) w).
Proof. intros. apply assign_roles_to_user_requests. Qed.

(** ** The id of a created group *)

Lemma contains_slash c rest :
  contains "/" (String c rest)
  = if Ascii.eqb c "/" then true else contains "/" rest.
Proof.
  cbn [contains prefix].
  destruct (ascii_dec "/" c) as [<-|Hn].
  - now destruct rest.
  - destruct (Ascii.eqb c "/") eqn:E; [|reflexivity].
    apply Ascii.eqb_eq in E. congruence.
Qed.

Lemma last_segment_from_plain acc s :
  contains "/" s = false -> last_segment_from acc s = acc.
Proof.
  revert acc; induction s as [|c rest IH]; intros acc; [reflexivity|].
  rewrite contains_slash. cbn [last_segment_from].
  destruct (Ascii.eqb c "/"); [discriminate | apply IH].
Qed.

Lemma last_segment_from_app acc a b :
  contains "/" b = false ->
  last_segment_from acc (a ++ String "/" b) = b.
Proof.
  intros Hb. revert acc; induction a as [|c a IH]; intros acc.
  - cbn. now apply last_segment_from_plain.
  - cbn [append last_segment_from]. destruct (Ascii.eqb c "/"); apply IH.
Qed.

Section CreatedGroup.
Variable W : Type.
Variable http : W -> request -> W * reply.
Variable entropy : W -> W * string.
Notation exec := (exec http entropy).

Lemma step7_created t uuid w r :
  In (Sent (SetupGroups.group_creation t uuid) (Answer r))
     (trace (exec (SetupGroups.step7_group t uuid) w)) ->
  result (exec (SetupGroups.step7_group t uuid) w)
  = if status_code r =? 201 then
      match location r with
      | Some loc => Done (JStr (last_segment loc))
      | None => Raised AttributeError
      end
    else Raised (SystemExit 1).
Proof.
  unfold SetupGroups.step7_group; simpl.
  destruct (http w (SetupGroups.group_lookup t)) as [w1 [|r0]]; simpl;
    [intros H; located H|].
  unfold response_json.
  destruct (body r0) as [j|]; simpl; [|intros H; located H].
  destruct (truthy j); simpl.
  - destruct (index0 j) as [g|e]; simpl; [|intros H; located H].
    destruct (item g "id") as [i|e]; simpl; intros H; located H.
  - destruct (http w1 (SetupGroups.group_creation t uuid)) as [w2 [|r2]];
      simpl; [intros H; located H|].
    destruct (status_code r2 =? 201) eqn:E2; simpl.
    + destruct (location r2) as [loc|] eqn:El; simpl;
        intros H; located H; now rewrite E2, El.
    + intros H; located H; now rewrite E2.
Qed.
End CreatedGroup.

(** X7.  STEP 7 of setup_keycloak_groups.py, once it has sent the
    creation of the group and got an answer: with status 201 and a
    [Location] header the id of the group is what follows the last slash
    of the header (the whole header when it has no slash); with status
    201 and no [Location] header the script ends in an [AttributeError]
    ([None.split]); with any other status it exits with status 1. *)
Theorem created_group_id :
  forall (W : Type) (http : W -> request -> W * reply)
         (entropy : W -> W * string) (t : json) (uuid : string) (w : W)
         (r : response),
    In (Sent (SetupGroups.group_creation t uuid) (Answer r))
       (trace (exec http entropy (SetupGroups.step7_group t uuid) w)) ->
    result (exec http entropy (SetupGroups.step7_group t uuid) w)
    = (if status_code r =? 201 then
         match location r with
         | Some loc => Done (JStr (last_segment loc))
         | None => Raised AttributeError
         end
       else Raised (SystemExit 1))
    /\ (forall a b, contains "/" b = false ->
                    last_segment (a ++ String "/" b) = b)
    /\ (forall b, contains "/" b = false -> last_segment b = b).
Proof.
  intros W http entropy t uuid w r H.
  split; [now apply step7_created|]. split.
  - intros a b Hb. now apply last_segment_from_app.
  - intros b Hb. now apply last_segment_from_plain.
Qed.

Lemma created_group_id_witness :
  result (Canned.play (SetupGroups.step7_group (JStr "tok") "uuid-1")
            [Canned.answer 200 (JArr []);
             Answer (mkResponse 201
                       (Some "https://keycloak.example/admin/realms/spooliq/groups/g-7")
                       None)] [])
  = Done (JStr "g-7").
Proof.
  refine (proj1 (created_group_id Canned.world Canned.http Canned.entropy
                   (JStr "tok") "uuid-1"
                   (Canned.mkWorld
                      [Canned.answer 200 (JArr []);
                       Answer (mkResponse 201
                                 (Some "https://keycloak.example/admin/realms/spooliq/groups/g-7")
                                 None)] [])
                   (mkResponse 201
                      (Some "https://keycloak.example/admin/realms/spooliq/groups/g-7")
                      None) _)).
  vm_compute. repeat (first [left; reflexivity | right]).
Defined.

(** ** A missing user, in fix_keycloak_roles.py *)

(** The role mapping of a user. *)
Definition on_mapping (rq : request) : bool :=
  match route_of rq with
  | RoleMappings _ => true
  | _ => false
  end.

Section FixRequests.
Variable cfg : config.
Import FixRoles.

Lemma fix_step1_sends :
  sends (fun rq => about_user rq = false) (step1_authenticate cfg).
Proof. unfold step1_authenticate; repeat sends_step; reflexivity. Qed.

Lemma fix_step2_sends t :
  sends (fun rq => about_user rq = false) (step2_delete_old_roles cfg t).
Proof.
  unfold step2_delete_old_roles, delete_role; repeat sends_step; reflexivity.
Qed.

Lemma fix_step3_sends t :
  sends (fun rq => about_user rq = false) (step3_create_roles cfg t).
Proof.
  unfold step3_create_roles, create_role; repeat sends_step; reflexivity.
Qed.

Lemma fix_find_sends t :
  sends (fun rq => rq = user_lookup cfg t) (step4_find_user cfg t).
Proof. unfold step4_find_user; repeat sends_step; reflexivity. Qed.

Lemma fix_remove_sends t user_id :
  sends (fun rq => is_user_lookup rq = false)
    (step4_remove_old_roles cfg t user_id).
Proof. unfold step4_remove_old_roles; repeat sends_step; reflexivity. Qed.

Lemma fix_assign_sends t user_id :
  sends (fun rq => is_user_lookup rq = false)
    (step4_assign_new_roles cfg t user_id).
Proof.
  unfold step4_assign_new_roles, available_role; repeat sends_step;
    reflexivity.
Qed.

Lemma fix_summary_sends P : sends P (print_summary cfg).
Proof. unfold print_summary; repeat sends_step. Qed.
End FixRequests.

Lemma about_user_mapping rq : about_user rq = false -> on_mapping rq = false.
Proof.
  unfold about_user, on_mapping. now destruct (route_of rq).
Qed.

Section FixMissingUser.
Variable W : Type.
Variable http : W -> request -> W * reply.
Variable entropy : W -> W * string.
Variable cfg : config.
Notation exec := (exec http entropy).
Import FixRoles.

(** The lookup of STEP 4 goes on only when it brought a user. *)
Lemma fix_find_found t w w' tr user_id :
  exec (step4_find_user cfg t) w = mkRun w' tr (Done user_id) ->
  forall rq rp, In (Sent rq rp) tr -> ~ no_user rp.
Proof.
  unfold step4_find_user; simpl.
  destruct (http w (user_lookup cfg t)) as [w1 [|r]]; simpl; [discriminate|].
  unfold response_json.
  destruct (body r) as [j|] eqn:Eb; simpl; [|discriminate].
  destruct (truthy j) eqn:Et; simpl; [|discriminate].
  destruct (index0 j) as [u|e]; simpl; [|discriminate].
  destruct (item u "id") as [i|e]; simpl; [|discriminate].
  intros [= <- <- <-] rq rp [H|[H|[H|[]]]]; try discriminate.
  injection H as <- <-. intros (j' & Hj & Hf). congruence.
Qed.

(** The deletions of STEP 2, when the step came to its end. *)
Lemma fix_step2_requests t l w :
  forall u, result (exec (for_each l tt (delete_role cfg t)) w) = Done u ->
  requests (trace (exec (for_each l tt (delete_role cfg t)) w))
  = map (role_deletion cfg t) l.
Proof.
  revert w; induction l as [|role l IH]; intros w u; [reflexivity|].
  cbn [for_each map]. rewrite exec_bind.
  assert (H1 : forall u1, result (exec (delete_role cfg t role tt) w) = Done u1 ->
               requests (trace (exec (delete_role cfg t role tt) w))
               = [role_deletion cfg t role]).
  { unfold delete_role; simpl.
    destruct (http w (role_deletion cfg t role)) as [w1 [|r]]; simpl;
      [discriminate|].
    destruct (status_code r =? 204); [reflexivity|].
    destruct (status_code r =? 404); reflexivity. }
  destruct (exec (delete_role cfg t role tt) w) as [w1 t1 [[]|e]];
    cbn [final trace result] in *; [|discriminate].
  autorewrite with trace. intros H. rewrite (H1 tt eq_refl).
  cbn [app]. f_equal. eapply IH. exact H.
Qed.
Lemma fix_step2_all t w u :
  result (exec (step2_delete_old_roles cfg t) w) = Done u ->
  requests (trace (exec (step2_delete_old_roles cfg t) w))
  = map (role_deletion cfg t) old_roles.
Proof.
  unfold step2_delete_old_roles. cbn [bind print exec].
  autorewrite with trace. apply fix_step2_requests.
Qed.

(** A run in which the lookup of the user found nobody: no request went
    to a role mapping, the status is 1, and the old roles were deleted
    before the lookup. *)
Definition fix_guarded (r : execution W unit) : Prop :=
  forall rq rp,
    In (Sent rq rp) (trace r) -> is_user_lookup rq = true -> no_user rp ->
    Forall (fun rq => on_mapping rq = false) (requests (trace r))
    /\ exit_status (result r) = 1
    /\ exists t,
         rq = user_lookup cfg t
         /\ incl (map (role_deletion cfg t) old_roles) (requests (trace r)).

Lemma lookup_is_no_mapping t (l : list request) :
  Forall (fun rq => rq = user_lookup cfg t) l ->
  Forall (fun rq => on_mapping rq = false) l.
Proof. apply Forall_impl. now intros rq ->. Qed.

Lemma early_no_mapping (l : list request) :
  Forall (fun rq => about_user rq = false) l ->
  Forall (fun rq => on_mapping rq = false) l.
Proof. apply Forall_impl, about_user_mapping. Qed.

Lemma lookup_in (t : json) (tr : list entry) rq rp :
  Forall (fun rq => rq = user_lookup cfg t) (requests tr) ->
  In (Sent rq rp) tr -> rq = user_lookup cfg t.
Proof.
  intros F Hin. apply In_requests in Hin.
  rewrite Forall_forall in F. now apply F.
Qed.

Local Opaque step1_authenticate step2_delete_old_roles step3_create_roles
  step4_find_user step4_remove_old_roles step4_assign_new_roles print_summary.

(** The run ended before the lookup: the lookup is not in it. *)
Ltac early :=
  intros ? ? Hin Hl Hn; exfalso;
  autorewrite with trace in Hin; cbn [exec trace] in Hin; split_in Hin;
  (eapply no_lookup_in_early; [|exact Hin|exact Hl]; assumption).

(** The run went past the lookup: the lookup brought a user. *)
Ltac passed :=
  intros ? ? Hin Hl Hn; exfalso;
  autorewrite with trace in Hin; cbn [exec trace] in Hin; split_in Hin;
  first [ eapply no_lookup_in_early; [|exact Hin|exact Hl]; assumption
        | eapply no_lookup_in; [|exact Hin|exact Hl]; assumption
        | eapply fix_find_found; [|exact Hin|exact Hn]; eassumption ].

Lemma fix_script_guarded w : fix_guarded (exec (script cfg) w).
Proof.
  unfold script.
  destruct ((ADMIN_EMAIL cfg =? "") || (ADMIN_PASSWORD cfg =? ""))%string.
  { intros rq rp H. simpl in H. split_in H. }
  unfold body_of_script. cbn [bind print exec].
  run_step (fix_step1_sends cfg) as t; [|early].
  run_step (fix_step2_sends cfg t) as u2; [|early].
  match goal with
  | E : exec (step2_delete_old_roles cfg t) ?w0 = _ |- _ =>
      pose proof (fix_step2_all t w0 u2) as H2; rewrite E in H2;
      specialize (H2 eq_refl); cbn [trace] in H2
  end.
  run_step (fix_step3_sends cfg t) as u3; [|early].
  run_step (fix_find_sends cfg t) as user_id.
  - run_step (fix_remove_sends cfg t user_id) as u5; [|passed].
    run_step (fix_assign_sends cfg t user_id) as u6; [|passed].
    last_step (fix_summary_sends cfg (fun rq => is_user_lookup rq = false));
      passed.
  - intros rq rp Hin Hl Hn.
    autorewrite with trace. cbn [exec trace result].
    split; [|split].
    + rewrite ?Forall_app; repeat split;
        first [ apply Forall_nil | apply early_no_mapping; assumption
              | eapply lookup_is_no_mapping; eassumption ].
    + now apply exits_with_1_status.
    + exists t. split.
      * autorewrite with trace in Hin; cbn [exec trace] in Hin; split_in Hin;
          first [ eapply lookup_in; eassumption
                | exfalso; eapply no_lookup_in_early;
                  [|exact Hin|exact Hl]; assumption ].
      * rewrite H2. intros x Hx. apply in_or_app. right.
        apply in_or_app. now left.
Qed.
End FixMissingUser.

(** X8.  fix_keycloak_roles.py, whatever the remote answers: in a run
    in which the lookup of the user comes back with no user, no request
    goes to the role mapping of any user and the process exits with
    status 1; by then the script has sent the deletion of each of the old
    realm roles (user, adm, User), with the token of that lookup: the
    check of the user comes after the changes to the realm roles. *)
Theorem fix_roles_missing_user :
  forall (W : Type) (http : W -> request -> W * reply)
         (entropy : W -> W * string) (cfg : config) (w : W) rq rp,
    In (Sent rq rp) (trace (exec http entropy (FixRoles.script cfg) w)) ->
    is_user_lookup rq = true ->
    no_user rp ->
    Forall (fun rq => on_mapping rq = false)
      (requests (trace (exec http entropy (FixRoles.script cfg) w)))
    /\ exit_status (result (exec http entropy (FixRoles.script cfg) w)) = 1
    /\ exists t,
         rq = FixRoles.user_lookup cfg t
         /\ incl (map (FixRoles.role_deletion cfg t) FixRoles.old_roles)
              (requests (trace (exec http entropy (FixRoles.script cfg) w))).
Proof.
  intros W http entropy cfg w rq rp.
  apply (fix_script_guarded W http entropy cfg w).
Qed.

(** A realm in which the old roles are gone, the four roles are there,
    and the user is not. *)
Definition replies_fix_without_user : list reply :=
  [ Canned.answer 200 (JObj [("access_token", JStr "tok")]);
    Canned.empty 404; Canned.empty 404; Canned.empty 204;
    Canned.answer 200 (JObj [("name", JStr "PlatformAdmin")]);
    Canned.answer 200 (JObj [("name", JStr "OrgAdmin")]);
    Canned.answer 200 (JObj [("name", JStr "Owner")]);
    Canned.empty 404; Canned.empty 201;
    Canned.answer 200 (JArr []) ].

Lemma fix_roles_missing_user_witness :
  exit_status (result (Canned.play (FixRoles.script demo_config)
                         replies_fix_without_user [])) = 1
  /\ In (FixRoles.role_deletion demo_config (JStr "tok") "User")
        (requests (trace (Canned.play (FixRoles.script demo_config)
                            replies_fix_without_user []))).
Proof.
  destruct (fix_roles_missing_user Canned.world Canned.http Canned.entropy
              demo_config (Canned.mkWorld replies_fix_without_user [])
              (FixRoles.user_lookup demo_config (JStr "tok"))
              (Canned.answer 200 (JArr [])))
    as (_ & Hx & t & Ht & Hd).
  - vm_compute. repeat (first [left; reflexivity | right]).
  - reflexivity.
  - exists (JArr []). split; reflexivity.
  - split; [exact Hx|]. injection Ht as <-.
    apply Hd. right. right. now left.
Defined.

(** ** The roles that the fix and the groups script assign *)

(** The bodies of the lookups that were answered with status 200, in the
    order of the lookups: what the loops of fix_keycloak_roles.py
    (lines 137-140) and setup_keycloak_groups.py (lines 311-314) gather
    in [available_roles]. *)
Definition gathered (x : list (request * reply)) : list json :=
  flat_map (fun x =>
              match snd x with
              | Answer r =>
                  if is_get (fst x) && (status_code r =? 200) then
                    match body r with Some j => [j] | None => [] end
                  else []
              | NetworkError => []
              end) x.

Lemma gathered_app x y : gathered (x ++ y) = (gathered x ++ gathered y)%list.
Proof. unfold gathered; apply flat_map_app. Qed.

(** The line that reports the assignment, with the names of [l]. *)
Definition reported (prefix : string) (l : list string) : entry :=
  Printed [Lit prefix; Lit (FixRoles.joined l)].

Section GatheredRoles.
Variable W : Type.
Variable http : W -> request -> W * reply.
Variable entropy : W -> W * string.
Notation exec := (exec http entropy).

(** One turn of either loop, given as [turn] with its lookup [lookup]. *)
Variable lookup : string -> request.
Variable turn : string -> list json -> prog (list json).
Hypothesis lookup_get : forall role, is_get (lookup role) = true.
Hypothesis turn_eq : forall role acc,
  turn role acc
  = (response <- send (lookup role) ;;
     if status_code response =? 200 then
       j <- response_json response ;;
       Ret (acc ++ [j])%list
     else Ret acc).

Lemma turn_outcome role acc w :
  let r := exec (turn role acc) w in
  requests (trace r) = [lookup role]
  /\ forall a, result r = Done a ->
       a = (acc ++ gathered (exchanges (trace r)))%list.
Proof.
  rewrite turn_eq. simpl.
  destruct (http w (lookup role)) as [w1 [|r0]]; simpl;
    [split; [reflexivity | discriminate]|].
  unfold gathered; simpl. rewrite lookup_get; simpl.
  destruct (status_code r0 =? 200); simpl.
  - unfold response_json. destruct (body r0) as [j|]; simpl.
    + split; [reflexivity|]. now intros a [= <-].
    + split; [reflexivity | discriminate].
  - split; [reflexivity|]. intros a [= <-]. now rewrite app_nil_r.
Qed.

Lemma turns_outcome l acc w :
  let r := exec (for_each l acc turn) w in
  Forall (fun rq => is_get rq = true) (requests (trace r))
  /\ forall a, result r = Done a ->
       a = (acc ++ gathered (exchanges (trace r)))%list
       /\ requests (trace r) = map lookup l.
Proof.
  revert acc w; induction l as [|role l IH]; intros acc w.
  - simpl. split; [constructor|]. intros a [= <-].
    now rewrite app_nil_r.
  - cbv zeta. cbn [for_each map]. rewrite exec_bind.
    destruct (turn_outcome role acc w) as [Hq Ha].
    destruct (exec (turn role acc) w) as [w1 t1 [a1|e]];
      cbn [final trace result] in *.
    + destruct (IH a1 w1) as [Hg Hd]. autorewrite with trace.
      rewrite Hq. split.
      * constructor; [apply lookup_get | exact Hg].
      * intros a Hr. destruct (Hd a Hr) as [-> ->].
        rewrite (Ha a1 eq_refl), gathered_app, app_assoc.
        split; reflexivity.
    + rewrite Hq. split; [|discriminate].
      constructor; [apply lookup_get | constructor].
Qed.
End GatheredRoles.

Lemma not_post_of_gets l rq :
  Forall (fun rq => is_get rq = true) l -> In rq l -> verb rq = POST -> False.
Proof.
  intros F H E. rewrite Forall_forall in F. specialize (F _ H).
  unfold is_get in F. rewrite E in F. discriminate.
Qed.

Section Assignments.
Variable W : Type.
Variable http : W -> request -> W * reply.
Variable entropy : W -> W * string.
Notation exec := (exec http entropy).

Lemma fix_assignment cfg t user_id w :
  let run := exec (FixRoles.step4_assign_new_roles cfg t user_id) w in
  let found := gathered (exchanges (trace run)) in
  (forall rq, In rq (requests (trace run)) -> verb rq = POST ->
     rq = FixRoles.mapping_creation cfg t user_id found /\ found <> [])
  /\ (forall a, result run = Done a ->
        requests (trace run)
        = (map (FixRoles.role_lookup cfg t) FixRoles.new_roles_to_assign
           ++ match found with
              | [] => []
              | _ => [FixRoles.mapping_creation cfg t user_id found]
              end)%list)
  /\ (forall r, In (Sent (FixRoles.mapping_creation cfg t user_id found)
                      (Answer r)) (trace run) ->
        status_code r = 204 \/ status_code r = 409 ->
        In (reported "   ✅ Roles assigned: "
              ["PlatformAdmin"; "OrgAdmin"; "Owner"; "User"])
           (trace run)).
Proof.
  cbv zeta. unfold FixRoles.step4_assign_new_roles.
  cbn [bind print exec]. rewrite exec_bind.
  destruct (turns_outcome W http entropy (FixRoles.role_lookup cfg t)
              (FixRoles.available_role cfg t) (fun _ => eq_refl)
              (fun _ _ => eq_refl) FixRoles.new_roles_to_assign [] w)
    as [Hg Hd].
  destruct (exec (for_each FixRoles.new_roles_to_assign []
                    (FixRoles.available_role cfg t)) w)
    as [w1 t1 [a|e]]; cbn [final trace result] in *.
  - destruct (Hd a eq_refl) as [Ha Hq]. cbn [app] in Ha. clear Hd.
    destruct a as [|x a]; cbn [truthy].
    + cbn [exec]. autorewrite with trace. cbn [trace result].
      autorewrite with trace. rewrite !app_nil_r, <- Ha.
      split; [|split].
      * intros rq H E. destruct (not_post_of_gets _ _ Hg H E).
      * intros _ _. now rewrite app_nil_r.
      * intros r H. exfalso. apply in_inv in H.
        destruct H as [H|H]; [discriminate|].
        assert (In (FixRoles.mapping_creation cfg t user_id []) (requests t1))
          as H' by (apply (In_requests _ _ _ H)).
        exact (not_post_of_gets _ _ Hg H' eq_refl).
    + cbn [bind send exec].
      destruct (http w1 (FixRoles.mapping_creation cfg t user_id (x :: a)))
        as [w2 [|r2]]; cbn [bind exec].
      * autorewrite with trace.
        change (gathered [(FixRoles.mapping_creation cfg t user_id (x :: a),
                           NetworkError)]) with (@nil json).
        rewrite gathered_app. cbn [gathered flat_map snd app].
        rewrite app_nil_r, <- Ha. split; [|split].
        -- intros rq H E. apply in_app_or in H. destruct H as [H|H].
           ++ destruct (not_post_of_gets _ _ Hg H E).
           ++ destruct H as [<-|[]]. split; [reflexivity | discriminate].
        -- discriminate.
        -- intros r H. exfalso. apply in_inv in H.
           destruct H as [H|H]; [discriminate|].
           apply in_app_or in H. destruct H as [H|H].
           ++ apply In_requests in H.
              exact (not_post_of_gets _ _ Hg H eq_refl).
           ++ destruct H as [H|[]]. discriminate.
      * destruct ((status_code r2 =? 204) || (status_code r2 =? 409)) eqn:Es;
          cbn [bind print exec]; autorewrite with trace;
          rewrite gathered_app; cbn [gathered flat_map fst snd app is_get
                                     FixRoles.mapping_creation FixRoles.call
                                     verb andb];
          rewrite app_nil_r, <- Ha; (split; [|split]).
        -- intros rq H E. apply in_app_or in H. destruct H as [H|H].
           ++ destruct (not_post_of_gets _ _ Hg H E).
           ++ destruct H as [<-|[]]. split; [reflexivity | discriminate].
        -- intros _ _. now rewrite Hq.
        -- intros _ _ _. right. apply in_or_app. right. right. left.
           reflexivity.
        -- intros rq H E. apply in_app_or in H. destruct H as [H|H].
           ++ destruct (not_post_of_gets _ _ Hg H E).
           ++ destruct H as [<-|[]]. split; [reflexivity | discriminate].
        -- intros _ _. now rewrite Hq.
        -- intros r H Hs. exfalso. apply in_inv in H.
           destruct H as [H|H]; [discriminate|].
           apply in_app_or in H. destruct H as [H|H].
           ++ apply In_requests in H.
              exact (not_post_of_gets _ _ Hg H eq_refl).
           ++ destruct H as [H|[H|[H|[]]]]; try discriminate.
              injection H as <-. apply orb_false_iff in Es.
              destruct Es as [E1 E2].
              apply Z.eqb_neq in E1. apply Z.eqb_neq in E2.
              destruct Hs; contradiction.
  - autorewrite with trace. split; [|split].
    + intros rq H E. destruct (not_post_of_gets _ _ Hg H E).
    + discriminate.
    + intros r H. exfalso. apply in_inv in H.
      destruct H as [H|H]; [discriminate|].
      apply In_requests in H.
      exact (not_post_of_gets _ _ Hg H eq_refl).
Qed.
Lemma groups_assignment t user_id w :
  let run := exec (SetupGroups.step10_assign_roles t user_id) w in
  let found := gathered (exchanges (trace run)) in
  (forall rq, In rq (requests (trace run)) -> verb rq = POST ->
     rq = SetupGroups.role_assignment t user_id found)
  /\ (forall a, result run = Done a ->
        requests (trace run)
        = (map (SetupGroups.role_lookup t) SetupGroups.roles
           ++ [SetupGroups.role_assignment t user_id found])%list)
  /\ (forall r, In (Sent (SetupGroups.role_assignment t user_id found)
                      (Answer r)) (trace run) ->
        status_code r = 204 \/ status_code r = 409 ->
        In (reported "✅ Roles assigned: "
              ["PlatformAdmin"; "OrgAdmin"; "Owner"; "User"])
           (trace run)).
Proof.
  cbv zeta. unfold SetupGroups.step10_assign_roles.
  cbn [bind print exec]. rewrite exec_bind.
  destruct (turns_outcome W http entropy (SetupGroups.role_lookup t)
              (SetupGroups.available_role t) (fun _ => eq_refl)
              (fun _ _ => eq_refl) SetupGroups.roles [] w)
    as [Hg Hd].
  destruct (exec (for_each SetupGroups.roles []
                    (SetupGroups.available_role t)) w)
    as [w1 t1 [a|e]]; cbn [final trace result] in *.
  - destruct (Hd a eq_refl) as [Ha Hq]. cbn [app] in Ha. clear Hd.
    cbn [bind send exec].
    destruct (http w1 (SetupGroups.role_assignment t user_id a))
      as [w2 [|r2]]; cbn [bind exec].
    + autorewrite with trace. rewrite gathered_app.
      cbn [gathered flat_map snd app]. rewrite app_nil_r, <- Ha.
      split; [|split].
      * intros rq H E. apply in_app_or in H. destruct H as [H|H].
        -- destruct (not_post_of_gets _ _ Hg H E).
        -- destruct H as [<-|[]]. reflexivity.
      * discriminate.
      * intros r H. exfalso. apply in_inv in H.
        destruct H as [H|H]; [discriminate|].
        apply in_app_or in H. destruct H as [H|H].
        -- apply In_requests in H.
           exact (not_post_of_gets _ _ Hg H eq_refl).
        -- destruct H as [H|[]]. discriminate.
    + destruct ((status_code r2 =? 204) || (status_code r2 =? 409)) eqn:Es;
        cbn [bind print exec]; autorewrite with trace;
        rewrite gathered_app; cbn [gathered flat_map fst snd app is_get
                                   SetupGroups.role_assignment
                                   SetupGroups.call verb andb];
        rewrite app_nil_r, <- Ha; (split; [|split]).
      * intros rq H E. apply in_app_or in H. destruct H as [H|H].
        -- destruct (not_post_of_gets _ _ Hg H E).
        -- destruct H as [<-|[]]. reflexivity.
      * intros _ _. now rewrite Hq.
      * intros _ _ _. right. apply in_or_app. right. right. left.
        reflexivity.
      * intros rq H E. apply in_app_or in H. destruct H as [H|H].
        -- destruct (not_post_of_gets _ _ Hg H E).
        -- destruct H as [<-|[]]. reflexivity.
      * intros _ _. now rewrite Hq.
      * intros r H Hs. exfalso. apply in_inv in H.
        destruct H as [H|H]; [discriminate|].
        apply in_app_or in H. destruct H as [H|H].
        -- apply In_requests in H.
           exact (not_post_of_gets _ _ Hg H eq_refl).
        -- destruct H as [H|[H|[]]]; try discriminate.
           injection H as <-. apply orb_false_iff in Es.
           destruct Es as [E1 E2].
           apply Z.eqb_neq in E1. apply Z.eqb_neq in E2.
           destruct Hs; contradiction.
  - autorewrite with trace. split; [|split].
    + intros rq H E. destruct (not_post_of_gets _ _ Hg H E).
    + discriminate.
    + intros r H. exfalso. apply in_inv in H.
      destruct H as [H|H]; [discriminate|].
      apply In_requests in H.
      exact (not_post_of_gets _ _ Hg H eq_refl).
Qed.
End Assignments.

(** X9.  The role assignment of fix_keycloak_roles.py and of
    setup_keycloak_groups.py carries the roles whose lookup was answered
    with status 200, and only those: every [POST] of the step has as its
    body the list of the bodies of those answers, in the order of the
    lookups.  A role whose lookup was answered otherwise is left out
    without a word, and the line printed after an answer 204 or 409
    names all four roles whatever was sent.  With no role found the fix
    script sends no assignment at all; the groups script sends the empty
    list. *)
Theorem assigned_roles_are_the_roles_found :
  forall (W : Type) (http : W -> request -> W * reply)
         (entropy : W -> W * string) (cfg : config)
         (t user_id : json) (w : W),
    let fix_run :=
      exec http entropy (FixRoles.step4_assign_new_roles cfg t user_id) w in
    let fix_found := gathered (exchanges (trace fix_run)) in
    let groups_run :=
      exec http entropy (SetupGroups.step10_assign_roles t user_id) w in
    let groups_found := gathered (exchanges (trace groups_run)) in
    ((forall rq, In rq (requests (trace fix_run)) -> verb rq = POST ->
        rq = FixRoles.mapping_creation cfg t user_id fix_found
        /\ fix_found <> [])
     /\ (forall a, result fix_run = Done a ->
           requests (trace fix_run)
           = (map (FixRoles.role_lookup cfg t) FixRoles.new_roles_to_assign
              ++ match fix_found with
                 | [] => []
                 | _ => [FixRoles.mapping_creation cfg t user_id fix_found]
                 end)%list)
     /\ (forall r, In (Sent (FixRoles.mapping_creation cfg t user_id fix_found)
                         (Answer r)) (trace fix_run) ->
           status_code r = 204 \/ status_code r = 409 ->
           In (reported "   ✅ Roles assigned: "
                 ["PlatformAdmin"; "OrgAdmin"; "Owner"; "User"])
              (trace fix_run)))
    /\ ((forall rq, In rq (requests (trace groups_run)) -> verb rq = POST ->
           rq = SetupGroups.role_assignment t user_id groups_found)
        /\ (forall a, result groups_run = Done a ->
              requests (trace groups_run)
              = (map (SetupGroups.role_lookup t) SetupGroups.roles
                 ++ [SetupGroups.role_assignment t user_id groups_found])%list)
        /\ (forall r, In (Sent (SetupGroups.role_assignment t user_id
                                  groups_found) (Answer r))
                         (trace groups_run) ->
              status_code r = 204 \/ status_code r = 409 ->
              In (reported "✅ Roles assigned: "
                    ["PlatformAdmin"; "OrgAdmin"; "Owner"; "User"])
                 (trace groups_run))).
Proof.
  intros W http entropy cfg t user_id w. split.
  - apply fix_assignment.
  - apply groups_assignment.
Qed.

(** ** What the exit status 0 of setup_keycloak_multitenant.py vouches for *)

(** A request that changes the remote (any but a [GET]) and was not
    accepted: an error of the transport, or an answer with a status of
    400..599. *)
Definition turned_down (x : request * reply) : bool :=
  negb (is_get (fst x))
  && match snd x with
     | NetworkError => true
     | Answer r => is_error_status (status_code r)
     end.

Section AcceptedWrites.
Variable W : Type.
Variable http : W -> request -> W * reply.
Variable entropy : W -> W * string.
Notation exec := (exec http entropy).
Notation spoiled r := (existsb turned_down (exchanges (trace r))).

(** Run a step against an arbitrary remote, one request, status or body
    at a time. *)
Ltac walk :=
  repeat first
    [ progress simpl
    | match goal with
      | |- context [has_response ?e] => unfold has_response, ok
      | H : is_error_status ?x = _ |- context [is_error_status ?x] =>
          rewrite H
      | |- context [http ?w ?rq] => destruct (http w rq) as [? [|?]]
      | |- context [is_error_status (status_code ?r)] =>
          destruct (is_error_status (status_code r)) eqn:?
      | |- context [body ?r] => destruct (body r)
      | |- context [lift ?o] => destruct o
      | |- context [if truthy ?x then _ else _] => destruct (truthy x)
      | |- context [Nat.eqb ?a ?b] => destruct (Nat.eqb a b)
      | |- context [except_RequestException _ ?e] => is_var e; destruct e
      | |- context [except_Exception _ ?e] => is_var e; destruct e
      | |- context [exec (KeycloakSetup.scan_scopes ?v ?l) ?w] =>
          let H := fresh "H" in
          destruct (exec_scan_scopes W http entropy v l w) as [_ H];
          destruct (exec (KeycloakSetup.scan_scopes v l) w) as [? ? [[?|]|?]];
          cbn [final trace result] in H |- *;
          autorewrite with trace; rewrite ?H
      | |- context [exec (KeycloakSetup.scan_mappers ?l) ?w] =>
          let H := fresh "H" in
          destruct (exec_scan_mappers W http entropy l w) as [_ H];
          destruct (exec (KeycloakSetup.scan_mappers l) w) as [? ? [[|]|?]];
          cbn [final trace result] in H |- *;
          autorewrite with trace; rewrite ?H
      | |- context [exec (try_except ?p ?h) ?w] => rewrite (exec_try _ _ _ _ p h w)
      | |- context [exec (bind ?p ?f) ?w] => rewrite (exec_bind _ _ _ _ _ p f w)
      end ];
  try (intros;
       repeat match goal with
              | H : Done _ = Done _ |- _ => inversion H; subst; clear H
              end;
       simpl in *; try discriminate;
       autorewrite with trace; rewrite ?app_nil_r;
       repeat match goal with
              | H : exchanges _ = [] |- _ => rewrite H
              end;
       simpl;
       repeat match goal with
              | H : is_error_status _ = _ |- _ => rewrite H
              end;
       reflexivity).

Lemma get_admin_token_accepted cfg self w s :
  result (exec (KeycloakSetup.get_admin_token cfg self) w) = Done (true, s) ->
  spoiled (exec (KeycloakSetup.get_admin_token cfg self) w) = false
  /\ KeycloakSetup.organization_uuid s = KeycloakSetup.organization_uuid self.
Proof.
  unfold KeycloakSetup.get_admin_token, raise_for_status, response_json,
    KeycloakSetup.print_response_of, turned_down.
  walk. intros [= <-]. split; reflexivity.
Qed.

Lemma create_client_accepted self w j :
  result (exec (KeycloakSetup.create_client self) w) = Done j ->
  truthy j = true ->
  spoiled (exec (KeycloakSetup.create_client self) w) = false.
Proof.
  unfold KeycloakSetup.create_client, raise_for_status, response_json,
    KeycloakSetup.print_response_of, turned_down.
  walk.
Qed.

Lemma create_role_accepted self role_name success w :
  result (exec (KeycloakSetup.create_role self role_name success) w)
    = Done true ->
  success = true
  /\ spoiled (exec (KeycloakSetup.create_role self role_name success) w)
     = false.
Proof.
  unfold KeycloakSetup.create_role, raise_for_status, turned_down.
  walk; try (destruct (status_code _ =? 200)); walk;
    try (intros [= ->]; split; reflexivity).
Qed.

Lemma create_roles_loop_accepted self l success w :
  result (exec (for_each l success (KeycloakSetup.create_role self)) w)
    = Done true ->
  success = true
  /\ spoiled (exec (for_each l success (KeycloakSetup.create_role self)) w)
     = false.
Proof.
  revert success w; induction l as [|role_name l IH]; intros success w.
  - simpl. intros [= ->]. split; reflexivity.
  - cbn [for_each]. rewrite exec_bind.
    pose proof (create_role_accepted self role_name success w) as H1.
    destruct (exec (KeycloakSetup.create_role self role_name success) w)
      as [w1 t1 [b|e]]; cbn [final trace result] in *; [|discriminate].
    autorewrite with trace. intros H. destruct (IH b w1 H) as [-> H2].
    destruct (H1 eq_refl) as [-> H3].
    split; [reflexivity|]. now rewrite existsb_app, H3, H2.
Qed.

Lemma create_roles_accepted self w :
  result (exec (KeycloakSetup.create_roles self) w) = Done true ->
  spoiled (exec (KeycloakSetup.create_roles self) w) = false.
Proof.
  unfold KeycloakSetup.create_roles. cbn [bind print exec].
  autorewrite with trace. intros H.
  now destruct (create_roles_loop_accepted self _ _ _ H).
Qed.

Lemma create_client_scope_accepted self w j :
  result (exec (KeycloakSetup.create_client_scope self) w) = Done j ->
  truthy j = true ->
  spoiled (exec (KeycloakSetup.create_client_scope self) w) = false.
Proof.
  unfold KeycloakSetup.create_client_scope, raise_for_status, response_json,
    turned_down.
  walk.
Qed.

Lemma create_protocol_mapper_accepted self scope_id w :
  result (exec (KeycloakSetup.create_protocol_mapper self scope_id) w)
    = Done true ->
  spoiled (exec (KeycloakSetup.create_protocol_mapper self scope_id) w)
    = false.
Proof.
  unfold KeycloakSetup.create_protocol_mapper, raise_for_status,
    response_json, turned_down.
  walk.
Qed.

Lemma assign_scope_to_client_accepted self client_uuid scope_id w :
  let r := exec (KeycloakSetup.assign_scope_to_client self client_uuid
                   scope_id) w in
  result r = Done true ->
  spoiled r = false
  /\ In (KeycloakSetup.scope_assignment self client_uuid scope_id)
        (requests (trace r)).
Proof.
  unfold KeycloakSetup.assign_scope_to_client, raise_for_status, turned_down.
  walk. intros _. split; [reflexivity | now left].
Qed.

Lemma find_user_by_email_accepted self email w :
  spoiled (exec (KeycloakSetup.find_user_by_email self email) w) = false.
Proof.
  unfold KeycloakSetup.find_user_by_email, raise_for_status, response_json,
    turned_down.
  walk.
Qed.

Lemma set_user_attribute_accepted self user_id w :
  let r := exec (KeycloakSetup.set_user_attribute self user_id) w in
  result r = Done true ->
  spoiled r = false
  /\ exists user_data,
       In (KeycloakSetup.user_update self user_id user_data)
          (requests (trace r)).
Proof.
  unfold KeycloakSetup.set_user_attribute, raise_for_status, response_json,
    KeycloakSetup.print_response_of, turned_down.
  walk. intros _. split; [reflexivity | exists a; right; now left].
Qed.

Lemma assign_roles_to_user_accepted self user_id w :
  let r := exec (KeycloakSetup.assign_roles_to_user self user_id) w in
  result r = Done true ->
  spoiled r = false
  /\ exists role_objects,
       In (KeycloakSetup.role_assignment self user_id role_objects)
          (requests (trace r)).
Proof.
  unfold KeycloakSetup.assign_roles_to_user, raise_for_status, response_json,
    KeycloakSetup.print_response_of, turned_down.
  walk. intros _. split; [reflexivity | exists a; right; now left].
Qed.

Lemma print_summary_quiet cfg self w :
  exchanges (trace (exec (KeycloakSetup.print_summary cfg self) w)) = []
  /\ result (exec (KeycloakSetup.print_summary cfg self) w) = Done tt.
Proof. split; reflexivity. Qed.
End AcceptedWrites.

(** The requests that [run] ends on: the scope made a default of the
    client, the user's representation written back, the three roles
    assigned, the last two for one and the same user. *)
Definition closing_writes (u : string) (l : list request) : Prop :=
  exists self client_uuid scope_id user_id user_data role_objects,
    KeycloakSetup.organization_uuid self = u
    /\ In (KeycloakSetup.scope_assignment self client_uuid scope_id) l
    /\ In (KeycloakSetup.user_update self user_id user_data) l
    /\ In (KeycloakSetup.role_assignment self user_id role_objects) l.

Section AcceptedRun.
Variable W : Type.
Variable http : W -> request -> W * reply.
Variable entropy : W -> W * string.
Notation exec := (exec http entropy).

Local Opaque KeycloakSetup.get_admin_token KeycloakSetup.create_client
  KeycloakSetup.create_roles KeycloakSetup.create_client_scope
  KeycloakSetup.create_protocol_mapper KeycloakSetup.assign_scope_to_client
  KeycloakSetup.find_user_by_email KeycloakSetup.set_user_attribute
  KeycloakSetup.assign_roles_to_user KeycloakSetup.print_summary.

(** The run ended early, and not with [True]. *)
Ltac ended_early :=
  autorewrite with trace; cbn [exec result]; discriminate.

(** The next step of [run], with what [H] tells about it. *)
Ltac step_with H x :=
  rewrite exec_bind;
  lazymatch goal with
  | |- context [result (exec ?p ?w)] =>
      let F := fresh "F" in
      pose proof (H w) as F;
      destruct (exec p w) as [? ? [x|?]]; cbn [final trace result] in F |- *
  end; [|ended_early].

Ltac somewhere :=
  first [ eassumption
        | apply in_or_app; left; somewhere
        | apply in_or_app; right; somewhere ].

Lemma run_accepted cfg self w :
  result (exec (KeycloakSetup.run cfg self) w) = Done true ->
  existsb turned_down
    (exchanges (trace (exec (KeycloakSetup.run cfg self) w))) = false
  /\ closing_writes (KeycloakSetup.organization_uuid self)
       (requests (trace (exec (KeycloakSetup.run cfg self) w))).
Proof.
  unfold KeycloakSetup.run. cbn [bind print exec].
  step_with (fun w => get_admin_token_accepted W http entropy cfg self w) x.
  destruct x as [authenticated self1].
  destruct authenticated; cbn [negb]; [|ended_early].
  destruct (F self1 eq_refl) as [F1 Hu]. clear F.
  step_with (fun w => create_client_accepted W http entropy self1 w)
    client_uuid.
  destruct (truthy client_uuid) eqn:T2; cbn [negb]; [|ended_early].
  specialize (F _ eq_refl T2).
  step_with (fun w => create_roles_accepted W http entropy self1 w) created.
  destruct created; cbn [negb]; [|ended_early]. specialize (F0 eq_refl).
  step_with (fun w => create_client_scope_accepted W http entropy self1 w)
    scope_id.
  destruct (truthy scope_id) eqn:T4; cbn [negb]; [|ended_early].
  specialize (F2 _ eq_refl T4).
  step_with (fun w => create_protocol_mapper_accepted W http entropy self1
                        scope_id w) mapped.
  destruct mapped; cbn [negb]; [|ended_early]. specialize (F3 eq_refl).
  step_with (fun w => assign_scope_to_client_accepted W http entropy self1
                        client_uuid scope_id w) assigned.
  destruct assigned; cbn [negb]; [|ended_early].
  destruct (F4 eq_refl) as [F6 I6]. clear F4.
  step_with (fun w => find_user_by_email_accepted W http entropy self1
                        (ADMIN_EMAIL cfg) w) user_id.
  destruct (truthy user_id); cbn [negb]; [|ended_early].
  step_with (fun w => set_user_attribute_accepted W http entropy self1
                        user_id w) attributed.
  destruct attributed; cbn [negb]; [|ended_early].
  destruct (F5 eq_refl) as [F8 [user_data I8]]. clear F5.
  step_with (fun w => assign_roles_to_user_accepted W http entropy self1
                        user_id w) granted.
  destruct granted; cbn [negb]; [|ended_early].
  destruct (F5 eq_refl) as [F9 [role_objects I9]]. clear F5.
  rewrite exec_bind.
  lazymatch goal with
  | |- context [exec (KeycloakSetup.print_summary cfg self1) ?w9] =>
      destruct (print_summary_quiet W http entropy cfg self1 w9) as [Q1 Q2];
      destruct (exec (KeycloakSetup.print_summary cfg self1) w9)
        as [w' t' res]
  end; cbn [final trace result] in *. subst res.
  intros _. cbn [exec]. autorewrite with trace. cbn [trace].
  autorewrite with trace. split.
  - rewrite !existsb_app, F1, F, F0, F2, F3, F6, F4, F8, F9, Q1.
    reflexivity.
  - exists self1, client_uuid, scope_id, user_id, user_data, role_objects.
    split; [exact Hu|]. split; [|split]; somewhere.
Qed.
End AcceptedRun.

(** X10.  The exit status 0 of setup_keycloak_multitenant.py vouches for
    the changes it asked for: in a run that ends with status 0 every
    request other than a [GET] was answered, and with a status outside
    400..599; and among the requests are the assignment of the scope to
    the client, the update of the user's representation and the
    assignment of the roles, the last two for the same user, sent with
    the identifier of the organization that the run drew. *)
Theorem exit_status_0_vouches_for_the_writes :
  forall (W : Type) (http : W -> request -> W * reply)
         (entropy : W -> W * string) (cfg : config) (w : W),
    exit_status (result (exec http entropy (KeycloakSetup.script cfg) w)) = 0 ->
    existsb turned_down
      (exchanges (trace (exec http entropy (KeycloakSetup.script cfg) w)))
    = false
    /\ closing_writes (snd (entropy w))
         (requests (trace (exec http entropy (KeycloakSetup.script cfg) w))).
Proof.
  intros W http entropy cfg w. unfold KeycloakSetup.script.
  destruct ((ADMIN_EMAIL cfg =? "") || (ADMIN_PASSWORD cfg =? ""))%string;
    [discriminate|].
  pose proof (exec_main W http entropy cfg w) as Hm.
  pose proof (run_accepted W http entropy cfg
                (KeycloakSetup.mkSelf (KEYCLOAK_URL cfg) (REALM_NAME cfg) None
                   (snd (entropy w))) (fst (entropy w))) as Hr.
  destruct (entropy w) as [w0 u]. cbv zeta in Hm. cbn [fst snd] in *.
  destruct Hm as [(tail & -> & Ht) ->].
  destruct (result (exec http entropy (KeycloakSetup.run cfg _) w0))
    as [[|]|e]; try discriminate.
  intros _. destruct (Hr eq_refl) as [Ha Hc]. clear Hr.
  autorewrite with trace. split.
  - rewrite existsb_app, Ha.
    destruct Ht as [->|[l ->]]; reflexivity.
  - destruct Hc as (self & c & s & i & d & o & Hu & H1 & H2 & H3).
    exists self, c, s, i, d, o.
    split; [exact Hu|].
    split; [|split]; apply in_or_app; left; assumption.
Qed.

Lemma exit_status_0_vouches_for_the_writes_witness :
  existsb turned_down
    (exchanges (trace (Canned.play (KeycloakSetup.script demo_config)
                         replies_all_there ["uuid-1"])))
  = false
  /\ closing_writes "uuid-1"
       (requests (trace (Canned.play (KeycloakSetup.script demo_config)
                           replies_all_there ["uuid-1"]))).
Proof.
  apply (exit_status_0_vouches_for_the_writes Canned.world Canned.http
           Canned.entropy demo_config
           (Canned.mkWorld replies_all_there ["uuid-1"])).
  vm_compute. reflexivity.
Defined.

(** ** The user that the scripts change *)

(** The user a request is about: the id of [.../users/{id}] and of the
    routes below it. *)
Definition user_of (rq : request) : option json :=
  match route_of rq with
  | User u | RoleMappings u | UserGroup u _ => Some u
  | _ => None
  end.

(** [users[0]["id"]] of the answer to a lookup. *)
Definition named_user (rp : reply) : option json :=
  match rp with
  | Answer r =>
      match body r with
      | Some users =>
          match index0 users with
          | Done u =>
              match item u "id" with
              | Done i => Some i
              | Raised _ => None
              end
          | Raised _ => None
          end
      | None => None
      end
  | NetworkError => None
  end.

(** [rq] is about the user [uid], or about no user. *)
Definition for_user (uid : json) (rq : request) : Prop :=
  forall u, user_of rq = Some u -> u = uid.

(** Every request about a user is about the user that the answer to a
    lookup by e-mail address named. *)
Definition only_the_user_found (t : list entry) : Prop :=
  forall rq u, In rq (requests t) -> user_of rq = Some u ->
    exists rq' rp,
      In (Sent rq' rp) t /\ is_user_lookup rq' = true
      /\ named_user rp = Some u.

Lemma about_user_none rq : about_user rq = false -> user_of rq = None.
Proof. unfold about_user, user_of. now destruct (route_of rq). Qed.

Lemma none_for uid rq : user_of rq = None -> for_user uid rq.
Proof. intros H u E. congruence. Qed.

Lemma about_user_for uid rq : about_user rq = false -> for_user uid rq.
Proof. intros H. now apply none_for, about_user_none. Qed.

Lemma named_none t :
  Forall (fun rq => user_of rq = None) (requests t) -> only_the_user_found t.
Proof.
  intros F rq u H E. rewrite Forall_forall in F.
  specialize (F _ H). congruence.
Qed.

Lemma named_by uid t :
  Forall (for_user uid) (requests t) ->
  (exists rq' rp,
      In (Sent rq' rp) t /\ is_user_lookup rq' = true
      /\ named_user rp = Some uid) ->
  only_the_user_found t.
Proof.
  intros F Hn rq u H E. rewrite Forall_forall in F.
  rewrite (F _ H u E). exact Hn.
Qed.

(** A request of a step is about the user of the step, or about none. *)
Ltac about_the_user :=
  let u := fresh "u" in
  let E := fresh "E" in
  first [ reflexivity
        | intros u E; cbn in E;
          first [discriminate E | now injection E as <-] ].

Section UserRequests.
Variable cfg : config.

Lemma setup_find_quiet self email :
  sends (fun rq => user_of rq = None)
    (KeycloakSetup.find_user_by_email self email).
Proof.
  unfold KeycloakSetup.find_user_by_email; repeat sends_step; reflexivity.
Qed.

Lemma setup_attribute_for self user_id :
  sends (for_user user_id) (KeycloakSetup.set_user_attribute self user_id).
Proof.
  unfold KeycloakSetup.set_user_attribute; repeat sends_step;
    first [apply sends_print_response_of | about_the_user].
Qed.

Lemma setup_roles_for self user_id :
  sends (for_user user_id) (KeycloakSetup.assign_roles_to_user self user_id).
Proof.
  unfold KeycloakSetup.assign_roles_to_user; repeat sends_step;
    first [apply sends_print_response_of | about_the_user].
Qed.

Lemma groups_find_quiet t :
  sends (fun rq => user_of rq = None) (SetupGroups.step8_find_user t).
Proof.
  unfold SetupGroups.step8_find_user; repeat sends_step; reflexivity.
Qed.

Lemma groups_join_for t user_id group_id :
  sends (for_user user_id) (SetupGroups.step9_join_group t user_id group_id).
Proof.
  unfold SetupGroups.step9_join_group; repeat sends_step; about_the_user.
Qed.

Lemma groups_attribute_for t user_id uuid :
  sends (for_user user_id) (SetupGroups.step9_set_attribute t user_id uuid).
Proof.
  unfold SetupGroups.step9_set_attribute; repeat sends_step; about_the_user.
Qed.

Lemma groups_roles_for t user_id :
  sends (for_user user_id) (SetupGroups.step10_assign_roles t user_id).
Proof.
  unfold SetupGroups.step10_assign_roles, SetupGroups.available_role;
    repeat sends_step; about_the_user.
Qed.

Lemma fix_find_quiet t :
  sends (fun rq => user_of rq = None) (FixRoles.step4_find_user cfg t).
Proof.
  unfold FixRoles.step4_find_user; repeat sends_step; reflexivity.
Qed.

Lemma fix_remove_for t user_id :
  sends (for_user user_id) (FixRoles.step4_remove_old_roles cfg t user_id).
Proof.
  unfold FixRoles.step4_remove_old_roles; repeat sends_step; about_the_user.
Qed.

Lemma fix_assign_for t user_id :
  sends (for_user user_id) (FixRoles.step4_assign_new_roles cfg t user_id).
Proof.
  unfold FixRoles.step4_assign_new_roles, FixRoles.available_role;
    repeat sends_step; about_the_user.
Qed.
End UserRequests.

Section UserNamed.
Variable W : Type.
Variable http : W -> request -> W * reply.
Variable entropy : W -> W * string.
Notation exec := (exec http entropy).

(** The id that a step hands on is the one its lookup was answered
    with. *)
Lemma setup_find_names self email w w' t user_id :
  exec (KeycloakSetup.find_user_by_email self email) w
    = mkRun w' t (Done user_id) ->
  truthy user_id = true ->
  exists rp,
    In (Sent (KeycloakSetup.user_lookup self email) rp) t
    /\ named_user rp = Some user_id.
Proof.
  unfold KeycloakSetup.find_user_by_email; simpl.
  destruct (http w (KeycloakSetup.user_lookup self email)) as [w1 [|r]];
    simpl; [intros [= <- <- <-]; discriminate|].
  unfold raise_for_status, response_json.
  destruct (is_error_status (status_code r)); simpl;
    [intros [= <- <- <-]; discriminate|].
  destruct (body r) as [j|] eqn:Eb; simpl;
    [|intros [= <- <- <-]; discriminate].
  destruct (truthy j); simpl; [|intros [= <- <- <-]; discriminate].
  destruct (index0 j) as [u|e] eqn:Eu; simpl;
    [|destruct e; simpl; intros [= <- <- <-]; discriminate].
  destruct (item u "id") as [i|e] eqn:Ei; simpl;
    [|destruct e; simpl; intros [= <- <- <-]; discriminate].
  intros [= <- <- <-] _. exists (Answer r). split.
  - right. now left.
  - simpl. now rewrite Eb, Eu, Ei.
Qed.

Lemma groups_find_names t w w' tr user_id :
  exec (SetupGroups.step8_find_user t) w = mkRun w' tr (Done user_id) ->
  exists rp,
    In (Sent (SetupGroups.user_lookup t) rp) tr
    /\ named_user rp = Some user_id.
Proof.
  unfold SetupGroups.step8_find_user; simpl.
  destruct (http w (SetupGroups.user_lookup t)) as [w1 [|r]]; simpl;
    [discriminate|].
  unfold response_json.
  destruct (body r) as [j|] eqn:Eb; simpl; [|discriminate].
  destruct (truthy j); simpl; [|discriminate].
  destruct (index0 j) as [u|e] eqn:Eu; simpl; [|discriminate].
  destruct (item u "id") as [i|e] eqn:Ei; simpl; [|discriminate].
  intros [= <- <- <-]. exists (Answer r). split.
  - right. now left.
  - simpl. now rewrite Eb, Eu, Ei.
Qed.

Lemma fix_find_names cfg t w w' tr user_id :
  exec (FixRoles.step4_find_user cfg t) w = mkRun w' tr (Done user_id) ->
  exists rp,
    In (Sent (FixRoles.user_lookup cfg t) rp) tr
    /\ named_user rp = Some user_id.
Proof.
  unfold FixRoles.step4_find_user; simpl.
  destruct (http w (FixRoles.user_lookup cfg t)) as [w1 [|r]]; simpl;
    [discriminate|].
  unfold response_json.
  destruct (body r) as [j|] eqn:Eb; simpl; [|discriminate].
  destruct (truthy j); simpl; [|discriminate].
  destruct (index0 j) as [u|e] eqn:Eu; simpl; [|discriminate].
  destruct (item u "id") as [i|e] eqn:Ei; simpl; [|discriminate].
  intros [= <- <- <-]. exists (Answer r). split.
  - right. now left.
  - simpl. now rewrite Eb, Eu, Ei.
Qed.
End UserNamed.

Section UserRuns.
Variable W : Type.
Variable http : W -> request -> W * reply.
Variable entropy : W -> W * string.
Notation exec := (exec http entropy).

Local Opaque KeycloakSetup.get_admin_token KeycloakSetup.create_client
  KeycloakSetup.create_roles KeycloakSetup.create_client_scope
  KeycloakSetup.create_protocol_mapper KeycloakSetup.assign_scope_to_client
  KeycloakSetup.find_user_by_email KeycloakSetup.set_user_attribute
  KeycloakSetup.assign_roles_to_user KeycloakSetup.print_summary.
Local Opaque SetupGroups.mint SetupGroups.step1_authenticate
  SetupGroups.step2_client SetupGroups.step3_roles SetupGroups.step4_scope
  SetupGroups.step5_mappers SetupGroups.step6_assign_scope
  SetupGroups.step7_group SetupGroups.step8_find_user
  SetupGroups.step9_join_group SetupGroups.step9_set_attribute
  SetupGroups.step10_assign_roles SetupGroups.print_summary.
Local Opaque FixRoles.step1_authenticate FixRoles.step2_delete_old_roles
  FixRoles.step3_create_roles FixRoles.step4_find_user
  FixRoles.step4_remove_old_roles FixRoles.step4_assign_new_roles
  FixRoles.print_summary.

(** The pieces of the trace of a run, one after the other. *)
Ltac pieces :=
  autorewrite with trace; cbn [exec trace]; autorewrite with trace;
  rewrite ?Forall_app; repeat split.

(** The run ended before it had a user. *)
Ltac none_touched :=
  apply named_none; pieces;
  first [ apply Forall_nil
        | assumption
        | eapply Forall_impl; [|eassumption]; apply about_user_none ].

Ltac placed :=
  first [ eassumption
        | apply in_cons; placed
        | apply in_or_app; left; placed
        | apply in_or_app; right; placed ].

(** The run ended after the lookup [rq] had named [uid] ([Hn]). *)
Ltac user_touched uid rq Hn :=
  let rp := fresh "rp" in
  let Hi := fresh "Hi" in
  let Hrp := fresh "Hrp" in
  apply (named_by uid);
  [ pieces;
    first [ apply Forall_nil
          | assumption
          | eapply Forall_impl; [|eassumption]; apply none_for
          | eapply Forall_impl; [|eassumption]; apply about_user_for ]
  | destruct Hn as (rp & Hi & Hrp); exists rq, rp;
    split; [autorewrite with trace; cbn [exec trace]; placed
           | split; [reflexivity | exact Hrp]] ].

Lemma run_only_found cfg self w :
  only_the_user_found (trace (exec (KeycloakSetup.run cfg self) w)).
Proof.
  unfold KeycloakSetup.run. cbn [bind print exec].
  run_step (get_admin_token_sends cfg self) as a; [|none_touched].
  destruct a as [[|] self1]; cbn [negb]; [|none_touched].
  run_step (create_client_sends self1) as client_uuid; [|none_touched].
  destruct (truthy client_uuid); cbn [negb]; [|none_touched].
  run_step (create_roles_sends self1) as created; [|none_touched].
  destruct created; cbn [negb]; [|none_touched].
  run_step (create_client_scope_sends self1) as scope_id; [|none_touched].
  destruct (truthy scope_id); cbn [negb]; [|none_touched].
  run_step (create_protocol_mapper_sends self1 scope_id) as mapped;
    [|none_touched].
  destruct mapped; cbn [negb]; [|none_touched].
  run_step (assign_scope_to_client_sends self1 client_uuid scope_id)
    as assigned; [|none_touched].
  destruct assigned; cbn [negb]; [|none_touched].
  run_step (setup_find_quiet self1 (ADMIN_EMAIL cfg)) as user_id;
    [|none_touched].
  destruct (truthy user_id) eqn:Huser; cbn [negb]; [|none_touched].
  lazymatch goal with
  | H : exec (KeycloakSetup.find_user_by_email _ _) _ = _ |- _ =>
      pose proof (setup_find_names W http entropy _ _ _ _ _ _ H Huser) as Hn
  end.
  run_step (setup_attribute_for self1 user_id) as attributed;
    [|user_touched user_id
        (KeycloakSetup.user_lookup self1 (ADMIN_EMAIL cfg)) Hn].
  destruct attributed; cbn [negb];
    [|user_touched user_id
        (KeycloakSetup.user_lookup self1 (ADMIN_EMAIL cfg)) Hn].
  run_step (setup_roles_for self1 user_id) as granted;
    [|user_touched user_id
        (KeycloakSetup.user_lookup self1 (ADMIN_EMAIL cfg)) Hn].
  destruct granted; cbn [negb];
    [|user_touched user_id
        (KeycloakSetup.user_lookup self1 (ADMIN_EMAIL cfg)) Hn].
  run_step (print_summary_sends cfg (for_user user_id) self1) as u;
    user_touched user_id
      (KeycloakSetup.user_lookup self1 (ADMIN_EMAIL cfg)) Hn.
Qed.

Lemma setup_script_only_found cfg w :
  only_the_user_found (trace (exec (KeycloakSetup.script cfg) w)).
Proof.
  unfold KeycloakSetup.script.
  destruct ((ADMIN_EMAIL cfg =? "") || (ADMIN_PASSWORD cfg =? ""))%string.
  - apply named_none. cbn. constructor.
  - pose proof (exec_main W http entropy cfg w) as Hm.
    pose proof (run_only_found cfg
                  (KeycloakSetup.mkSelf (KEYCLOAK_URL cfg) (REALM_NAME cfg)
                     None (snd (entropy w))) (fst (entropy w))) as Hr.
    destruct (entropy w) as [w0 u]. cbv zeta in Hm. cbn [fst snd] in *.
    destruct Hm as [(tail & -> & Ht) _].
    intros rq x H E. autorewrite with trace in H.
    assert (H' : In rq (requests (trace (exec (KeycloakSetup.run cfg
                  (KeycloakSetup.mkSelf (KEYCLOAK_URL cfg) (REALM_NAME cfg)
                     None u)) w0)))).
    { apply in_app_or in H. destruct H as [H|H]; [exact H|].
      destruct Ht as [->|[l ->]]; destruct H. }
    destruct (Hr rq x H' E) as (rq' & rp & Hi & Hl & Hn).
    exists rq', rp. split; [|split; assumption].
    right. apply in_or_app. now left.
Qed.

Lemma groups_script_only_found pw w :
  only_the_user_found (trace (exec (SetupGroups.script pw) w)).
Proof.
  unfold SetupGroups.script.
  run_step (mint_sends (fun rq => about_user rq = false)) as uuid;
    [|none_touched].
  run_step (step1_sends pw) as t; [|none_touched].
  run_step (step2_sends t) as client_id; [|none_touched].
  run_step (step3_sends t) as u3; [|none_touched].
  run_step (step4_sends t) as scope_id; [|none_touched].
  run_step (step5_sends t scope_id) as u5; [|none_touched].
  run_step (step6_sends t client_id scope_id) as u6; [|none_touched].
  run_step (step7_sends t uuid) as group_id; [|none_touched].
  run_step (groups_find_quiet t) as user_id; [|none_touched].
  lazymatch goal with
  | H : exec (SetupGroups.step8_find_user _) _ = _ |- _ =>
      pose proof (groups_find_names W http entropy _ _ _ _ _ H) as Hn
  end.
  run_step (groups_join_for t user_id group_id) as u9;
    [|user_touched user_id (SetupGroups.user_lookup t) Hn].
  run_step (groups_attribute_for t user_id uuid) as u9';
    [|user_touched user_id (SetupGroups.user_lookup t) Hn].
  run_step (groups_roles_for t user_id) as u10;
    [|user_touched user_id (SetupGroups.user_lookup t) Hn].
  last_step (groups_summary_sends (for_user user_id) uuid);
    user_touched user_id (SetupGroups.user_lookup t) Hn.
Qed.

Lemma fix_script_only_found cfg w :
  only_the_user_found (trace (exec (FixRoles.script cfg) w)).
Proof.
  unfold FixRoles.script.
  destruct ((ADMIN_EMAIL cfg =? "") || (ADMIN_PASSWORD cfg =? ""))%string.
  - apply named_none. cbn. constructor.
  - unfold FixRoles.body_of_script. cbn [bind print exec].
    run_step (fix_step1_sends cfg) as t; [|none_touched].
    run_step (fix_step2_sends cfg t) as u2; [|none_touched].
    run_step (fix_step3_sends cfg t) as u3; [|none_touched].
    run_step (fix_find_quiet cfg t) as user_id; [|none_touched].
    lazymatch goal with
    | H : exec (FixRoles.step4_find_user _ _) _ = _ |- _ =>
        pose proof (fix_find_names W http entropy _ _ _ _ _ _ H) as Hn
    end.
    run_step (fix_remove_for cfg t user_id) as u4;
      [|user_touched user_id (FixRoles.user_lookup cfg t) Hn].
    run_step (fix_assign_for cfg t user_id) as u5;
      [|user_touched user_id (FixRoles.user_lookup cfg t) Hn].
    last_step (fix_summary_sends cfg (for_user user_id));
      user_touched user_id (FixRoles.user_lookup cfg t) Hn.
Qed.
End UserRuns.

(** X11.  The three scripts change no user but the one they looked up:
    whatever the remote answers, every request about a user (the read
    and the update of the representation, the membership of the group,
    the reading, removal and assignment of realm roles) carries the id
    that the answer to the script's lookup by e-mail address gave for the
    first user of its list. *)
Theorem only_the_user_found_is_changed :
  forall (W : Type) (http : W -> request -> W * reply)
         (entropy : W -> W * string) (cfg : config) (pw : string) (w : W),
    only_the_user_found
      (trace (exec http entropy (KeycloakSetup.script cfg) w))
    /\ only_the_user_found
         (trace (exec http entropy (SetupGroups.script pw) w))
    /\ only_the_user_found
         (trace (exec http entropy (FixRoles.script cfg) w)).
Proof.
  intros W http entropy cfg pw w. split; [|split].
  - apply setup_script_only_found.
  - apply groups_script_only_found.
  - apply fix_script_only_found.
Qed.

(** ** The line that would show the body of an error answer *)

(** [print(f"   Response: {e.response.text}")], the line of
    [print_response_of]. *)
Definition shows_response (e : entry) : bool :=
  match e with
  | Printed (Lit s :: _) => (s =? "   Response: ")%string
  | _ => false
  end.

(** What a Python operator raises carries no response. *)
Definition plain {A : Type} (o : outcome A) : Prop :=
  forall e, o = Raised e -> has_response e = false.

Create HintDb plain.

Lemma plain_Done A (a : A) : plain (Done a).
Proof. intros e; discriminate. Qed.

Lemma plain_index0 x : plain (index0 x).
Proof.
  intros e; destruct x as [| | |[|c s]|[|a l]|f]; simpl;
    intros [= <-]; reflexivity.
Qed.

Lemma plain_item x k : plain (item x k).
Proof.
  intros e; destruct x; simpl; try (intros [= <-]; reflexivity).
  destruct (dict_get fields k); intros [= <-]; reflexivity.
Qed.

Lemma plain_get x k : plain (get x k).
Proof. intros e; destruct x; simpl; intros [= <-]; reflexivity. Qed.

Lemma plain_iter x : plain (iter x).
Proof. intros e; destruct x; simpl; intros [= <-]; reflexivity. Qed.

Lemma plain_has_key x k : plain (has_key x k).
Proof. intros e; destruct x; simpl; intros [= <-]; reflexivity. Qed.

Lemma plain_setitem x k v : plain (setitem x k v).
Proof. intros e; destruct x; simpl; intros [= <-]; reflexivity. Qed.

Lemma plain_then A B (o : outcome A) (f : A -> outcome B) :
  plain o -> (forall a, plain (f a)) ->
  plain (match o with Raised e => Raised e | Done a => f a end).
Proof.
  intros Ho Hf e; destruct o as [a|e']; [apply Hf|].
  intros [= <-]; now apply Ho.
Qed.

Lemma plain_if A (b : bool) (o1 o2 : outcome A) :
  plain o1 -> plain o2 -> plain (if b then o1 else o2).
Proof. now destruct b. Qed.

#[local] Hint Resolve plain_Done plain_index0 plain_item plain_get plain_iter
  plain_has_key plain_setitem plain_then plain_if : plain.

Lemma plain_with_organization_id user_data uuid :
  plain (KeycloakSetup.with_organization_id user_data uuid).
Proof.
  unfold KeycloakSetup.with_organization_id.
  repeat (apply plain_then; [auto with plain | intros]).
  auto with plain.
Qed.

Lemma plain_find_role l role_name :
  plain (KeycloakSetup.find_role l role_name).
Proof.
  induction l as [|role l IH]; simpl; [apply plain_Done|].
  apply plain_then; [auto with plain | intros name].
  destruct (eq_str name role_name); [|exact IH].
  apply plain_then; [auto with plain | intros; apply plain_Done].
Qed.

Lemma plain_collect_roles all_roles names role_objects :
  plain (KeycloakSetup.collect_roles all_roles names role_objects).
Proof.
  revert role_objects; induction names as [|n names IH]; intros ros; simpl;
    [apply plain_Done|].
  apply plain_then; [auto with plain | intros l].
  intros e He. pose proof (plain_find_role l n) as Hf.
  destruct (KeycloakSetup.find_role l n) as [[o|]|e'].
  - eapply IH; eassumption.
  - eapply IH; eassumption.
  - injection He as <-. now apply Hf.
Qed.

#[local] Hint Resolve plain_with_organization_id plain_find_role
  plain_collect_roles : plain.

(** [hushed p]: whatever the remote answers, [p] prints no line that
    shows the body of a response, and an exception that leaves it
    carries no response that is true. *)
Inductive hushed {A : Type} : prog A -> Prop :=
| hushed_Ret a : hushed (Ret a)
| hushed_Raise e : has_response e = false -> hushed (Raise e)
| hushed_Call rq k : (forall rp, hushed (k rp)) -> hushed (Call rq k)
| hushed_Uuid4 k : (forall u, hushed (k u)) -> hushed (Uuid4 k)
| hushed_Echo l k :
    shows_response (Printed l) = false -> hushed k -> hushed (Echo l k).

Create HintDb hushed.
#[local] Hint Constructors hushed : hushed.

Lemma hushed_bind A B (p : prog A) (f : A -> prog B) :
  hushed p -> (forall a, hushed (f a)) -> hushed (bind p f).
Proof. induction 1; intros Hf; simpl; auto with hushed. Qed.

(** A handler is entered with an exception that carries no response
    that is true. *)
Lemma hushed_try A (p : prog A) h :
  hushed p ->
  (forall e q, has_response e = false -> h e = Some q -> hushed q) ->
  hushed (try_except p h).
Proof.
  induction 1; intros Hh; simpl; auto with hushed.
  destruct (h e) eqn:E; [eapply Hh; eassumption | now constructor].
Qed.

Lemma hushed_lift A (o : outcome A) : plain o -> hushed (lift o).
Proof.
  intros Ho; destruct o as [a|e]; constructor. now apply Ho.
Qed.

Lemma hushed_print l : shows_response (Printed l) = false -> hushed (print l).
Proof. intros H; constructor; [exact H | constructor]. Qed.

Lemma hushed_send rq : hushed (send rq).
Proof. constructor; intros [|r]; now constructor. Qed.

(** The exception of [raise_for_status] carries a response that is
    false: its status is one of 400..599. *)
Lemma hushed_raise_for_status r : hushed (raise_for_status r).
Proof.
  unfold raise_for_status.
  destruct (is_error_status (status_code r)) eqn:E; constructor.
  unfold has_response, ok; simpl. now rewrite E.
Qed.

Lemma hushed_response_json r : hushed (response_json r).
Proof. unfold response_json; destruct (body r); now constructor. Qed.

Lemma hushed_for_each A S (l : list A) (s : S) body :
  (forall x s, hushed (body x s)) -> hushed (for_each l s body).
Proof.
  intros Hb; revert s; induction l as [|x l IH]; intros s; simpl.
  - constructor.
  - apply hushed_bind; auto.
Qed.

Lemma hushed_except_RequestException A (h : exn -> prog A) :
  (forall e, has_response e = false -> hushed (h e)) ->
  forall e q, has_response e = false ->
    except_RequestException h e = Some q -> hushed q.
Proof.
  unfold except_RequestException; intros H e q He.
  destruct (is_RequestException e); [intros [= <-]; now apply H | discriminate].
Qed.

Lemma hushed_except_Exception A (h : exn -> prog A) :
  (forall e, has_response e = false -> hushed (h e)) ->
  forall e q, has_response e = false ->
    except_Exception h e = Some q -> hushed q.
Proof.
  unfold except_Exception; intros H e q He.
  destruct (is_Exception e); [intros [= <-]; now apply H | discriminate].
Qed.

Lemma hushed_except_all A (h : prog A) :
  hushed h ->
  forall e q, has_response e = false -> except_all h e = Some q -> hushed q.
Proof. unfold except_all; intros H e q _ [= <-]; exact H. Qed.

(** The one place that prints the line: entered with an exception of
    the kind that reaches a handler, it prints nothing. *)
Lemma hushed_print_response_of e :
  has_response e = false -> hushed (KeycloakSetup.print_response_of e).
Proof.
  intros H. unfold KeycloakSetup.print_response_of. rewrite H. constructor.
Qed.

Ltac hushed_step :=
  lazymatch goal with
  | |- hushed (bind _ _) => apply hushed_bind; [|intros]
  | |- hushed (try_except _ _) => apply hushed_try; [|]
  | |- forall e q, _ -> except_RequestException _ e = Some q -> _ =>
      apply hushed_except_RequestException; intros
  | |- forall e q, _ -> except_Exception _ e = Some q -> _ =>
      apply hushed_except_Exception; intros
  | |- forall e q, _ -> except_all _ e = Some q -> _ =>
      apply hushed_except_all
  | |- hushed (KeycloakSetup.print_response_of _) =>
      apply hushed_print_response_of; assumption
  | |- hushed (lift _) => apply hushed_lift; auto with plain
  | |- hushed (print _) => apply hushed_print; reflexivity
  | |- hushed (send _) => apply hushed_send
  | |- hushed (raise_for_status _) => apply hushed_raise_for_status
  | |- hushed (response_json _) => apply hushed_response_json
  | |- hushed (for_each _ _ _) => apply hushed_for_each; intros
  | |- hushed (Ret _) => constructor
  | |- hushed (Raise _) => constructor; reflexivity
  | |- hushed (Echo _ _) => apply hushed_Echo; [reflexivity|]
  | |- hushed (Call _ _) => apply hushed_Call; intros
  | |- hushed (Uuid4 _) => apply hushed_Uuid4; intros
  | |- hushed (if ?c then _ else _) => destruct c
  | |- hushed (match ?x with _ => _ end) => destruct x
  end.

Section ResponseLine.
Variable cfg : config.
Import KeycloakSetup.

Lemma hushed_scan_scopes v l : hushed (scan_scopes v l).
Proof. induction l as [|x l IH]; simpl; repeat hushed_step; exact IH. Qed.

Lemma hushed_scan_mappers l : hushed (scan_mappers l).
Proof. induction l as [|x l IH]; simpl; repeat hushed_step; exact IH. Qed.

Lemma hushed_run self : hushed (run cfg self).
Proof.
  unfold run, get_admin_token, create_client, create_roles, create_role,
    create_client_scope, create_protocol_mapper, assign_scope_to_client,
    find_user_by_email, set_user_attribute, assign_roles_to_user,
    print_summary.
  repeat hushed_step;
    first [apply hushed_scan_scopes | apply hushed_scan_mappers].
Qed.

Lemma hushed_script : hushed (script cfg).
Proof.
  unfold script, main, init, uuid4. cbn [bind].
  repeat hushed_step. apply hushed_run.
Qed.
End ResponseLine.

Lemma hushed_exec W (http : W -> request -> W * reply)
    (entropy : W -> W * string) A (p : prog A) :
  hushed p ->
  forall w, existsb shows_response (trace (exec http entropy p w)) = false.
Proof.
  induction 1 as [a|e He|rq k Hk IH|k Hk IH|l k Hl Hk IH]; intros w; simpl.
  - reflexivity.
  - reflexivity.
  - destruct (http w rq) as [w' rp]. simpl. apply IH.
  - destruct (entropy w) as [w' u]. simpl. apply IH.
  - rewrite IH, orb_false_r. exact Hl.
Qed.

